(** * tiktorch/trainy.py: the training worker, its batch assembler,
      its state servers and the controller-side operations.

    The development follows the Python source function by function.
    Python exceptions are values of [exn]; a call that may raise returns
    a [result].  Mailboxes ([mp.Queue]) and the sample cache
    ([collections.deque]) are lists together with their capacity.  The
    numeric collaborators (model, optimizer, augmentor) are kept abstract:
    only the pieces of their state that the control code can observe are
    represented. *)

From Stdlib Require Import ZArith List Lia QArith String Bool Permutation.
Import ListNotations.
Local Open Scope Z_scope.

Set Implicit Arguments.

(* ------------------------------------------------------------------ *)
(** ** Python exceptions and fallible results                          *)
(* ------------------------------------------------------------------ *)

(** The exceptions that the code of trainy.py raises or lets escape.
    [Empty] and [Full] are [queue.Empty] and [queue.Full]. *)
Inductive exn : Type :=
| Empty
| Full
| NameError (name : string)
| TypeError
| ValueError
| IndexError
| RuntimeError
| AssertionError.

Inductive result (A : Type) : Type :=
| Ok (a : A)
| Raise (e : exn).

Arguments Ok {A} a.
Arguments Raise {A} e.

Definition bind {A B : Type} (r : result A) (k : A -> result B) : result B :=
  match r with
  | Ok a => k a
  | Raise e => Raise e
  end.

Notation "x <- r ;; k" := (bind r (fun x => k))
  (at level 61, r at next level, right associativity).

(** [len(l)] as a Python integer. *)
Definition len {A : Type} (l : list A) : Z := Z.of_nat (List.length l).

(* ------------------------------------------------------------------ *)
(** ** Mailboxes: [mp.Queue]                                           *)
(* ------------------------------------------------------------------ *)

(** A queue holds its items oldest first.  [q_maxsize <= 0] is the
    unbounded queue that [mp.Queue()] builds in [ignition]. *)
Record Queue (A : Type) : Type := mkQueue {
  q_items : list A;
  q_maxsize : Z
}.

Definition new_queue (A : Type) : Queue A := mkQueue [] 0.

Definition q_full {A : Type} (q : Queue A) : bool :=
  (0 <? q_maxsize q) && (q_maxsize q <=? len (q_items q)).

(** [q.get_nowait()] / [q.get(block=False)] *)
Definition get_nowait {A : Type} (q : Queue A) : result (A * Queue A) :=
  match q_items q with
  | [] => Raise Empty
  | x :: rest => Ok (x, mkQueue rest (q_maxsize q))
  end.

(** [q.put_nowait(x)] *)
Definition put_nowait {A : Type} (q : Queue A) (x : A) : result (Queue A) :=
  if q_full q then Raise Full
  else Ok (mkQueue (q_items q ++ [x]) (q_maxsize q)).

(** [q.put(x)] on a queue with room (the controller only puts into the
    unbounded queues of [ignition], where it never blocks). *)
Definition put {A : Type} (q : Queue A) (x : A) : Queue A :=
  mkQueue (q_items q ++ [x]) (q_maxsize q).

(* ------------------------------------------------------------------ *)
(** ** The sample cache: [collections.deque(maxlen=...)]               *)
(* ------------------------------------------------------------------ *)

Record deque (A : Type) : Type := mkDeque {
  items : list A;
  maxlen : Z
}.

(** [d.append(x)]: the item is added on the right and, when the deque
    is then longer than [maxlen], one item is dropped on the left. *)
Definition append {A : Type} (d : deque A) (x : A) : deque A :=
  let l := items d ++ [x] in
  mkDeque (if maxlen d <? len l then tl l else l) (maxlen d).

(** [deque(xs, maxlen=n)]; a negative [maxlen] is refused. *)
Definition new_deque {A : Type} (xs : list A) (n : Z) : result (deque A) :=
  if n <? 0 then Raise ValueError
  else Ok (fold_left append xs (mkDeque [] n)).

(** [d.popleft()] *)
Definition popleft {A : Type} (d : deque A) : result (A * deque A) :=
  match items d with
  | [] => Raise IndexError
  | x :: rest => Ok (x, mkDeque rest (maxlen d))
  end.

(* ------------------------------------------------------------------ *)
(** ** Hyperparameters                                                 *)
(* ------------------------------------------------------------------ *)

Definition kwargs : Type := list (string * string).

(** The [Namespace] that [Trainer.hparams] holds. *)
Record HParams : Type := mkHParams {
  optimizer_kwargs : kwargs;
  optimizer_name : string;
  criterion_kwargs : kwargs;
  criterion_name : string;
  batch_size : Z;
  cache_size : Z;
  augmentor_kwargs : kwargs
}.

(** Class attributes of [Trainer]. *)
Definition USE_CACHE_KEEPING : bool := false.
Definition CACHE_SIZE : Z := 200.
Definition INVERT_BINARY_LABELS : bool := true.

(** The defaults of [Trainer.__init__]. *)
Definition default_hparams : HParams :=
  mkHParams
    [("lr", "0.0003"); ("weight_decay", "0.0001"); ("amsgrad", "True")]%string
    "Adam"%string
    [("reduce", "False")]%string
    "BCEWithLogitsLoss"%string
    1
    CACHE_SIZE
    [("invert_binary_labels", "True")]%string.

(** Module-level constant. *)
Definition STATE_QUEUE_GET_TIMEOUT : Z := 5.

(* ------------------------------------------------------------------ *)
(** ** Collaborators, as far as the control code observes them         *)
(* ------------------------------------------------------------------ *)

(** The two synchronizable components ([key in ('model', 'optimizer')]). *)
Inductive component : Type := TrainableUnit | OptimizerState.

(** The criterion that [getattr(torch.nn, hparams.criterion_name)] builds
    from [hparams.criterion_kwargs]. *)
Record Criterion : Type := mkCriterion {
  crit_name : string;
  crit_kwargs : kwargs
}.

(** Both names are taken to be names of classes that exist, so that
    building the criterion and the optimizer does not fail. *)
Definition build_criterion (h : HParams) : Criterion :=
  mkCriterion (criterion_name h) (criterion_kwargs h).

(** The optimizer that [getattr(torch.optim, hparams.optimizer_name)]
    builds over [model.parameters()] from [hparams.optimizer_kwargs].
    [opt_steps] stands for the optimizer's internal state (moment
    estimates, step counters): it is empty in a new optimizer and grows
    with every [optim.step()]. *)
Record Optim : Type := mkOptim {
  opt_name : string;
  opt_kwargs : kwargs;
  opt_steps : nat
}.

Definition build_optimizer (h : HParams) : Optim :=
  mkOptim (optimizer_name h) (optimizer_kwargs h) 0.

(** Who produced a snapshot that sits in a state mailbox. *)
Inductive producer : Type := FastPath | StateServer.

(** What [state_dict()] returns: the number of update steps that the
    component has absorbed, tagged with the component and the producer. *)
Record Snapshot : Type := mkSnapshot {
  snap_of : component;
  snap_value : nat;
  snap_by : producer
}.

(** What the worker does that other parties can observe. *)
Inductive event (sample : Type) : Type :=
| ClearChangeHparams
| FetchedHparams (h : HParams)
| HparamsQueueEmpty
| KillStateServer (c : component)
| BuiltCriterion (c : Criterion)
| BuiltOptimizer (o : Optim)
| StartStateServer (c : component)
| ClearStateRequest
| PutState (s : Snapshot)
| StateQueueFull
| Sleep (seconds : Q)
| UpdatingWith (B : Z) (batch : list sample)
| AcquireStateLock
| ZeroGrad
| Backward
| OptimStep
| ReleaseStateLock.

Arguments ClearChangeHparams {sample}.
Arguments FetchedHparams {sample} h.
Arguments HparamsQueueEmpty {sample}.
Arguments KillStateServer {sample} c.
Arguments BuiltCriterion {sample} c.
Arguments BuiltOptimizer {sample} o.
Arguments StartStateServer {sample} c.
Arguments ClearStateRequest {sample}.
Arguments PutState {sample} s.
Arguments StateQueueFull {sample}.
Arguments Sleep {sample} seconds.
Arguments AcquireStateLock {sample}.
Arguments ZeroGrad {sample}.
Arguments Backward {sample}.
Arguments OptimStep {sample}.
Arguments ReleaseStateLock {sample}.

(** How one pass through the body of [while True] ends. *)
Inductive outcome : Type :=
| Continue            (* the loop goes round again *)
| Break               (* [break]: the process function returns *)
| Raised (e : exn).   (* an exception leaves [_train_process] *)

(* ------------------------------------------------------------------ *)
(** ** The worker: [Trainer._train_process]                            *)
(* ------------------------------------------------------------------ *)

Section Worker.

(** Tensors are opaque; [l1_diff a b] is
    [a.sub(b).abs_().sum().item()]. *)
Variable tensor : Type.
Variable l1_diff : tensor -> tensor -> Q.

Definition Sample : Type := (tensor * tensor)%type.

(** The tolerance [1e-5]. *)
Definition tolerance : Q := 1 # 100000.

Definition Qgt_bool (a b : Q) : bool := negb (Qle_bool a b).
Definition Qlt_bool (a b : Q) : bool := negb (Qle_bool b a).

(** The namespace of module [tiktorch.trainy], restricted to the one
    name that [_cache_keeping] declares [global]: [None] when the
    name [data_cache] is not bound at module level. *)
Record Globals : Type := mkGlobals {
  g_data_cache : option (deque Sample)
}.

(** trainy.py binds [logger], [STATE_QUEUE_GET_TIMEOUT] and [Trainer]
    at module level, and never [data_cache]. *)
Definition module_globals : Globals := mkGlobals None.

(** The [for idx, cache_sample in enumerate(data_cache)] loop of
    [_cache_keeping]: returns [update_batch] and [dirty_indices]. *)
Fixpoint scan_cache (sample : Sample) (cache : list Sample) (idx : nat)
         (update_batch : bool) (dirty_indices : list nat)
  : bool * list nat :=
  match cache with
  | [] => (update_batch, dirty_indices)
  | (cache_data, cache_labels) :: rest =>
      let '(data, labels) := sample in
      let data_diff := l1_diff data cache_data in
      if Qgt_bool data_diff tolerance then
        scan_cache sample rest (S idx) update_batch dirty_indices
      else
        let labels_diff := l1_diff labels cache_labels in
        if Qlt_bool labels_diff tolerance then
          scan_cache sample rest (S idx) false dirty_indices
        else
          scan_cache sample rest (S idx) update_batch (dirty_indices ++ [idx])
  end.

(** [[_sample for _idx, _sample in enumerate(data_cache)
      if _idx not in dirty_indices]] *)
Fixpoint drop_indices (cache : list Sample) (idx : nat) (dirty : list nat)
  : list Sample :=
  match cache with
  | [] => []
  | s :: rest =>
      if existsb (Nat.eqb idx) dirty then drop_indices rest (S idx) dirty
      else s :: drop_indices rest (S idx) dirty
  end.

(** [_cache_keeping(sample)].  The function declares
    [global data_cache], so every read and write of [data_cache] in its
    body goes to the module namespace [g], not to the local variable of
    [_train_process]; [hparams] is read from the enclosing scope. *)
Definition _cache_keeping (hparams : HParams) (g : Globals) (sample : Sample)
  : result (bool * Globals) :=
  match g_data_cache g with
  | None => Raise (NameError "data_cache")
  | Some data_cache =>
      let '(update_batch, dirty_indices) :=
        scan_cache sample (items data_cache) 0 true [] in
      cleaned <-
        match dirty_indices with
        | [] => Ok data_cache
        | _ :: _ =>
            new_deque (drop_indices (items data_cache) 0 dirty_indices)
                      (cache_size hparams)
        end ;;
      Ok (update_batch, mkGlobals (Some (append cleaned sample)))
  end.

(** How the fill loop [while len(batch) < hparams.batch_size] ends. *)
Inductive fill_exit : Type :=
| BatchFull                (* the loop condition became false *)
| QueueExhausted           (* [data_queue.get(block=False)] raised Empty *)
| FillRaised (e : exn).    (* another exception escaped *)

Record FillState : Type := mkFill {
  f_exit : fill_exit;
  f_queue : list Sample;       (* what is left in [data_queue] *)
  f_batch : list Sample;
  f_cache : deque Sample;      (* the local [data_cache] *)
  f_globals : Globals
}.

(** Lines 276-295.  The recursion follows the items of the queue: every
    turn of the loop takes one. *)
Fixpoint fill_batch (hparams : HParams) (use_cache_keeping : bool)
         (queue : list Sample) (batch : list Sample)
         (data_cache : deque Sample) (g : Globals) : FillState :=
  if len batch <? batch_size hparams then
    match queue with
    | [] => mkFill QueueExhausted [] batch data_cache g
    | (data, labels) :: queue' =>
        if use_cache_keeping then
          match _cache_keeping hparams g (data, labels) with
          | Raise e => mkFill (FillRaised e) queue' batch data_cache g
          | Ok (true, g') =>
              fill_batch hparams use_cache_keeping queue'
                         (batch ++ [(data, labels)]) data_cache g'
          | Ok (false, g') =>
              fill_batch hparams use_cache_keeping queue' batch data_cache g'
          end
        else
          fill_batch hparams use_cache_keeping queue'
                     (batch ++ [(data, labels)])
                     (append data_cache (data, labels)) g
    end
  else mkFill BatchFull queue batch data_cache g.

(** Lines 309-312: [while len(data_cache) > 0 and
    len(batch) < hparams.batch_size].  The test [len(data_cache) > 0]
    and the [popleft] that follows it are the match on the items of the
    cache.  Every turn makes the batch one longer, so
    [batch_size - len(batch)] turns are enough; [top_up] supplies
    exactly that many. *)
Fixpoint top_up_loop (turns : nat) (B : Z) (data_cache : deque Sample)
         (batch : list Sample) : deque Sample * list Sample :=
  match turns with
  | O => (data_cache, batch)
  | S turns' =>
      match items data_cache with
      | [] => (data_cache, batch)
      | data_sample :: rest =>
          if len batch <? B then
            top_up_loop turns' B
                        (append (mkDeque rest (maxlen data_cache)) data_sample)
                        (batch ++ [data_sample])
          else (data_cache, batch)
      end
  end.

Definition top_up (B : Z) (data_cache : deque Sample) (batch : list Sample)
  : deque Sample * list Sample :=
  top_up_loop (Z.to_nat (B - len batch)) B data_cache batch.

(** What the worker shares with the controller: the mailboxes and
    event flags that [ignition] creates. *)
Record Shared : Type := mkShared {
  data_queue : Queue Sample;
  state_queue : Queue Snapshot;
  optimizer_queue : Queue Snapshot;
  hparams_queue : Queue HParams;
  abort : bool;
  pause : bool;
  change_hparams : bool;
  state_request : bool;
  optimizer_state_request : bool
}.

(** The local variables of [_train_process] that live across turns of
    its loop.  [model] is the number of update steps the trainable unit
    has absorbed; [stop_server] and [optim_stop_server] are the stop
    events of the two state servers; [optim_servers] counts the
    optimizer state servers started so far. *)
Record Worker : Type := mkWorker {
  hparams : HParams;
  criterion : Criterion;
  optim : Optim;
  model : nat;
  data_cache : deque Sample;
  iter_count : Z;
  stop_server : bool;
  optim_stop_server : bool;
  optim_servers : nat
}.

(** Lines 150-188, with the record [h] that the blocking
    [hparams_queue.get()] returns. *)
Definition start_worker (model_state : nat) (h : HParams) : result Worker :=
  data_cache <- new_deque [] (cache_size h) ;;
  Ok (mkWorker h (build_criterion h) (build_optimizer h) model_state
               data_cache 0 false false 1).

(** Lines 228-246: hot reload of the hyperparameters. *)
Definition reload_hparams (sh : Shared) (w : Worker)
  : Shared * Worker * list (event Sample) :=
  if change_hparams sh then
    let sh1 := mkShared (data_queue sh) (state_queue sh) (optimizer_queue sh)
                        (hparams_queue sh) (abort sh) (pause sh) false
                        (state_request sh) (optimizer_state_request sh) in
    match get_nowait (hparams_queue sh1) with
    | Ok (h, rest) =>
        let crit := build_criterion h in
        let opt := build_optimizer h in
        (mkShared (data_queue sh1) (state_queue sh1) (optimizer_queue sh1)
                  rest (abort sh1) (pause sh1) (change_hparams sh1)
                  (state_request sh1) (optimizer_state_request sh1),
         mkWorker h crit opt (model w) (data_cache w) (iter_count w)
                  (stop_server w) false (S (optim_servers w)),
         [ClearChangeHparams; FetchedHparams h;
          KillStateServer OptimizerState;
          BuiltCriterion crit; BuiltOptimizer opt;
          StartStateServer OptimizerState])
    | Raise _ => (sh1, w, [ClearChangeHparams; HparamsQueueEmpty])
    end
  else (sh, w, []).

(** Lines 249-256: the loop's own answer to a state request. *)
Definition serve_state_request (sh : Shared) (w : Worker)
  : Shared * list (event Sample) :=
  if state_request sh then
    let snapshot := mkSnapshot TrainableUnit (model w) FastPath in
    match put_nowait (state_queue sh) snapshot with
    | Ok q =>
        (mkShared (data_queue sh) q (optimizer_queue sh) (hparams_queue sh)
                  (abort sh) (pause sh) (change_hparams sh) false
                  (optimizer_state_request sh),
         [ClearStateRequest; PutState snapshot])
    | Raise _ =>
        (mkShared (data_queue sh) (state_queue sh) (optimizer_queue sh)
                  (hparams_queue sh) (abort sh) (pause sh)
                  (change_hparams sh) false (optimizer_state_request sh),
         [ClearStateRequest; StateQueueFull])
    end
  else (sh, []).

(** The two calls of [Trainer._kill_state_server] that precede every
    exit of the worker: each sets the stop event of its server. *)
Definition kill_both (w : Worker) : Worker * list (event Sample) :=
  (mkWorker (hparams w) (criterion w) (optim w) (model w) (data_cache w)
            (iter_count w) true true (optim_servers w),
   [KillStateServer TrainableUnit; KillStateServer OptimizerState]).

(** Lines 321-355: augmentation and the update under [_state_lock].
    The collaborators are taken not to fail; the one failure that the
    control code itself causes is kept: with an empty batch
    unzipping [augmented_batch] yields nothing and unpacking it into
    [data, labels, weights] raises ValueError, which the handler of
    line 352 answers by stopping both servers and re-raising. *)
Definition update_step (w : Worker) (batch : list Sample)
  : Worker * list (event Sample) * outcome :=
  match batch with
  | [] =>
      let '(w', kills) := kill_both w in
      (w', UpdatingWith (batch_size (hparams w)) batch :: kills,
       Raised ValueError)
  | _ :: _ =>
      (mkWorker (hparams w) (criterion w)
                (mkOptim (opt_name (optim w)) (opt_kwargs (optim w))
                         (S (opt_steps (optim w))))
                (S (model w)) (data_cache w) (iter_count w + 1)
                (stop_server w) (optim_stop_server w) (optim_servers w),
       [UpdatingWith (batch_size (hparams w)) batch;
        AcquireStateLock; ZeroGrad; Backward; OptimStep; ReleaseStateLock],
       Continue)
  end.

Definition with_cache (w : Worker) (c : deque Sample) : Worker :=
  mkWorker (hparams w) (criterion w) (optim w) (model w) c (iter_count w)
           (stop_server w) (optim_stop_server w) (optim_servers w).

Definition with_data_queue (sh : Shared) (q : list Sample) : Shared :=
  mkShared (mkQueue q (q_maxsize (data_queue sh))) (state_queue sh)
           (optimizer_queue sh) (hparams_queue sh) (abort sh) (pause sh)
           (change_hparams sh) (state_request sh)
           (optimizer_state_request sh).

(** Which arm of the handler of [queue.Empty] (lines 296-319) runs. *)
Inductive exhausted_arm : Type :=
| TryAgain        (* line 298: batch and cache both empty *)
| NothingToDo     (* line 303: the batch is full *)
| TopUp           (* line 306: the batch is short *)
| Fatal.          (* line 313: the [else] arm *)

Definition on_exhausted (B : Z) (batch : list Sample)
           (data_cache : deque Sample) : exhausted_arm :=
  if (len batch =? 0) && (len (items data_cache) =? 0) then TryAgain
  else if len batch =? B then NothingToDo
  else if len batch <? B then TopUp
  else Fatal.

Record IterResult : Type := mkIter {
  r_globals : Globals;
  r_shared : Shared;
  r_worker : Worker;
  r_events : list (event Sample);
  r_outcome : outcome
}.

(** One pass through the body of [while True] (lines 228-355). *)
Definition train_iteration (use_cache_keeping : bool) (g : Globals)
           (sh0 : Shared) (w0 : Worker) : IterResult :=
  let '(sh1, w, ev1) := reload_hparams sh0 w0 in
  let '(sh, ev2) := serve_state_request sh1 w in
  let ev := ev1 ++ ev2 in
  if abort sh then
    let '(w', kills) := kill_both w in
    mkIter g sh w' (ev ++ kills) Break
  else if pause sh then
    mkIter g sh w (ev ++ [Sleep 1]) Continue
  else
    let B := batch_size (hparams w) in
    let f := fill_batch (hparams w) use_cache_keeping
                        (q_items (data_queue sh)) [] (data_cache w) g in
    let sh' := with_data_queue sh (f_queue f) in
    let w1 := with_cache w (f_cache f) in
    let g' := f_globals f in
    let proceed (w2 : Worker) (batch : list Sample) :=
      let '(w3, evs, out) := update_step w2 batch in
      mkIter g' sh' w3 (ev ++ evs) out in
    match f_exit f with
    | FillRaised e => mkIter g' sh' w1 ev (Raised e)
    | BatchFull => proceed w1 (f_batch f)
    | QueueExhausted =>
        match on_exhausted B (f_batch f) (f_cache f) with
        | TryAgain => mkIter g' sh' w1 (ev ++ [Sleep (1 # 10)]) Continue
        | NothingToDo => proceed w1 (f_batch f)
        | TopUp =>
            let '(cache', batch') := top_up B (f_cache f) (f_batch f) in
            proceed (with_cache w1 cache') batch'
        | Fatal =>
            let '(w', kills) := kill_both w1 in
            mkIter g' sh' w' (ev ++ kills) (Raised RuntimeError)
        end
    end.

End Worker.

(* ------------------------------------------------------------------ *)
(** ** The controller: the methods of [Trainer]                        *)
(* ------------------------------------------------------------------ *)

Inductive level : Type := Info | Warning | Error.

(** The messages that the modelled methods log. *)
Inductive message : Type :=
| SettingAbortEvent               (* "Setting Abort Event..." *)
| TryOf5 (trial : nat)            (* "Try {trial} of 5:" *)
| ProcessAlive                    (* "Process Alive." *)
| ProcessDead                     (* "Process Dead." *)
| RequestingNewState              (* "Requesting new state." *)
| FoundResidualState              (* "Found residual state in ..." *)
| WaitingForNewState              (* "Waiting for new state..." *)
| AcquiredNewState                (* "Acquired new state." *)
| FailedToAcquireNewState         (* "Failed to acquire new state..." *)
| LoadedState                     (* "Loaded state." *)
| KillingStateServerThread        (* "Killing state server thread..." *)
| AttemptOf (k : Z) (n : Z)       (* "Attempt {k} of {n}." *)
| FailedToKillStateServer (n : Z) (* "Failed to kill state server after ..." *)
| StateServerKilled.              (* "State server killed." *)

(** What a controller method does, in the order in which it does it. *)
Inductive cevent : Type :=
| Log (l : level) (m : message)
| GetNowait (c : component) (got : option Snapshot)
| SetRequest (c : component)
| GetTimeout (c : component) (timeout : Z) (got : option Snapshot)
| LoadStateDict (s : Snapshot)
| SetAbort
| SetStop
| IsAlive (answer : bool)
| TimeSleep (seconds : Z)
| Terminate.      (* [Process.terminate()]: no method of [Trainer] calls it *)

(** The controller's own fields: [handler_model] is the state that
    [self.model] holds (the number of update steps it reflects),
    [ignited] is [self._ignited], [has_process] tells whether
    [self._training_process] is not [None]. *)
Record Trainer : Type := mkTrainer {
  handler_model : nat;
  ignited : bool;
  has_process : bool;
  trainer_hparams : HParams
}.

(** The [while True: state = q.get_nowait()] loop of
    [_drain_state_queue] (and of [_drain_hparams_queue]): every item is
    taken, the last one taken is kept, and the call that finds the queue
    empty ends the loop. *)
Fixpoint drain_loop {A : Type} (pending : list A) (state : option A) : option A :=
  match pending with
  | [] => state
  | x :: rest => drain_loop rest (Some x)
  end.

Definition drain_events (c : component) (pending : list Snapshot) : list cevent :=
  flat_map (fun s => [GetNowait c (Some s); Log Info FoundResidualState]) pending
  ++ [GetNowait c None].

(** [q.get(timeout=t)]: [arrivals] is what the other side puts into the
    queue before the timeout expires.  With nothing pending and nothing
    arriving the call raises [queue.Empty]. *)
Definition get_timeout {A : Type} (q : Queue A) (timeout : Z) (arrivals : list A)
  : result (A * Queue A) :=
  get_nowait (mkQueue (q_items q ++ arrivals) (q_maxsize q)).

(** [isinstance] needs a class as its second argument. *)
Inductive pyobj : Type :=
| PyModule (name : string)
| PyClass (name : string)
| PyInstance (mro : list string).   (* the classes of the object, most derived first *)

Definition isinstance (obj classinfo : pyobj) : result bool :=
  match classinfo with
  | PyClass c =>
      Ok (match obj with
          | PyInstance mro => existsb (String.eqb c) mro
          | _ => false
          end)
  | _ => Raise TypeError
  end.

(** [torch.optim] and [torch.nn] are packages. *)
Definition torch_optim : pyobj := PyModule "torch.optim".
Definition torch_nn : pyobj := PyModule "torch.nn".

(** [a or b]: [b] is evaluated only when [a] is false. *)
Definition py_or (a b : result bool) : result bool :=
  x <- a ;; if x then Ok true else b.

(** [assert cond]: the condition is evaluated when [__debug__] is true,
    which it is unless the interpreter runs with [-O]. *)
Definition py_assert (debug : bool) (cond : result bool) : result unit :=
  if debug then
    b <- cond ;; if b then Ok tt else Raise AssertionError
  else Ok tt.

(** Line 99, the first statement of [_state_server]. *)
Definition state_server_assert (debug : bool) (state_obj : pyobj) : result unit :=
  py_assert debug (py_or (isinstance state_obj torch_optim)
                         (isinstance state_obj torch_nn)).

(** The objects that [_train_process] hands to its two state servers. *)
Definition state_obj_of (c : component) : pyobj :=
  match c with
  | TrainableUnit => PyInstance ["Model"; "torch.nn.Module"; "object"]%string
  | OptimizerState => PyInstance ["torch.optim.Adam"; "torch.optim.Optimizer"; "object"]%string
  end.

Section Controller.

Variable tensor : Type.

Definition response_queue (c : component) (sh : Shared tensor) : Queue Snapshot :=
  match c with
  | TrainableUnit => state_queue sh
  | OptimizerState => optimizer_queue sh
  end.

Definition with_response_queue (c : component) (sh : Shared tensor)
           (q : Queue Snapshot) : Shared tensor :=
  match c with
  | TrainableUnit =>
      mkShared (data_queue sh) q (optimizer_queue sh) (hparams_queue sh)
               (abort sh) (pause sh) (change_hparams sh) (state_request sh)
               (optimizer_state_request sh)
  | OptimizerState =>
      mkShared (data_queue sh) (state_queue sh) q (hparams_queue sh)
               (abort sh) (pause sh) (change_hparams sh) (state_request sh)
               (optimizer_state_request sh)
  end.

Definition set_request (c : component) (sh : Shared tensor) : Shared tensor :=
  match c with
  | TrainableUnit =>
      mkShared (data_queue sh) (state_queue sh) (optimizer_queue sh)
               (hparams_queue sh) (abort sh) (pause sh) (change_hparams sh)
               true (optimizer_state_request sh)
  | OptimizerState =>
      mkShared (data_queue sh) (state_queue sh) (optimizer_queue sh)
               (hparams_queue sh) (abort sh) (pause sh) (change_hparams sh)
               (state_request sh) true
  end.

(** [_drain_state_queue(key)]: returns the last residual state (or
    [None]) and leaves the mailbox empty. *)
Definition _drain_state_queue (key : component) (sh : Shared tensor)
  : option Snapshot * Shared tensor * list cevent :=
  let q := response_queue key sh in
  (drain_loop (q_items q) None,
   with_response_queue key sh (mkQueue [] (q_maxsize q)),
   drain_events key (q_items q)).

(** The part that [update_handler_model_state] and
    [update_handler_optimizer_state] share: drain, request, wait.
    Returns the value of the local variable [state] after the [try]. *)
Definition request_state (key : component) (sh : Shared tensor)
           (arrivals : list Snapshot)
  : option Snapshot * Shared tensor * list cevent :=
  let '(state, sh1, ev1) := _drain_state_queue key sh in
  let sh2 := set_request key sh1 in
  match get_timeout (response_queue key sh2) STATE_QUEUE_GET_TIMEOUT arrivals with
  | Ok (s, q) =>
      (Some s, with_response_queue key sh2 q,
       [Log Info RequestingNewState] ++ ev1 ++
       [SetRequest key; Log Info WaitingForNewState;
        GetTimeout key STATE_QUEUE_GET_TIMEOUT (Some s);
        Log Info AcquiredNewState])
  | Raise _ =>
      (state, sh2,
       [Log Info RequestingNewState] ++ ev1 ++
       [SetRequest key; Log Info WaitingForNewState;
        GetTimeout key STATE_QUEUE_GET_TIMEOUT None;
        Log Info FailedToAcquireNewState])
  end.

(** [Trainer.update_handler_model_state] *)
Definition update_handler_model_state (t : Trainer) (sh : Shared tensor)
           (arrivals : list Snapshot)
  : result (Trainer * Shared tensor * list cevent) :=
  if ignited t then
    let '(state, sh', ev) := request_state TrainableUnit sh arrivals in
    match state with
    | Some s =>
        Ok (mkTrainer (snap_value s) (ignited t) (has_process t)
                      (trainer_hparams t),
            sh', ev ++ [LoadStateDict s; Log Info LoadedState])
    | None => Ok (t, sh', ev)
    end
  else Raise AssertionError.

(** [Trainer.update_handler_optimizer_state] *)
Definition update_handler_optimizer_state (t : Trainer) (sh : Shared tensor)
           (arrivals : list Snapshot)
  : result (option Snapshot * Shared tensor * list cevent) :=
  if ignited t then Ok (request_state OptimizerState sh arrivals)
  else Raise AssertionError.

(** The [for trial in range(6)] loop of [shut_down_training_process];
    [alive trial] is what [self._training_process.is_alive()] answers in
    that trial. *)
Fixpoint shutdown_trials (trials : list nat) (alive : nat -> bool) : list cevent :=
  match trials with
  | [] => []
  | trial :: rest =>
      Log Info (TryOf5 trial) :: IsAlive (alive trial) ::
      if alive trial then
        Log Info ProcessAlive :: TimeSleep 10 :: shutdown_trials rest alive
      else []
  end.

(** [Trainer.shut_down_training_process] *)
Definition shut_down_training_process (t : Trainer) (sh : Shared tensor)
           (alive : nat -> bool) : Shared tensor * list cevent :=
  if has_process t then
    (mkShared (data_queue sh) (state_queue sh) (optimizer_queue sh)
              (hparams_queue sh) true (pause sh) (change_hparams sh)
              (state_request sh) (optimizer_state_request sh),
     [Log Info SettingAbortEvent; SetAbort]
       ++ shutdown_trials (seq 0 6) alive
       ++ [Log Info ProcessDead])
  else (sh, []).

(** [Trainer.push]: one [put] per (data, labels) pair. *)
Definition push (sh : Shared tensor) (samples : list (Sample tensor))
  : Shared tensor :=
  with_data_queue sh (q_items (data_queue sh) ++ samples).

(** [Trainer.push_hparams] on an ignited trainer: stale records are
    drained, the new one is put, the change event is set. *)
Definition push_hparams (sh : Shared tensor) (h : HParams) : Shared tensor :=
  mkShared (data_queue sh) (state_queue sh) (optimizer_queue sh)
           (mkQueue [h] (q_maxsize (hparams_queue sh)))
           (abort sh) (pause sh) true (state_request sh)
           (optimizer_state_request sh).

Definition set_pause (sh : Shared tensor) (b : bool) : Shared tensor :=
  mkShared (data_queue sh) (state_queue sh) (optimizer_queue sh)
           (hparams_queue sh) (abort sh) b (change_hparams sh)
           (state_request sh) (optimizer_state_request sh).

Definition set_abort (sh : Shared tensor) : Shared tensor :=
  mkShared (data_queue sh) (state_queue sh) (optimizer_queue sh)
           (hparams_queue sh) true (pause sh) (change_hparams sh)
           (state_request sh) (optimizer_state_request sh).

(** The mailboxes and flags as [ignition] creates them; the initial
    hyperparameters have been put and taken again by the worker. *)
Definition ignited_shared : Shared tensor :=
  mkShared (new_queue (Sample tensor)) (new_queue Snapshot)
           (new_queue Snapshot) (new_queue HParams)
           false false false false false.

End Controller.

(** [Trainer._kill_state_server]; [alive k] is the answer of the k-th
    call of [thread.is_alive()].  The loop breaks in the turn in which
    [kill_attempts] exceeds [num_kill_attempts], so it makes at most
    [max 1 (num_kill_attempts + 1)] turns. *)
Fixpoint kill_wait (turns : nat) (alive : nat -> bool) (call : nat)
         (kill_attempts num_kill_attempts : Z) : list cevent * nat :=
  match turns with
  | O => ([], call)
  | S turns' =>
      if alive call then
        let kill_attempts' := kill_attempts + 1 in
        let ev := [IsAlive true; TimeSleep 1;
                   Log Info (AttemptOf kill_attempts' num_kill_attempts)] in
        if num_kill_attempts <? kill_attempts' then (ev, S call)
        else
          let '(ev', call') :=
            kill_wait turns' alive (S call) kill_attempts' num_kill_attempts in
          (ev ++ ev', call')
      else ([IsAlive false], S call)
  end.

Definition _kill_state_server (alive : nat -> bool) (num_kill_attempts : Z)
  : list cevent :=
  let '(ev, call) :=
    kill_wait (Z.to_nat (Z.max 1 (num_kill_attempts + 1))) alive 0 0
              num_kill_attempts in
  [Log Info KillingStateServerThread; SetStop] ++ ev ++
  [IsAlive (alive call);
   if alive call then Log Warning (FailedToKillStateServer num_kill_attempts)
   else Log Info StateServerKilled].

(* ------------------------------------------------------------------ *)
(** ** Threads of the worker process, step by step                     *)
(* ------------------------------------------------------------------ *)

(** The worker process runs the loop of [_train_process] in its main
    thread and one [_state_server] thread per state object.  This module
    follows them one program point at a time, so that what one thread
    does between two steps of another is visible.  A component's state
    has two halves; [optim.step()] writes them one after the other, and
    whoever reads a state dict reads them one after the other.  The
    data side of the loop (batch assembly) is a
    single step here: it is described by [train_iteration] above.  The
    state mailboxes are the unbounded queues that [ignition] makes, so
    [put_nowait] never finds them full. *)
Module Interleaving.

Inductive owner : Type := ByWorker | ByServer.

(** Program points of [_state_server] (lines 99-115). *)
Inductive spc : Type :=
| SAssert          (* 99: the assert *)
| SCheckStop       (* 101: if stop_server.is_set() *)
| SCheckRequest    (* 104: if state_request.is_set() *)
| SAcquire         (* 107: with state_lock *)
| SStateDict       (* 108: state_obj.state_dict() *)
| SPut             (* 108: state_queue.put_nowait *)
| SRelease         (* the end of the with block *)
| SClear           (* 113: state_request.clear() *)
| SSleep           (* 115: time.sleep(0.01) *)
| SExited          (* 103: break *)
| SCrashed (e : exn).

(** A state server thread with the arguments it was started with:
    [sv_stop] is its stop event, [sv_lock] the holder of its lock when
    that lock is an [_optim_state_lock] made for it, [sv_obj] the index
    of the optimizer it serves. *)
Record server : Type := mkServer {
  sv_pc : spc;
  sv_stop : bool;
  sv_lock : option owner;
  sv_obj : nat
}.

(** Program points of the loop of [_train_process]. *)
Inductive wpc : Type :=
| WReload          (* 228-246 *)
| WCheckRequest    (* 249-251 *)
| WFastStateDict   (* 253: model.state_dict() *)
| WFastPut         (* 253: state_queue.put_nowait *)
| WCheckAbort      (* 260 *)
| WCheckPause      (* 265 *)
| WAssemble        (* 269-319 *)
| WForward         (* 325-339 *)
| WAcquire         (* 341: with _state_lock *)
| WZeroGrad        (* 342 *)
| WBackward        (* 343 *)
| WStepO1          (* 345: optimizer state for the first half *)
| WStepP1          (* 345: first half of the parameters *)
| WStepO2          (* 345: optimizer state for the second half *)
| WStepP2          (* 345: second half of the parameters *)
| WRelease         (* 347: the end of the with block *)
| WExited.

(** A state dict as it travels.  [state_dict()] copies nothing: the
    dict it returns holds the tensors of the state object themselves,
    and a queue of [torch.multiprocessing] (line 9) ships a tensor as a
    handle to shared memory.  So what is put, and what the requester
    gets, refers to the live state of the component; [s_obj] tells
    which optimizer an optimizer state dict was made from. *)
Record snap : Type := mkSnap {
  s_comp : component;
  s_obj : nat;
  s_by : producer
}.

(** What a requester holds after it has read a state dict it got (as
    [load_state_dict] does, entry by entry): the two halves as they
    were when it read each. *)
Record copy : Type := mkCopy {
  c_of : snap;
  c_fst : nat;
  c_snd : nat
}.

Record state : Type := mkState {
  tu1 : nat;                       (* the model's parameters, first half *)
  tu2 : nat;                       (* the model's parameters, second half *)
  optims : list (nat * nat);       (* the optimizers built so far; the last one is [optim] *)
  state_lock : option owner;       (* [_state_lock] *)
  req_tu : bool;                   (* [state_request] *)
  req_opt : bool;                  (* [optimizer_state_request] *)
  q_tu : list snap;                (* [state_queue] *)
  q_opt : list snap;               (* [optimizer_queue] *)
  delivered : list snap;           (* every state dict put so far *)
  wk : wpc;
  tu_server : server;              (* [server_thread] *)
  opt_servers : list server;       (* the optimizer servers started so far; the last one is [optim_server_thread] *)
  got : list snap;                 (* the state dicts the requester has taken and not yet read *)
  reading : option (snap * nat);   (* the state dict the requester is reading, with the half it has *)
  loaded : list copy               (* what the requester has read so far *)
}.

(** The three ways in which a branching program point of the loop can
    go on; which one is taken depends on the flags and queues that the
    controller fills. *)
Inductive choice : Type :=
| Go      (* fall through *)
| Alt     (* the guarded branch: reload, abort, pause, back off *)
| Exc.    (* an exception leaves the statement *)

Inductive action : Type :=
| Env_request (c : component)   (* the controller sets a request event *)
| Env_take (c : component)      (* the controller takes an item from a state mailbox *)
| Env_read1                     (* the controller reads the first half of a state dict it took *)
| Env_read2                     (* the controller reads the second half *)
| Work (ch : choice)            (* the loop of [_train_process] *)
| Serve_tu                      (* the model's state server *)
| Serve_opt (k : nat).          (* the k-th optimizer state server *)

Definition new_server (obj : nat) : server :=
  mkServer SAssert false None obj.

Definition init : state :=
  mkState 0 0 [(0, 0)%nat] None false false [] [] [] WReload
          (new_server 0) [new_server 0] [] None [].

Fixpoint update_nth {A : Type} (k : nat) (f : A -> A) (l : list A) : list A :=
  match l, k with
  | [], _ => []
  | x :: rest, O => f x :: rest
  | x :: rest, S k' => x :: update_nth k' f rest
  end.

Definition update_last {A : Type} (f : A -> A) (l : list A) : list A :=
  update_nth (Nat.pred (List.length l)) f l.

Definition stop (sv : server) : server :=
  mkServer (sv_pc sv) true (sv_lock sv) (sv_obj sv).

Definition at_pc (sv : server) (pc : spc) : server :=
  mkServer pc (sv_stop sv) (sv_lock sv) (sv_obj sv).

Definition set_wk (s : state) (pc : wpc) : state :=
  mkState (tu1 s) (tu2 s) (optims s) (state_lock s) (req_tu s) (req_opt s)
          (q_tu s) (q_opt s) (delivered s) pc
          (tu_server s) (opt_servers s) (got s) (reading s) (loaded s).

Definition set_state_lock (s : state) (l : option owner) : state :=
  mkState (tu1 s) (tu2 s) (optims s) l (req_tu s) (req_opt s)
          (q_tu s) (q_opt s) (delivered s) (wk s)
          (tu_server s) (opt_servers s) (got s) (reading s) (loaded s).

Definition set_req (c : component) (s : state) (b : bool) : state :=
  mkState (tu1 s) (tu2 s) (optims s) (state_lock s)
          (match c with TrainableUnit => b | OptimizerState => req_tu s end)
          (match c with TrainableUnit => req_opt s | OptimizerState => b end)
          (q_tu s) (q_opt s) (delivered s) (wk s)
          (tu_server s) (opt_servers s) (got s) (reading s) (loaded s).

(** [put_nowait] on the mailbox of the component of [sn]. *)
Definition put_state (s : state) (sn : snap) : state :=
  mkState (tu1 s) (tu2 s) (optims s) (state_lock s) (req_tu s) (req_opt s)
          (match s_comp sn with
           | TrainableUnit => q_tu s ++ [sn]
           | OptimizerState => q_tu s
           end)
          (match s_comp sn with
           | TrainableUnit => q_opt s
           | OptimizerState => q_opt s ++ [sn]
           end)
          (delivered s ++ [sn]) (wk s)
          (tu_server s) (opt_servers s) (got s) (reading s) (loaded s).

Definition set_params (s : state) (a b : nat) : state :=
  mkState a b (optims s) (state_lock s) (req_tu s) (req_opt s)
          (q_tu s) (q_opt s) (delivered s) (wk s)
          (tu_server s) (opt_servers s) (got s) (reading s) (loaded s).

Definition set_optims (s : state) (os : list (nat * nat)) : state :=
  mkState (tu1 s) (tu2 s) os (state_lock s) (req_tu s) (req_opt s)
          (q_tu s) (q_opt s) (delivered s) (wk s)
          (tu_server s) (opt_servers s) (got s) (reading s) (loaded s).

Definition set_servers (s : state) (tu : server) (opts : list server) : state :=
  mkState (tu1 s) (tu2 s) (optims s) (state_lock s) (req_tu s) (req_opt s)
          (q_tu s) (q_opt s) (delivered s) (wk s)
          tu opts (got s) (reading s) (loaded s).

(** The two calls of [_kill_state_server] before the worker leaves. *)
Definition kill_servers (s : state) : state :=
  set_wk (set_servers s (stop (tu_server s)) (update_last stop (opt_servers s)))
         WExited.

(** An exception inside [with _state_lock] (lines 342-345, before
    [optim.step()] has written anything): the lock is released on the
    way out and the handler of line 352 stops both servers.
    [optim.step()] is taken not to fail between its writes. *)
Definition fail_in_lock (s : state) : state :=
  kill_servers (set_state_lock s None).

(** Lines 233-243: the current optimizer server is told to stop, a new
    optimizer is built and a new server is started for it. *)
Definition reload (s : state) : state :=
  set_wk (set_servers (set_optims s (optims s ++ [(0, 0)%nat]))
                      (tu_server s)
                      (update_last stop (opt_servers s)
                         ++ [new_server (List.length (optims s))]))
         WCheckRequest.

Definition bump_fst (p : nat * nat) : nat * nat := (S (fst p), snd p).
Definition bump_snd (p : nat * nat) : nat * nat := (fst p, S (snd p)).

(** One step of the loop of [_train_process]. *)
Definition step_worker (ch : choice) (s : state) : option state :=
  match wk s, ch with
  | WReload, Go => Some (set_wk s WCheckRequest)
  | WReload, Alt => Some (reload s)
  | WCheckRequest, Go =>
      if req_tu s then Some (set_wk (set_req TrainableUnit s false) WFastStateDict)
      else Some (set_wk s WCheckAbort)
  | WFastStateDict, Go => Some (set_wk s WFastPut)
  | WFastPut, Go =>
      Some (set_wk (put_state s (mkSnap TrainableUnit 0 FastPath)) WCheckAbort)
  | WCheckAbort, Go => Some (set_wk s WCheckPause)
  | WCheckAbort, Alt => Some (kill_servers s)
  | WCheckPause, Go => Some (set_wk s WAssemble)
  | WCheckPause, Alt => Some (set_wk s WReload)
  | WAssemble, Go => Some (set_wk s WForward)
  | WAssemble, Alt => Some (set_wk s WReload)
  | WAssemble, Exc => Some (set_wk s WExited)
  | WForward, Go => Some (set_wk s WAcquire)
  | WForward, Exc => Some (kill_servers s)
  | WAcquire, Go =>
      match state_lock s with
      | None => Some (set_wk (set_state_lock s (Some ByWorker)) WZeroGrad)
      | Some _ => None
      end
  | WZeroGrad, Go => Some (set_wk s WBackward)
  | WZeroGrad, Exc => Some (fail_in_lock s)
  | WBackward, Go => Some (set_wk s WStepO1)
  | WBackward, Exc => Some (fail_in_lock s)
  | WStepO1, Exc => Some (fail_in_lock s)
  | WStepO1, Go =>
      Some (set_wk (set_optims s (update_last bump_fst (optims s))) WStepP1)
  | WStepP1, Go => Some (set_wk (set_params s (S (tu1 s)) (tu2 s)) WStepO2)
  | WStepO2, Go =>
      Some (set_wk (set_optims s (update_last bump_snd (optims s))) WStepP2)
  | WStepP2, Go => Some (set_wk (set_params s (tu1 s) (S (tu2 s))) WRelease)
  | WRelease, Go => Some (set_wk (set_state_lock s None) WReload)
  | _, _ => None
  end.

(** What a server step asks of the shared state. *)
Inductive effect : Type :=
| Quiet                  (* nothing shared is touched *)
| Locks                  (* the lock is taken *)
| Unlocks                (* the lock is released *)
| Puts                   (* the state dict goes into the mailbox *)
| Clears.                (* the request flag is cleared *)

(** A step of a state server thread, given the component it serves,
    the request flag it watches and the holder of its lock. *)
Definition step_server (debug : bool) (c : component)
           (request : bool) (lock : option owner) (sv : server)
  : option (server * effect) :=
  match sv_pc sv with
  | SAssert =>
      match state_server_assert debug (state_obj_of c) with
      | Ok _ => Some (at_pc sv SCheckStop, Quiet)
      | Raise e => Some (at_pc sv (SCrashed e), Quiet)
      end
  | SCheckStop =>
      if sv_stop sv then Some (at_pc sv SExited, Quiet)
      else Some (at_pc sv SCheckRequest, Quiet)
  | SCheckRequest =>
      if request then Some (at_pc sv SAcquire, Quiet)
      else Some (at_pc sv SSleep, Quiet)
  | SAcquire =>
      match lock with
      | None => Some (at_pc sv SStateDict, Locks)
      | Some _ => None
      end
  | SStateDict => Some (at_pc sv SPut, Quiet)
  | SPut => Some (at_pc sv SRelease, Puts)
  | SRelease => Some (at_pc sv SClear, Unlocks)
  | SClear => Some (at_pc sv SSleep, Clears)
  | SSleep => Some (at_pc sv SCheckStop, Quiet)
  | SExited => None
  | SCrashed _ => None
  end.

(** What an effect of a server of component [c] does to the shared
    state; [sn] is the state dict it puts. *)
Definition apply_effect (c : component) (sn : snap) (eff : effect) (s : state)
  : state :=
  match eff with
  | Puts => put_state s sn
  | Clears => set_req c s false
  | _ => s
  end.

(** A step of [server_thread]: its lock is [_state_lock], its object the
    model, its mailbox [state_queue]. *)
Definition step_tu_server (debug : bool) (s : state) : option state :=
  match step_server debug TrainableUnit (req_tu s) (state_lock s) (tu_server s) with
  | None => None
  | Some (sv, eff) =>
      let s1 := apply_effect TrainableUnit (mkSnap TrainableUnit 0 StateServer)
                             eff s in
      let s2 := match eff with
                | Locks => set_state_lock s1 (Some ByServer)
                | Unlocks => set_state_lock s1 None
                | _ => s1
                end in
      Some (set_servers s2 sv (opt_servers s2))
  end.

Definition with_lock (sv : server) (l : option owner) : server :=
  mkServer (sv_pc sv) (sv_stop sv) l (sv_obj sv).

(** A step of the k-th optimizer server: its lock is the
    [_optim_state_lock] made for it, its object the optimizer it was
    started with, its mailbox [optimizer_queue]. *)
Definition step_opt_server (debug : bool) (k : nat) (s : state) : option state :=
  match nth_error (opt_servers s) k with
  | None => None
  | Some sv0 =>
      match step_server debug OptimizerState (req_opt s) (sv_lock sv0) sv0 with
      | None => None
      | Some (sv, eff) =>
          let sv' := match eff with
                     | Locks => with_lock sv (Some ByServer)
                     | Unlocks => with_lock sv None
                     | _ => sv
                     end in
          let s1 := apply_effect OptimizerState
                                 (mkSnap OptimizerState (sv_obj sv0) StateServer)
                                 eff s in
          Some (set_servers s1 (tu_server s1)
                            (update_nth k (fun _ => sv') (opt_servers s1)))
      end
  end.

(** What the controller does to the shared flags and mailboxes. *)
Definition step_env_request (c : component) (s : state) : state :=
  set_req c s true.

Definition mailbox (c : component) (s : state) : list snap :=
  match c with
  | TrainableUnit => q_tu s
  | OptimizerState => q_opt s
  end.

(** The controller's [get]: it takes the oldest state dict of the
    mailbox; with nothing in the mailbox it gets nothing. *)
Definition step_env_take (c : component) (s : state) : state :=
  match mailbox c s with
  | [] => s
  | sn :: rest =>
      mkState (tu1 s) (tu2 s) (optims s) (state_lock s) (req_tu s) (req_opt s)
              (match c with TrainableUnit => rest | OptimizerState => q_tu s end)
              (match c with TrainableUnit => q_opt s | OptimizerState => rest end)
              (delivered s) (wk s) (tu_server s) (opt_servers s)
              (got s ++ [sn]) (reading s) (loaded s)
  end.

(** The state that a state dict refers to, as it is now. *)
Definition live (sn : snap) (s : state) : nat * nat :=
  match s_comp sn with
  | TrainableUnit => (tu1 s, tu2 s)
  | OptimizerState => nth (s_obj sn) (optims s) (0, 0)%nat
  end.

(** The controller reads a state dict it took, one half after the
    other, under no lock: the locks are thread locks of the worker
    process. *)
Definition step_env_read1 (s : state) : option state :=
  match reading s, got s with
  | None, sn :: rest =>
      Some (mkState (tu1 s) (tu2 s) (optims s) (state_lock s) (req_tu s)
                    (req_opt s) (q_tu s) (q_opt s) (delivered s) (wk s)
                    (tu_server s) (opt_servers s)
                    rest (Some (sn, fst (live sn s))) (loaded s))
  | _, _ => None
  end.

Definition step_env_read2 (s : state) : option state :=
  match reading s with
  | Some (sn, a) =>
      Some (mkState (tu1 s) (tu2 s) (optims s) (state_lock s) (req_tu s)
                    (req_opt s) (q_tu s) (q_opt s) (delivered s) (wk s)
                    (tu_server s) (opt_servers s)
                    (got s) None (loaded s ++ [mkCopy sn a (snd (live sn s))]))
  | None => None
  end.

Definition step (debug : bool) (a : action) (s : state) : option state :=
  match a with
  | Env_request c => Some (step_env_request c s)
  | Env_take c => Some (step_env_take c s)
  | Env_read1 => step_env_read1 s
  | Env_read2 => step_env_read2 s
  | Work ch => step_worker ch s
  | Serve_tu => step_tu_server debug s
  | Serve_opt k => step_opt_server debug k s
  end.

(** A schedule is run from left to right; it is refused as soon as one
    of its actions is not enabled. *)
Fixpoint run (debug : bool) (schedule : list action) (s : state) : option state :=
  match schedule with
  | [] => Some s
  | a :: rest =>
      match step debug a s with
      | Some s' => run debug rest s'
      | None => None
      end
  end.

Definition reachable (debug : bool) (s : state) : Prop :=
  exists schedule, run debug schedule init = Some s.










(** With asserts executed a state server thread never gets past its
    first statement. *)
Definition dead (sv : server) : Prop :=
  sv_pc sv = SAssert \/ sv_pc sv = SCrashed TypeError.

Definition dead_invariant (s : state) : Prop :=
  dead (tu_server s) /\
  Forall dead (opt_servers s) /\
  (forall sn, In sn (delivered s) ->
              s_by sn = FastPath /\ s_comp sn = TrainableUnit) /\
  q_opt s = [].

(** Schedules used below.  With asserts executed: the controller asks
    for the model state and for the optimizer state, and the loop
    answers the first on its own. *)
Definition fast_path_schedule : list action :=
  [Serve_tu; Serve_opt 0; Env_request TrainableUnit; Env_request OptimizerState;
   Work Go; Work Go; Work Go; Work Go].



(** With asserts skipped: the optimizer's state server answers a
    request and clears it. *)
Definition served_optimizer_schedule : list action :=
  [Env_request OptimizerState] ++ repeat (Serve_opt 0) 8.

End Interleaving.

(* ------------------------------------------------------------------ *)
(** ** The worker and its controller together                          *)
(* ------------------------------------------------------------------ *)

Section System.

Variable tensor : Type.
Variable l1_diff : tensor -> tensor -> Q.

(** The worker process between two passes of its loop, with everything
    it has done so far. *)
Record System : Type := mkSystem {
  sys_globals : Globals tensor;
  sys_shared : Shared tensor;
  sys_worker : Worker tensor;
  sys_status : outcome;              (* [Continue] while the loop runs *)
  sys_trace : list (event (Sample tensor))
}.

(** What happens next: a call of the controller or one pass of the
    worker's loop. *)
Inductive command : Type :=
| DoPush (samples : list (Sample tensor))
| DoPushHparams (h : HParams)
| DoPause
| DoResume
| DoRequestState
| DoTakeState
| DoAbort
| Iterate.

Definition on_shared (f : Shared tensor -> Shared tensor) (s : System) : System :=
  mkSystem (sys_globals s) (f (sys_shared s)) (sys_worker s) (sys_status s)
           (sys_trace s).

Definition sys_step (use_cache_keeping : bool) (c : command) (s : System) : System :=
  match c with
  | DoPush samples => on_shared (fun sh => push sh samples) s
  | DoPushHparams h => on_shared (fun sh => push_hparams sh h) s
  | DoPause => on_shared (fun sh => set_pause sh true) s
  | DoResume => on_shared (fun sh => set_pause sh false) s
  | DoRequestState => on_shared (set_request TrainableUnit) s
  | DoTakeState =>
      on_shared (fun sh => snd (fst (_drain_state_queue TrainableUnit sh))) s
  | DoAbort => on_shared (@set_abort tensor) s
  | Iterate =>
      match sys_status s with
      | Continue =>
          let r := train_iteration l1_diff use_cache_keeping (sys_globals s)
                                   (sys_shared s) (sys_worker s) in
          mkSystem (r_globals r) (r_shared r) (r_worker r) (r_outcome r)
                   (sys_trace s ++ r_events r)
      | _ => s
      end
  end.

Definition sys_run (use_cache_keeping : bool) (cmds : list command) (s : System)
  : System :=
  fold_left (fun s c => sys_step use_cache_keeping c s) cmds s.

(** The system when the worker enters its loop: [ignition] has made
    the mailboxes, the worker has taken the hyperparameters [h] and
    built its cache; the module namespace is that of trainy.py. *)
Definition boot (h : HParams) : result System :=
  w <- start_worker tensor 0 h ;;
  Ok (mkSystem (module_globals tensor) (ignited_shared tensor) w Continue []).

End System.

Arguments DoPush {tensor} samples.
Arguments DoPushHparams {tensor} h.
Arguments DoPause {tensor}.
Arguments DoResume {tensor}.
Arguments DoRequestState {tensor}.
Arguments DoTakeState {tensor}.
Arguments DoAbort {tensor}.
Arguments Iterate {tensor}.

(* ------------------------------------------------------------------ *)
(** ** Cyclic borrowing, as the specification words it                 *)
(* ------------------------------------------------------------------ *)

(** The oldest entry goes to the back. *)
Definition rotate1 {A : Type} (l : list A) : list A :=
  match l with
  | [] => []
  | x :: rest => rest ++ [x]
  end.

Fixpoint rotate {A : Type} (n : nat) (l : list A) : list A :=
  match n with
  | O => l
  | S n' => rotate n' (rotate1 l)
  end.

(** The first [n] entries of the cache read round and round. *)
Fixpoint borrow {A : Type} (n : nat) (l : list A) : list A :=
  match n with
  | O => []
  | S n' =>
      match l with
      | [] => []
      | x :: _ => x :: borrow n' (rotate1 l)
      end
  end.

(* ------------------------------------------------------------------ *)
(** ** Concrete inputs used below                                      *)
(* ------------------------------------------------------------------ *)

(** Tensors with one entry, and their distance. *)
Definition dist1 (a b : Z) : Q := inject_Z (Z.abs (a - b)).

Definition sample_n (n : Z) : Sample Z := (n, n).

Definition hparams_with (batch cache : Z) : HParams :=
  mkHParams (optimizer_kwargs default_hparams) (optimizer_name default_hparams)
            (criterion_kwargs default_hparams) (criterion_name default_hparams)
            batch cache (augmentor_kwargs default_hparams).

(** A worker right after start-up with the given cache capacity. *)
Definition fresh_worker (tensor : Type) (h : HParams) : Worker tensor :=
  mkWorker h (build_criterion h) (build_optimizer h) 0
           (mkDeque [] (cache_size h)) 0 false false 1.

Definition fresh_system (tensor : Type) (h : HParams) : System tensor :=
  mkSystem (module_globals tensor) (ignited_shared tensor)
           (fresh_worker tensor h) Continue [].

Definition always_alive (trial : nat) : bool := true.
Definition dead_after_first (trial : nat) : bool := Nat.eqb trial 0.

(** A deque as Python keeps it: never longer than its [maxlen]. *)
Definition bounded {A : Type} (d : deque A) : Prop :=
  len (items d) <= maxlen d.

(** The batches that a trace hands to the update step, each with the
    [batch_size] in force. *)
Definition forwarded {sample : Type} (trace : list (event sample))
           (B : Z) (batch : list sample) : Prop :=
  In (UpdatingWith B batch) trace.

(** What every run keeps: the module namespace, the capacity [M] of the
    cache and its bound, and (for a capacity of one or more) the size
    of the batches handed to the update step. *)
Definition run_invariant (tensor : Type) (M : Z) (s : System tensor) : Prop :=
  sys_globals s = module_globals tensor /\
  bounded (data_cache (sys_worker s)) /\
  maxlen (data_cache (sys_worker s)) = M /\
  (1 <= M -> forall B batch,
      forwarded (sys_trace s) B batch -> len batch = Z.max 0 B).

(** The events that only the reload of lines 228-246 emits. *)
Definition reload_event {sample : Type} (e : event sample) : bool :=
  match e with
  | ClearChangeHparams | FetchedHparams _ | HparamsQueueEmpty
  | BuiltCriterion _ | BuiltOptimizer _ | StartStateServer _ => true
  | _ => false
  end.

(** What the rest of a pass may emit: no reload event, and batches only
    under the given [batch_size]. *)
Definition after_reload {sample : Type} (B : Z) (e : event sample) : Prop :=
  reload_event e = false /\
  forall B' batch, e = UpdatingWith B' batch -> B' = B.

(* ------------------------------------------------------------------ *)
(** ** More of the worker: start-up, and what a trace tells            *)
(* ------------------------------------------------------------------ *)

Section MoreWorker.

Variable tensor : Type.
Variable l1_diff : tensor -> tensor -> Q.

(** Lines 174-188 as the worker meets them: the blocking
    [hparams_queue.get()] takes the oldest record; on an empty mailbox
    it waits, which is [None] here. *)
Definition worker_startup (model_state : nat) (sh : Shared tensor)
  : option (result (Worker tensor) * Shared tensor) :=
  match get_nowait (hparams_queue sh) with
  | Ok (h, rest) =>
      Some (start_worker tensor model_state h,
            mkShared (data_queue sh) (state_queue sh) (optimizer_queue sh)
                     rest (abort sh) (pause sh) (change_hparams sh)
                     (state_request sh) (optimizer_state_request sh))
  | Raise _ => None
  end.

(** The samples that a list of commands pushes. *)
Definition pushed_by (cmds : list (command tensor)) : list (Sample tensor) :=
  flat_map (fun c => match c with DoPush samples => samples | _ => [] end) cmds.

(** How often [optim.step()] ran in a trace. *)
Definition optim_steps_in (trace : list (event (Sample tensor))) : nat :=
  List.length (filter (fun e => match e with OptimStep => true | _ => false end)
                      trace).

(** The comparisons of [_cache_keeping], entry by entry: the data match
    unless their distance is above the tolerance; the labels match when
    their distance is below it. *)
Definition same_data (sample entry : Sample tensor) : bool :=
  negb (Qgt_bool (l1_diff (fst sample) (fst entry)) tolerance).

Definition same_labels (sample entry : Sample tensor) : bool :=
  Qlt_bool (l1_diff (snd sample) (snd entry)) tolerance.

(** The entry already represents the sample. *)
Definition represents (sample entry : Sample tensor) : bool :=
  same_data sample entry && same_labels sample entry.

(** The entry is dirty: same data, other labels. *)
Definition dirty (sample entry : Sample tensor) : bool :=
  same_data sample entry && negb (same_labels sample entry).

(** What the cache-keeping policy asks for, said with a filter: the
    dirty entries go (the cache is then rebuilt with the current
    [cache_size]), the sample is appended, and the batch is to take the
    sample unless an entry represents it. *)
Definition keep_cache (hparams : HParams) (cache : deque (Sample tensor))
           (sample : Sample tensor) : result (bool * deque (Sample tensor)) :=
  cleaned <-
    (if existsb (dirty sample) (items cache)
     then new_deque (filter (fun e => negb (dirty sample e)) (items cache))
                    (cache_size hparams)
     else Ok cache) ;;
  Ok (negb (existsb (represents sample) (items cache)), append cleaned sample).

(** The indices, counted from [idx], of the dirty entries. *)
Fixpoint dirty_from (sample : Sample tensor) (cache : list (Sample tensor))
         (idx : nat) : list nat :=
  match cache with
  | [] => []
  | entry :: rest =>
      if dirty sample entry then idx :: dirty_from sample rest (S idx)
      else dirty_from sample rest (S idx)
  end.

End MoreWorker.

Section MoreSystem.

Variable tensor : Type.

(** The state of the system without the trace. *)
Definition same_state (a b : System tensor) : Prop :=
  sys_worker a = sys_worker b /\ sys_shared a = sys_shared b /\
  sys_globals a = sys_globals b /\ sys_status a = sys_status b.

End MoreSystem.

(** The seconds that a controller method spends in [time.sleep]. *)
Fixpoint slept (ev : list cevent) : Z :=
  match ev with
  | [] => 0
  | TimeSleep seconds :: rest => seconds + slept rest
  | _ :: rest => slept rest
  end.

(** The number of leading trials, among the first [n] from [k] on, in
    which the process is found alive. *)
Fixpoint alive_streak (alive : nat -> bool) (k n : nat) : nat :=
  match n with
  | O => O
  | S n' => if alive k then S (alive_streak alive (S k) n') else O
  end.

(** What the waiting loop of [_kill_state_server] does: liveness
    checks, sleeps and attempt counts. *)
Definition polling (e : cevent) : Prop :=
  match e with
  | IsAlive _ | TimeSleep _ | Log Info (AttemptOf _ _) => True
  | _ => False
  end.

(** How many residual state dicts a drain reports. *)
Definition residual_logs (ev : list cevent) : nat :=
  List.length (filter (fun e => match e with
                                | Log Info FoundResidualState => true
                                | _ => false
                                end) ev).

(* ------------------------------------------------------------------ *)
(** ** The public methods of [Trainer]                                 *)
(* ------------------------------------------------------------------ *)

Module TrainerMethods.

(** What the methods below log. *)
Inductive note : Type :=
| Ignition               (* "Ignition..." *)
| FeedingSamples (n : Z) (* "Feeding {len(data)} samples to queue..." *)
| FedSamples (n : Z)     (* "Fed {len(data)} samples to queue..." *)
| SettingNewDefaults     (* "Setting new default hyperparameters" *)
| FeedingHparams         (* "Feeding parameters to hyperparameter queue" *)
| PausingTraining        (* "Pausing training..." *)
| NothingToPause         (* "Not ignited, nothing to pause." *)
| ResumingTraining       (* "Resuming training..." *)
| NothingToResume.       (* "Not ignited, nothing to resume." *)

Section Methods.

Variable tensor : Type.

(** A [Trainer] object with the mailboxes and flags it owns: they are
    [None] until [ignition] makes them.  [h_started] counts the worker
    processes started so far. *)
Record Handle : Type := mkHandle {
  h_trainer : Trainer;
  h_shared : option (Shared tensor);
  h_started : nat
}.

Definition new_handle (hparams : HParams) (model_state : nat) : Handle :=
  mkHandle (mkTrainer model_state false false hparams) None 0.

(** [Trainer.ignition]: new mailboxes and flags, the hyperparameters
    put into their mailbox, a new worker process started. *)
Definition ignition (c : Handle) : Handle :=
  let t := h_trainer c in
  mkHandle (mkTrainer (handler_model t) true true (trainer_hparams t))
           (Some (mkShared (new_queue (Sample tensor)) (new_queue Snapshot)
                           (new_queue Snapshot)
                           (put (new_queue HParams) (trainer_hparams t))
                           false false false false false))
           (S (h_started c)).

(** [Trainer.ensure_ignited] *)
Definition ensure_ignited (c : Handle) : Handle * list (level * note) :=
  if ignited (h_trainer c) then (c, [])
  else (ignition c, [(Info, Ignition)]).

(** [Trainer.push]: after [ensure_ignited] the pairs of
    [zip(data, labels)] are put one by one; the log messages count
    [len(data)]. *)
Definition push (c : Handle) (data labels : list tensor)
  : Handle * list (level * note) :=
  let '(c1, ev) := ensure_ignited c in
  (mkHandle (h_trainer c1)
            (option_map (fun sh => push sh (combine data labels)) (h_shared c1))
            (h_started c1),
   ev ++ [(Info, FeedingSamples (len data)); (Info, FedSamples (len data))]).

(** [Trainer.push_hparams] *)
Definition push_hparams (c : Handle) (h : HParams)
  : Handle * list (level * note) :=
  let t := h_trainer c in
  let t' := mkTrainer (handler_model t) (ignited t) (has_process t) h in
  if ignited t then
    (mkHandle t' (option_map (fun sh => push_hparams sh h) (h_shared c))
              (h_started c),
     [(Info, FeedingHparams)])
  else (mkHandle t' (h_shared c) (h_started c), [(Info, SettingNewDefaults)]).

(** [Trainer.pause] *)
Definition pause (c : Handle) : Handle * list (level * note) :=
  if ignited (h_trainer c) then
    (mkHandle (h_trainer c)
              (option_map (fun sh => set_pause sh true) (h_shared c))
              (h_started c),
     [(Info, PausingTraining)])
  else (c, [(Warning, NothingToPause)]).

(** [Trainer.resume] *)
Definition resume (c : Handle) : Handle * list (level * note) :=
  if ignited (h_trainer c) then
    (mkHandle (h_trainer c)
              (option_map (fun sh => set_pause sh false) (h_shared c))
              (h_started c),
     [(Info, ResumingTraining)])
  else (c, [(Warning, NothingToResume)]).

(** [Trainer.is_alive]; [process_alive] is what
    [self._training_process.is_alive()] would answer. *)
Definition is_alive (c : Handle) (process_alive : bool) : bool :=
  if has_process (h_trainer c) then process_alive else false.

(** The mailboxes exist whenever [_ignited] is set. *)
Definition well_formed (c : Handle) : Prop :=
  ignited (h_trainer c) = true -> h_shared c <> None.

End Methods.

End TrainerMethods.

(* ------------------------------------------------------------------ *)
(** ** The optimizer servers and their optimizers                      *)
(* ------------------------------------------------------------------ *)

Module Pairing.

Import Interleaving.

(** The optimizer servers and the optimizers they were started for. *)
Definition paired (s : state) : Prop :=
  List.length (opt_servers s) = List.length (optims s) /\
  forall k sv, nth_error (opt_servers s) k = Some sv ->
               sv_obj sv = k /\
               (S k < List.length (opt_servers s) -> sv_stop sv = true)%nat.

(** Each server serves the optimizer of its own index, and all but the
    last have been told to stop. *)
Definition paired_servers (svs : list server) : Prop :=
  forall k sv, nth_error svs k = Some sv ->
               sv_obj sv = k /\ (S k < List.length svs -> sv_stop sv = true)%nat.

End Pairing.

(* ================================================================== *)
(** * Properties                                                       *)
(* ================================================================== *)

(** ** Lists and deques *)

Lemma len_nil (A : Type) : len (@nil A) = 0.
Proof. reflexivity. Qed.

Lemma len_cons (A : Type) (x : A) (l : list A) : len (x :: l) = len l + 1.
Proof. unfold len. simpl List.length. lia. Qed.

Lemma len_app (A : Type) (l1 l2 : list A) : len (l1 ++ l2) = len l1 + len l2.
Proof. unfold len. rewrite length_app. lia. Qed.

Lemma len_nonneg (A : Type) (l : list A) : 0 <= len l.
Proof. unfold len. lia. Qed.

Lemma len_zero_nil (A : Type) (l : list A) : len l = 0 -> l = [].
Proof. destruct l; [reflexivity | rewrite len_cons; pose proof (len_nonneg l); lia]. Qed.

Lemma append_maxlen (A : Type) (d : deque A) (x : A) :
  maxlen (append d x) = maxlen d.
Proof. reflexivity. Qed.

Lemma append_room (A : Type) (d : deque A) (x : A) :
  len (items d) < maxlen d -> items (append d x) = items d ++ [x].
Proof.
  intros H. unfold append. simpl.
  rewrite len_app, len_cons, len_nil.
  destruct (Z.ltb_spec (maxlen d) (len (items d) + (0 + 1))); [lia | reflexivity].
Qed.

Lemma append_full (A : Type) (d : deque A) (x oldest : A) (rest : list A) :
  items d = oldest :: rest -> len (items d) = maxlen d ->
  items (append d x) = rest ++ [x].
Proof.
  intros Hi Hl. unfold append. simpl.
  rewrite len_app, len_cons, len_nil.
  destruct (Z.ltb_spec (maxlen d) (len (items d) + (0 + 1))); [| lia].
  rewrite Hi. reflexivity.
Qed.

Lemma append_bounded (A : Type) (d : deque A) (x : A) :
  bounded d -> bounded (append d x).
Proof.
  unfold bounded, append. simpl. intros H.
  rewrite len_app, len_cons, len_nil.
  destruct (Z.ltb_spec (maxlen d) (len (items d) + (0 + 1))) as [Hlt | Hge].
  - destruct (items d) as [| y l] eqn:E; simpl.
    + rewrite len_nil in *. lia.
    + rewrite len_app, len_cons, len_nil. rewrite len_cons in H. lia.
  - rewrite len_app, len_cons, len_nil. lia.
Qed.

Lemma append_nonempty (A : Type) (d : deque A) (x : A) :
  1 <= maxlen d -> bounded d -> items (append d x) <> [].
Proof.
  unfold bounded. intros Hm Hb.
  destruct (Z.eq_dec (len (items d)) (maxlen d)) as [E | E].
  - destruct (items d) as [| y l] eqn:Hi.
    + rewrite len_nil in E. lia.
    + rewrite (append_full d x Hi) by (rewrite Hi; exact E).
      destruct l; discriminate.
  - rewrite append_room by lia. destruct (items d); discriminate.
Qed.

Lemma fold_append_bounded (A : Type) (xs : list A) (d : deque A) :
  bounded d -> bounded (fold_left append xs d) /\
               maxlen (fold_left append xs d) = maxlen d.
Proof.
  revert d. induction xs as [| x xs IH]; intros d H; simpl.
  - split; [exact H | reflexivity].
  - destruct (IH (append d x) (append_bounded x H)) as [H1 H2].
    split; [exact H1 | rewrite H2; reflexivity].
Qed.

Lemma new_deque_bounded (A : Type) (xs : list A) (n : Z) (d : deque A) :
  new_deque xs n = Ok d -> bounded d /\ maxlen d = n.
Proof.
  unfold new_deque. destruct (Z.ltb_spec n 0); [discriminate |].
  intros E. injection E as <-.
  apply (@fold_append_bounded A xs (mkDeque [] n)).
  unfold bounded. simpl. rewrite len_nil. lia.
Qed.

(** ** The fill loop *)

Section FillFacts.

Variable tensor : Type.
Variable l1_diff : tensor -> tensor -> Q.

(** When the loop stops on an empty queue the batch is short; when it
    stops by its condition the batch has [max 0 B] entries. *)
Lemma fill_batch_length (hp : HParams) (ck : bool) (queue : list (Sample tensor)) :
  forall batch cache g,
    len batch <= Z.max 0 (batch_size hp) ->
    let f := fill_batch l1_diff hp ck queue batch cache g in
    match f_exit f with
    | BatchFull => len (f_batch f) = Z.max 0 (batch_size hp)
    | QueueExhausted => len (f_batch f) < batch_size hp
    | FillRaised _ => True
    end.
Proof.
  induction queue as [| [data labels] queue IH]; intros batch cache g Hb;
    pose proof (len_nonneg batch); cbv zeta; cbn [fill_batch].
  - destruct (Z.ltb_spec (len batch) (batch_size hp)); cbn [f_exit f_batch]; lia.
  - destruct (Z.ltb_spec (len batch) (batch_size hp)) as [Hlt | Hge];
      cbn [f_exit f_batch]; [| lia].
    assert (Hb' : len (batch ++ [(data, labels)]) <= Z.max 0 (batch_size hp))
      by (rewrite len_app, len_cons, len_nil; lia).
    destruct ck.
    + destruct (_cache_keeping l1_diff hp g (data, labels)) as [[[|] g'] | e];
        cbn [f_exit f_batch].
      * apply IH; exact Hb'.
      * apply IH; exact Hb.
      * exact I.
    + apply IH; exact Hb'.
Qed.

(** Without cache keeping every sample that enters the batch enters the
    cache, whose capacity and bound are kept. *)
Lemma fill_batch_plain_cache (hp : HParams) (queue : list (Sample tensor)) :
  forall batch cache g,
    bounded cache ->
    let f := fill_batch l1_diff hp false queue batch cache g in
    bounded (f_cache f) /\ maxlen (f_cache f) = maxlen cache /\
    f_globals f = g /\ f_exit f <> FillRaised (NameError "data_cache") /\
    (1 <= maxlen cache -> (batch <> [] -> items cache <> []) ->
     f_batch f <> [] -> items (f_cache f) <> []).
Proof.
  induction queue as [| [data labels] queue IH]; intros batch cache g Hb; simpl.
  - destruct (len batch <? batch_size hp); simpl; repeat split; auto; discriminate.
  - destruct (len batch <? batch_size hp); simpl;
      [| repeat split; auto; discriminate].
    destruct (IH (batch ++ [(data, labels)]) (append cache (data, labels)) g
                 (append_bounded (data, labels) Hb)) as (H1 & H2 & H3 & H4 & H5).
    repeat split; auto.
    intros Hm _ Hne. apply H5; auto.
    intros _. apply append_nonempty; assumption.
Qed.

(** With cache keeping and the module namespace of trainy.py the loop
    cannot take a sample: it touches neither batch nor cache. *)
Lemma fill_batch_keeping_unbound (hp : HParams) (queue : list (Sample tensor))
      (batch : list (Sample tensor)) (cache : deque (Sample tensor)) :
  let f := fill_batch l1_diff hp true queue batch cache (module_globals tensor) in
  f_batch f = batch /\ f_cache f = cache /\
  f_globals f = module_globals tensor /\
  (f_exit f = BatchFull \/ f_exit f = QueueExhausted \/
   f_exit f = FillRaised (NameError "data_cache")).
Proof.
  destruct queue as [| [data labels] queue]; simpl;
    destruct (len batch <? batch_size hp); simpl; auto 10.
Qed.

End FillFacts.

(** ** Topping up *)

Lemma rotate_nil (A : Type) (n : nat) : rotate n (@nil A) = [].
Proof. induction n; simpl; auto. Qed.

Lemma borrow_nil (A : Type) (n : nat) : borrow n (@nil A) = [].
Proof. destruct n; reflexivity. Qed.

Lemma rotate1_perm (A : Type) (l : list A) : Permutation (rotate1 l) l.
Proof.
  destruct l as [| x rest]; simpl; [constructor |].
  apply Permutation_sym, Permutation_cons_append.
Qed.

Lemma rotate_perm (A : Type) (n : nat) (l : list A) : Permutation (rotate n l) l.
Proof.
  revert l. induction n as [| n IH]; intros l; simpl.
  - apply Permutation_refl.
  - eapply Permutation_trans; [apply IH | apply rotate1_perm].
Qed.

Lemma rotate_len (A : Type) (n : nat) (l : list A) : len (rotate n l) = len l.
Proof. unfold len. rewrite (Permutation_length (rotate_perm n l)). reflexivity. Qed.

Lemma rotate1_nonempty (A : Type) (l : list A) : l <> [] -> rotate1 l <> [].
Proof. destruct l as [| x [| y r]]; simpl; intros H; congruence. Qed.

Lemma borrow_length (A : Type) (n : nat) (l : list A) :
  l <> [] -> List.length (borrow n l) = n.
Proof.
  revert l. induction n as [| n IH]; intros l Hl; simpl; [reflexivity |].
  destruct l as [| x rest]; [congruence |]. simpl.
  rewrite IH; [reflexivity |].
  apply (@rotate1_nonempty A (x :: rest)). discriminate.
Qed.

Section TopUpFacts.

Variable tensor : Type.

Lemma top_up_loop_spec (n : nat) (B : Z) :
  forall (cache : deque (Sample tensor)) (batch : list (Sample tensor)),
    bounded cache -> len batch + Z.of_nat n = B ->
    top_up_loop n B cache batch
    = (mkDeque (rotate n (items cache)) (maxlen cache),
       batch ++ borrow n (items cache)).
Proof.
  induction n as [| n IH]; intros cache batch Hb Hn.
  - destruct cache. simpl. rewrite app_nil_r. reflexivity.
  - cbn [top_up_loop]. destruct cache as [its m]. cbn [items maxlen] in *.
    destruct its as [| x rest].
    + simpl. rewrite rotate_nil, app_nil_r. reflexivity.
    + destruct (Z.ltb_spec (len batch) B) as [_ | Hge]; [| lia].
      unfold bounded in Hb. cbn [items maxlen] in Hb. rewrite len_cons in Hb.
      assert (Hstep : append (mkDeque rest m) x = mkDeque (rest ++ [x]) m).
      { unfold append. cbn [items maxlen].
        rewrite len_app, len_cons, len_nil.
        destruct (Z.ltb_spec m (len rest + (0 + 1))); [lia | reflexivity]. }
      rewrite Hstep. rewrite IH.
      * cbn [items maxlen rotate borrow rotate1]. rewrite <- app_assoc. reflexivity.
      * unfold bounded. cbn [items maxlen].
        rewrite len_app, len_cons, len_nil. lia.
      * rewrite len_app, len_cons, len_nil. lia.
Qed.

Lemma top_up_spec (B : Z) (cache : deque (Sample tensor))
      (batch : list (Sample tensor)) :
  bounded cache ->
  top_up B cache batch
  = (mkDeque (rotate (Z.to_nat (B - len batch)) (items cache)) (maxlen cache),
     batch ++ borrow (Z.to_nat (B - len batch)) (items cache)).
Proof.
  intros Hb. unfold top_up.
  destruct (Z.le_gt_cases (len batch) B) as [Hle | Hgt].
  - apply top_up_loop_spec; [exact Hb | lia].
  - replace (Z.to_nat (B - len batch)) with O by lia.
    destruct cache. simpl. rewrite app_nil_r. reflexivity.
Qed.

Lemma top_up_bounded (B : Z) (cache : deque (Sample tensor))
      (batch : list (Sample tensor)) :
  bounded cache ->
  bounded (fst (top_up B cache batch)) /\
  maxlen (fst (top_up B cache batch)) = maxlen cache.
Proof.
  intros Hb. rewrite (top_up_spec B batch Hb). cbn [fst maxlen].
  split; [| reflexivity].
  unfold bounded in *. cbn [items maxlen]. rewrite rotate_len. exact Hb.
Qed.

Lemma top_up_fills (B : Z) (cache : deque (Sample tensor))
      (batch : list (Sample tensor)) :
  bounded cache -> items cache <> [] -> len batch < B ->
  len (snd (top_up B cache batch)) = B.
Proof.
  intros Hb Hne Hlt. rewrite (top_up_spec B batch Hb). cbn [snd].
  rewrite len_app. unfold len at 2. rewrite borrow_length by exact Hne. lia.
Qed.

End TopUpFacts.

(** ** One pass of the loop *)

Section IterationFacts.

Variable tensor : Type.
Variable l1_diff : tensor -> tensor -> Q.

Lemma reload_hparams_keeps (sh : Shared tensor) (w : Worker tensor) :
  let '(sh1, w1, ev1) := reload_hparams sh w in
  data_cache w1 = data_cache w /\
  (forall B batch, ~ In (UpdatingWith B batch) ev1).
Proof.
  unfold reload_hparams. destruct (change_hparams sh).
  - unfold get_nowait. cbn [hparams_queue].
    destruct (q_items (hparams_queue sh)) as [| h rest]; cbn [data_cache];
      (split; [reflexivity |]); intros B batch Hin; simpl in Hin;
      intuition discriminate.
  - split; [reflexivity | intros B batch []].
Qed.

Lemma serve_state_request_keeps (sh : Shared tensor) (w : Worker tensor) :
  forall B batch, ~ In (UpdatingWith B batch) (snd (serve_state_request sh w)).
Proof.
  intros B batch. unfold serve_state_request.
  destruct (state_request sh); [| intros []].
  destruct (put_nowait _ _); simpl; intuition discriminate.
Qed.

Lemma fill_batch_cache (hp : HParams) (ck : bool) (queue : list (Sample tensor)) :
  forall batch cache g,
    bounded cache ->
    let f := fill_batch l1_diff hp ck queue batch cache g in
    bounded (f_cache f) /\ maxlen (f_cache f) = maxlen cache.
Proof.
  induction queue as [| [data labels] queue IH]; intros batch cache g Hb;
    cbv zeta; cbn [fill_batch].
  - destruct (len batch <? batch_size hp); cbn [f_cache]; auto.
  - destruct (len batch <? batch_size hp); cbn [f_cache]; auto.
    destruct ck.
    + destruct (_cache_keeping l1_diff hp g (data, labels)) as [[[|] g'] | e];
        cbn [f_cache]; auto; apply IH; exact Hb.
    + destruct (IH (batch ++ [(data, labels)]) (append cache (data, labels)) g
                   (append_bounded (data, labels) Hb)) as [H1 H2].
      split; [exact H1 | rewrite H2; reflexivity].
Qed.

Lemma update_step_keeps (w : Worker tensor) (batch : list (Sample tensor)) :
  data_cache (fst (fst (update_step w batch))) = data_cache w /\
  (forall B b, In (UpdatingWith B b) (snd (fst (update_step w batch))) ->
               B = batch_size (hparams w) /\ b = batch).
Proof.
  unfold update_step. destruct batch as [| x rest]; cbn [fst snd kill_both data_cache].
  - split; [reflexivity |]. intros B b Hin. simpl in Hin.
    destruct Hin as [E | [E | [E | []]]]; try discriminate.
    injection E as <- <-. auto.
  - split; [reflexivity |]. intros B b Hin. simpl in Hin.
    destruct Hin as [E | Hin]; [injection E as <- <-; auto |].
    repeat (destruct Hin as [E | Hin]; [discriminate |]). destruct Hin.
Qed.

(** The cache keeps its capacity and its bound through a pass. *)
Lemma train_iteration_cache (ck : bool) (g : Globals tensor)
      (sh : Shared tensor) (w : Worker tensor) :
  bounded (data_cache w) ->
  let r := train_iteration l1_diff ck g sh w in
  bounded (data_cache (r_worker r)) /\
  maxlen (data_cache (r_worker r)) = maxlen (data_cache w).
Proof.
  intros Hb. cbv zeta. unfold train_iteration.
  pose proof (reload_hparams_keeps sh w) as Hr.
  destruct (reload_hparams sh w) as [[sh1 w1] ev1]. destruct Hr as [Hc _].
  destruct (serve_state_request sh1 w1) as [sh2 ev2].
  destruct (abort sh2); [cbn; rewrite Hc; auto |].
  destruct (pause sh2); [cbn; rewrite Hc; auto |].
  assert (Hb1 : bounded (data_cache w1)) by (rewrite Hc; exact Hb).
  pose proof (fill_batch_cache (hparams w1) ck (q_items (data_queue sh2)) []
                               g Hb1) as Hf.
  cbv zeta in Hf.
  set (f := fill_batch l1_diff (hparams w1) ck (q_items (data_queue sh2)) []
                       (data_cache w1) g) in *.
  destruct Hf as [Hf1 Hf2]. rewrite Hc in Hf2.
  assert (Hproceed : forall c batch,
             bounded c -> maxlen c = maxlen (data_cache w) ->
             let '(w3, evs, out) := update_step (with_cache w1 c) batch in
             bounded (data_cache w3) /\ maxlen (data_cache w3) = maxlen (data_cache w)).
  { intros c batch H1 H2.
    pose proof (update_step_keeps (with_cache w1 c) batch) as [Hk _].
    destruct (update_step (with_cache w1 c) batch) as [[w3 evs] out].
    cbn [fst] in Hk. rewrite Hk. cbn. auto. }
  destruct (f_exit f).
  - specialize (Hproceed (f_cache f) (f_batch f) Hf1 Hf2).
    destruct (update_step _ _) as [[w3 evs] out]. exact Hproceed.
  - destruct (on_exhausted _ _ _).
    + cbn. auto.
    + specialize (Hproceed (f_cache f) (f_batch f) Hf1 Hf2).
      destruct (update_step _ _) as [[w3 evs] out]. exact Hproceed.
    + pose proof (top_up_bounded (batch_size (hparams w1)) (f_batch f) Hf1) as [Ht1 Ht2].
      destruct (top_up _ _ _) as [cache' batch']. cbn [fst] in *.
      assert (Ht3 : maxlen cache' = maxlen (data_cache w)) by congruence.
      specialize (Hproceed cache' batch' Ht1 Ht3).
      unfold with_cache in *. cbn in *.
      destruct (update_step _ _) as [[w3 evs] out]. exact Hproceed.
    + cbn. auto.
  - cbn. auto.
Qed.

End IterationFacts.

Section ForwardFacts.

Variable tensor : Type.
Variable l1_diff : tensor -> tensor -> Q.

(** After [queue.Empty] only two arms of the handler can run. *)
Lemma on_exhausted_short (B : Z) (batch : list (Sample tensor))
      (cache : deque (Sample tensor)) :
  len batch < B ->
  on_exhausted B batch cache
  = if (len batch =? 0) && (len (items cache) =? 0) then TryAgain else TopUp.
Proof.
  intros H. unfold on_exhausted.
  destruct ((len batch =? 0) && (len (items cache) =? 0)); [reflexivity |].
  destruct (Z.eqb_spec (len batch) B); [lia |].
  destruct (Z.ltb_spec (len batch) B); [reflexivity | lia].
Qed.

Lemma fill_batch_from_empty (hp : HParams) (ck : bool)
      (queue : list (Sample tensor)) (cache : deque (Sample tensor)) :
  bounded cache -> 1 <= maxlen cache ->
  let f := fill_batch l1_diff hp ck queue [] cache (module_globals tensor) in
  f_globals f = module_globals tensor /\
  bounded (f_cache f) /\
  (f_batch f <> [] -> items (f_cache f) <> []).
Proof.
  intros Hb Hm. cbv zeta. destruct ck.
  - destruct (fill_batch_keeping_unbound l1_diff hp queue [] cache)
      as (H1 & H2 & H3 & _).
    rewrite H1, H2, H3. repeat split; auto; congruence.
  - destruct (fill_batch_plain_cache l1_diff hp queue [] (module_globals tensor) Hb)
      as (H1 & H2 & H3 & _ & H5).
    repeat split; auto.
Qed.

(** With a cache of capacity one or more, and the module namespace of
    trainy.py, every batch that a pass hands to the update step has
    [max 0 batch_size] entries. *)
Lemma train_iteration_forwards (ck : bool) (sh : Shared tensor) (w : Worker tensor) :
  bounded (data_cache w) -> 1 <= maxlen (data_cache w) ->
  let r := train_iteration l1_diff ck (module_globals tensor) sh w in
  r_globals r = module_globals tensor /\
  (forall B batch, forwarded (r_events r) B batch -> len batch = Z.max 0 B).
Proof.
  intros Hb Hm. cbv zeta. unfold train_iteration, forwarded.
  pose proof (reload_hparams_keeps sh w) as Hr.
  destruct (reload_hparams sh w) as [[sh1 w1] ev1]. destruct Hr as [Hc Hev1].
  pose proof (serve_state_request_keeps sh1 w1) as Hev2.
  destruct (serve_state_request sh1 w1) as [sh2 ev2]. cbn [snd] in Hev2.
  assert (Hev : forall B batch, ~ In (UpdatingWith B batch) (ev1 ++ ev2)).
  { intros B batch Hin. apply in_app_or in Hin.
    destruct Hin; [eapply Hev1 | eapply Hev2]; eassumption. }
  assert (Hplus : forall evs B batch,
             In (UpdatingWith B batch) ((ev1 ++ ev2) ++ evs) ->
             In (UpdatingWith B batch) evs).
  { intros evs B batch Hin. apply in_app_or in Hin.
    destruct Hin as [Hin | Hin]; [exfalso; eapply Hev; eassumption | exact Hin]. }
  destruct (abort sh2).
  { cbn. split; [reflexivity |]. intros B batch Hin. apply Hplus in Hin.
    simpl in Hin. intuition discriminate. }
  destruct (pause sh2).
  { cbn. split; [reflexivity |]. intros B batch Hin. apply Hplus in Hin.
    simpl in Hin. intuition discriminate. }
  assert (Hb1 : bounded (data_cache w1)) by (rewrite Hc; exact Hb).
  assert (Hm1 : 1 <= maxlen (data_cache w1)) by (rewrite Hc; exact Hm).
  pose proof (fill_batch_from_empty (hparams w1) ck (q_items (data_queue sh2))
                                    Hb1 Hm1) as Hf.
  pose proof (@fill_batch_length tensor l1_diff (hparams w1) ck
                (q_items (data_queue sh2)) [] (data_cache w1)
                (module_globals tensor)) as Hl.
  cbv zeta in Hf, Hl.
  set (f := fill_batch l1_diff (hparams w1) ck (q_items (data_queue sh2)) []
                       (data_cache w1) (module_globals tensor)) in *.
  destruct Hf as (Hg & Hfb & Hne).
  assert (Hl' := Hl ltac:(rewrite len_nil; lia)). clear Hl.
  assert (Hproceed : forall c batch,
             len batch = Z.max 0 (batch_size (hparams w1)) ->
             forall B b,
               In (UpdatingWith B b)
                  (snd (fst (update_step (with_cache w1 c) batch))) ->
               len b = Z.max 0 B).
  { intros c batch Hlen B b Hin.
    pose proof (update_step_keeps (with_cache w1 c) batch) as [_ Hk].
    destruct (Hk B b Hin) as [-> ->]. exact Hlen. }
  destruct (f_exit f) eqn:Hexit.
  - specialize (Hproceed (f_cache f) (f_batch f) Hl').
    destruct (update_step _ _) as [[w3 evs] out]. cbn in *.
    split; [exact Hg |]. intros B b Hin. apply Hplus in Hin. eauto.
  - rewrite (on_exhausted_short _ _ Hl').
    destruct ((len (f_batch f) =? 0) && (len (items (f_cache f)) =? 0)) eqn:Hboth.
    + cbn. split; [exact Hg |]. intros B b Hin. apply Hplus in Hin.
      simpl in Hin. intuition discriminate.
    + assert (Hcache : items (f_cache f) <> []).
      { apply andb_false_iff in Hboth. destruct Hboth as [Hx | Hx].
        - apply Hne. intros E. rewrite E, len_nil in Hx. discriminate.
        - intros E. rewrite E, len_nil in Hx. discriminate. }
      pose proof (top_up_fills _ Hfb Hcache Hl') as Hfill.
      destruct (top_up _ _ _) as [cache' batch']. cbn [snd] in Hfill.
      assert (Hlen : len batch' = Z.max 0 (batch_size (hparams w1)))
        by (pose proof (len_nonneg (f_batch f)); lia).
      specialize (Hproceed cache' batch' Hlen).
      unfold with_cache in *. cbn in *.
      destruct (update_step _ _) as [[w3 evs] out]. cbn in *.
      split; [exact Hg |]. intros B b Hin. apply Hplus in Hin. eauto.
  - cbn. split; [exact Hg |]. intros B b Hin. exfalso. eapply Hev. exact Hin.
Qed.

End ForwardFacts.

(** ** Runs of the worker with its controller *)

Section RunFacts.

Variable tensor : Type.
Variable l1_diff : tensor -> tensor -> Q.

Lemma sys_step_invariant (ck : bool) (M : Z) (c : command tensor)
      (s : System tensor) :
  run_invariant M s -> run_invariant M (sys_step l1_diff ck c s).
Proof.
  intros (Hg & Hb & Hm & Hf).
  destruct c; try (repeat split; assumption).
  cbn [sys_step]. destruct (sys_status s); try (repeat split; assumption).
  unfold run_invariant. cbn [sys_globals sys_worker sys_trace].
  destruct (train_iteration_cache l1_diff ck (sys_globals s) (sys_shared s)
                                  (sys_worker s) Hb)
    as [Hb' Hm'].
  split; [| split; [exact Hb' | split; [congruence |]]].
  - destruct (Z.le_gt_cases 1 M) as [H1 | H1].
    + rewrite Hg. apply train_iteration_forwards; [exact Hb | lia].
    + (* the namespace never changes, whatever the capacity *)
      rewrite Hg. unfold train_iteration.
      destruct (reload_hparams (sys_shared s) (sys_worker s)) as [[sh1 w1] ev1].
      destruct (serve_state_request sh1 w1) as [sh2 ev2].
      destruct (abort sh2); [reflexivity |].
      destruct (pause sh2); [reflexivity |].
      assert (Hgl : forall ck' q b c,
                 f_globals (fill_batch l1_diff (hparams w1) ck' q b c
                                       (module_globals tensor))
                 = module_globals tensor).
      { intros [|] q b c.
        - apply fill_batch_keeping_unbound.
        - revert b c. induction q as [| [d l] q IH]; intros b c; simpl;
            destruct (len b <? batch_size (hparams w1)); simpl; auto. }
      destruct (f_exit _); cbn [r_globals].
      * destruct (update_step _ _) as [[? ?] ?]; apply Hgl.
      * destruct (on_exhausted _ _ _); cbn [r_globals];
          try destruct (top_up _ _ _) as [? ?];
          try destruct (update_step _ _) as [[? ?] ?]; apply Hgl.
      * apply Hgl.
  - intros H1 B batch Hin. unfold forwarded in Hin.
    apply in_app_or in Hin. destruct Hin as [Hin | Hin].
    + apply Hf; assumption.
    + rewrite Hg in Hin.
      eapply (train_iteration_forwards l1_diff ck (sys_shared s));
        [exact Hb | lia | exact Hin].
Qed.

Lemma sys_run_invariant (ck : bool) (M : Z) (cmds : list (command tensor)) :
  forall s, run_invariant M s -> run_invariant M (sys_run l1_diff ck cmds s).
Proof.
  induction cmds as [| c cmds IH]; intros s H; simpl; [exact H |].
  apply IH, sys_step_invariant, H.
Qed.

Lemma boot_invariant (h : HParams) (s0 : System tensor) :
  boot tensor h = Ok s0 -> run_invariant (cache_size h) s0.
Proof.
  unfold boot, start_worker, bind.
  destruct (new_deque [] (cache_size h)) as [d |] eqn:E; [| discriminate].
  intros H. injection H as <-.
  destruct (new_deque_bounded _ _ E) as [Hb Hm].
  repeat split; auto. intros _ B batch [].
Qed.

End RunFacts.

(** ** Claims about batch assembly *)

(** C2 (as the code has it).  For every sequence of pushes, hot reloads
    and other controller calls, when the worker was started with a
    [cache_size] of one or more, every batch handed to the update step
    under a [batch_size] [B >= 0] has exactly [B] entries. *)
Theorem C2_full_batches_with_cache
        (tensor : Type) (l1_diff : tensor -> tensor -> Q)
        (use_cache_keeping : bool) (h : HParams) (s0 : System tensor)
        (cmds : list (command tensor)) (B : Z) (batch : list (Sample tensor)) :
  boot tensor h = Ok s0 ->
  1 <= cache_size h ->
  forwarded (sys_trace (sys_run l1_diff use_cache_keeping cmds s0)) B batch ->
  0 <= B ->
  len batch = B.
Proof.
  intros Hboot Hc Hin HB.
  destruct (sys_run_invariant l1_diff use_cache_keeping cmds
                              (boot_invariant h Hboot)) as (_ & _ & _ & Hf).
  rewrite (Hf Hc B batch Hin). lia.
Qed.

Lemma C2_full_batches_witness :
  boot Z (hparams_with 2 10) = Ok (fresh_system Z (hparams_with 2 10)) /\
  1 <= cache_size (hparams_with 2 10) /\
  forwarded
    (sys_trace
       (sys_run dist1 false
                [DoPush [sample_n 0; sample_n 1; sample_n 2]; Iterate; Iterate]
                (fresh_system Z (hparams_with 2 10))))
    2 [sample_n 2; sample_n 0] /\
  len [sample_n 2; sample_n 0] = 2.
Proof.
  assert (Hboot : boot Z (hparams_with 2 10)
                  = Ok (fresh_system Z (hparams_with 2 10))) by reflexivity.
  assert (Hc : 1 <= cache_size (hparams_with 2 10)) by (simpl; lia).
  assert (Hin : forwarded
    (sys_trace
       (sys_run dist1 false
                [DoPush [sample_n 0; sample_n 1; sample_n 2]; Iterate; Iterate]
                (fresh_system Z (hparams_with 2 10))))
    2 [sample_n 2; sample_n 0]).
  { unfold forwarded. vm_compute. do 6 right. left. reflexivity. }
  split; [exact Hboot | split; [exact Hc | split; [exact Hin |]]].
  apply (@C2_full_batches_with_cache
           Z dist1 false (hparams_with 2 10) (fresh_system Z (hparams_with 2 10))
           [DoPush [sample_n 0; sample_n 1; sample_n 2]; Iterate; Iterate]
           2 [sample_n 2; sample_n 0] Hboot Hc Hin).
  lia.
Defined.

(** The statement of C2 in the specification fails: with [cache_size =
    0] the cache stays empty, the top-up loop does not run, and a batch
    of one sample is handed to the update step under [batch_size = 2]. *)
Lemma C2_short_batch_forwarded :
  boot Z (hparams_with 2 0) = Ok (fresh_system Z (hparams_with 2 0)) /\
  forwarded
    (sys_trace
       (sys_run dist1 false [DoPush [sample_n 7]; Iterate]
                (fresh_system Z (hparams_with 2 0))))
    2 [sample_n 7] /\
  len [sample_n 7] <> 2.
Proof.
  split; [reflexivity |]. split.
  - unfold forwarded. vm_compute. left. reflexivity.
  - vm_compute. discriminate.
Qed.

(** C5 (as the code has it).  The cache is the deque built at start-up:
    through every run its capacity is the [cache_size] the worker was
    started with and it never holds more entries than that, also
    after an insertion and in the middle of a top-up turn (between
    [popleft] and [append]); an insertion into the full cache drops the
    entry at its front, so that among distinct samples the front entry
    is gone afterwards. *)
Theorem C5_cache_bounded_by_starting_cache_size
        (tensor : Type) (l1_diff : tensor -> tensor -> Q)
        (use_cache_keeping : bool) (h : HParams) (s0 : System tensor)
        (cmds : list (command tensor)) :
  boot tensor h = Ok s0 ->
  let cache := data_cache (sys_worker (sys_run l1_diff use_cache_keeping cmds s0)) in
  maxlen cache = cache_size h /\
  len (items cache) <= cache_size h /\
  (forall x : Sample tensor, len (items (append cache x)) <= cache_size h) /\
  (forall (y : Sample tensor) (cache' : deque (Sample tensor)),
      popleft cache = Ok (y, cache') ->
      len (items cache') <= cache_size h /\
      len (items (append cache' y)) <= cache_size h) /\
  forall (x front : Sample tensor) (rest : list (Sample tensor)),
    items cache = front :: rest ->
    len (items cache) = cache_size h ->
    items (append cache x) = rest ++ [x] /\
    len (items (append cache x)) <= cache_size h /\
    (NoDup (items cache ++ [x]) -> ~ In front (items (append cache x))).
Proof.
  intros Hboot cache.
  destruct (sys_run_invariant l1_diff use_cache_keeping cmds
                              (boot_invariant h Hboot)) as (_ & Hb & Hm & _).
  fold cache in Hb, Hm. unfold bounded in Hb.
  split; [exact Hm | split; [lia | split; [| split]]].
  { intros x. pose proof (append_bounded x Hb) as Hb'. unfold bounded in Hb'.
    rewrite append_maxlen in Hb'. lia. }
  { intros y cache' Hpop. unfold popleft in Hpop.
    destruct (items cache) as [| z rest] eqn:Hi; [discriminate |].
    injection Hpop as <- <-.
    assert (Hb1 : bounded (mkDeque rest (maxlen cache))).
    { unfold bounded. cbn [items maxlen]. rewrite len_cons in Hb. lia. }
    pose proof (append_bounded z Hb1) as Hb2. unfold bounded in Hb1, Hb2.
    rewrite append_maxlen in Hb2. cbn [items maxlen] in *. lia. }
  intros x front rest Hi Hfull.
  assert (Happ : items (append cache x) = rest ++ [x])
    by (apply (append_full cache x Hi); lia).
  split; [exact Happ | split].
  - pose proof (append_bounded x Hb) as Hb'. unfold bounded in Hb'.
    rewrite append_maxlen in Hb'. lia.
  - rewrite Happ, Hi. simpl. intros Hnd Hin.
    inversion Hnd; subst. contradiction.
Qed.

Lemma C5_cache_bounded_witness :
  let cache :=
    data_cache
      (sys_worker
         (sys_run dist1 false
                  [DoPush [sample_n 0; sample_n 1; sample_n 2]; Iterate; Iterate]
                  (fresh_system Z (hparams_with 2 3)))) in
  boot Z (hparams_with 2 3) = Ok (fresh_system Z (hparams_with 2 3)) /\
  maxlen cache = 3 /\ len (items cache) <= 3 /\
  items (append cache (sample_n 3)) = [sample_n 2; sample_n 0; sample_n 3].
Proof.
  intros cache.
  assert (Hboot : boot Z (hparams_with 2 3)
                  = Ok (fresh_system Z (hparams_with 2 3))) by reflexivity.
  destruct (@C5_cache_bounded_by_starting_cache_size
              Z dist1 false (hparams_with 2 3)
              (fresh_system Z (hparams_with 2 3))
              [DoPush [sample_n 0; sample_n 1; sample_n 2]; Iterate; Iterate]
              Hboot) as (H1 & H2 & _ & _ & H3).
  split; [exact Hboot | split; [exact H1 | split; [exact H2 |]]].
  destruct (H3 (sample_n 3) (sample_n 1) [sample_n 2; sample_n 0]
               eq_refl eq_refl) as (H4 & _).
  exact H4.
Defined.

(** The statement of C5 in the specification fails twice in one run. The
    worker starts with [cache_size = 3]; after a hot reload to
    [cache_size = 1] the cache still holds three entries; and since the
    top-up had moved sample 0 to the back, the insertion of sample 3
    evicted sample 1, which arrived after sample 0: four distinct
    samples were inserted and the oldest of them is still cached. *)
Lemma C5_cache_exceeds_reloaded_cache_size :
  let s :=
    sys_run dist1 false
            [DoPush [sample_n 0; sample_n 1; sample_n 2]; Iterate; Iterate;
             DoPushHparams (hparams_with 2 1); DoPush [sample_n 3]; Iterate]
            (fresh_system Z (hparams_with 2 3)) in
  boot Z (hparams_with 2 3) = Ok (fresh_system Z (hparams_with 2 3)) /\
  cache_size (hparams (sys_worker s)) = 1 /\
  items (data_cache (sys_worker s)) = [sample_n 0; sample_n 3; sample_n 2] /\
  ~ len (items (data_cache (sys_worker s))) <= cache_size (hparams (sys_worker s)) /\
  In (sample_n 0) (items (data_cache (sys_worker s))) /\
  ~ In (sample_n 1) (items (data_cache (sys_worker s))).
Proof.
  intros s.
  assert (Hh : cache_size (hparams (sys_worker s)) = 1) by (vm_compute; reflexivity).
  assert (Hc : items (data_cache (sys_worker s))
               = [sample_n 0; sample_n 3; sample_n 2]) by (vm_compute; reflexivity).
  rewrite Hh, Hc.
  split; [reflexivity | split; [reflexivity | split; [reflexivity |]]].
  split; [| split].
  - vm_compute. intros H. apply H. reflexivity.
  - left. reflexivity.
  - intros [H | [H | [H | []]]]; discriminate.
Qed.

(** C6.  When the queue is exhausted with a short batch and the cache
    is not empty, the top-up takes the entries from the front of the
    cache round and round until the batch is full, putting each one
    back at the end: the cache keeps its capacity and its entries (in
    rotated order).  In the scenario of the specification the second
    batch is [sample 2, sample 0]. *)
Theorem C6_top_up_borrows_cyclically
        (tensor : Type) (l1_diff : tensor -> tensor -> Q)
        (s0 s1 s2 : Sample tensor) :
  (forall (B : Z) (cache : deque (Sample tensor)) (batch : list (Sample tensor)),
      bounded cache -> items cache <> [] -> len batch < B ->
      let n := Z.to_nat (B - len batch) in
      on_exhausted B batch cache = TopUp /\
      top_up B cache batch
      = (mkDeque (rotate n (items cache)) (maxlen cache),
         batch ++ borrow n (items cache)) /\
      Permutation (items (fst (top_up B cache batch))) (items cache) /\
      len (snd (top_up B cache batch)) = B) /\
  (let first :=
     sys_run l1_diff false [DoPush [s0; s1; s2]; Iterate]
             (fresh_system tensor (hparams_with 2 10)) in
   let second := sys_step l1_diff false Iterate first in
   sys_trace first
   = [UpdatingWith 2 [s0; s1];
      AcquireStateLock; ZeroGrad; Backward; OptimStep; ReleaseStateLock] /\
   q_items (data_queue (sys_shared first)) = [s2] /\
   items (data_cache (sys_worker first)) = [s0; s1] /\
   sys_trace second
   = sys_trace first ++
     [UpdatingWith 2 [s2; s0];
      AcquireStateLock; ZeroGrad; Backward; OptimStep; ReleaseStateLock] /\
   items (data_cache (sys_worker second)) = [s1; s2; s0]).
Proof.
  split.
  - intros B cache batch Hb Hne Hlt n.
    split; [| split; [apply top_up_spec; exact Hb | split]].
    + rewrite (on_exhausted_short _ _ Hlt).
      destruct (len (items cache) =? 0) eqn:E.
      * apply Z.eqb_eq, len_zero_nil in E. contradiction.
      * rewrite andb_false_r. reflexivity.
    + rewrite (top_up_spec B batch Hb). cbn [fst items]. apply rotate_perm.
    + apply top_up_fills; assumption.
  - destruct s0 as [d0 l0], s1 as [d1 l1], s2 as [d2 l2].
    repeat split; reflexivity.
Qed.

Lemma C6_top_up_witness :
  bounded (mkDeque [sample_n 0; sample_n 1; sample_n 2] 10) /\
  top_up 2 (mkDeque [sample_n 0; sample_n 1; sample_n 2] 10) [sample_n 2]
  = (mkDeque [sample_n 1; sample_n 2; sample_n 0] 10, [sample_n 2; sample_n 0]).
Proof.
  assert (Hb : bounded (mkDeque [sample_n 0; sample_n 1; sample_n 2] 10))
    by (unfold bounded; vm_compute; discriminate).
  split; [exact Hb |].
  destruct (proj1 (@C6_top_up_borrows_cyclically
                     Z dist1 (sample_n 0) (sample_n 1) (sample_n 2))
                  2 (mkDeque [sample_n 0; sample_n 1; sample_n 2] 10)
                  [sample_n 2] Hb
                  ltac:(discriminate) ltac:(vm_compute; reflexivity))
    as (_ & H & _).
  exact H.
Defined.

(** ** The handler of [queue.Empty] *)

Section ExhaustedFacts.

Variable tensor : Type.
Variable l1_diff : tensor -> tensor -> Q.

Lemma cache_keeping_raises (hp : HParams) (g : Globals tensor)
      (sample : Sample tensor) (e : exn) :
  _cache_keeping l1_diff hp g sample = Raise e ->
  e = NameError "data_cache" \/ e = ValueError.
Proof.
  unfold _cache_keeping. destruct (g_data_cache g) as [cache |].
  - destruct (scan_cache _ _ _ _ _ _) as [ub dirty].
    destruct dirty as [| i dirty]; [discriminate |].
    unfold new_deque. destruct (cache_size hp <? 0); [| discriminate].
    cbn. intros H. injection H as <-. auto.
  - intros H. injection H as <-. auto.
Qed.

(** Were [data_cache] bound at module level, the purge and rebuild of
    [_cache_keeping] would leave a cache within its capacity, the old
    one or the current [cache_size]. *)
Lemma cache_keeping_bounded (hp : HParams) (g g' : Globals tensor)
      (sample : Sample tensor) (cache : deque (Sample tensor)) (b : bool) :
  g_data_cache g = Some cache -> bounded cache ->
  _cache_keeping l1_diff hp g sample = Ok (b, g') ->
  exists cache',
    g_data_cache g' = Some cache' /\ bounded cache' /\
    (maxlen cache' = maxlen cache \/ maxlen cache' = cache_size hp).
Proof.
  intros Hg Hb. unfold _cache_keeping. rewrite Hg.
  destruct (scan_cache _ _ _ _ _ _) as [ub dirty].
  destruct dirty as [| i dirty]; cbn [bind].
  - intros H. injection H as _ <-. eexists. split; [reflexivity |].
    split; [apply append_bounded; exact Hb | left; reflexivity].
  - destruct (new_deque _ _) as [cleaned |] eqn:E; cbn [bind]; [| discriminate].
    intros H. injection H as _ <-.
    destruct (new_deque_bounded _ _ E) as [Hc Hm].
    eexists. split; [reflexivity |].
    split; [apply append_bounded; exact Hc | right; exact Hm].
Qed.

Lemma fill_batch_raises (hp : HParams) (ck : bool) (queue : list (Sample tensor)) :
  forall batch cache g e,
    f_exit (fill_batch l1_diff hp ck queue batch cache g) = FillRaised e ->
    e = NameError "data_cache" \/ e = ValueError.
Proof.
  induction queue as [| [data labels] queue IH]; intros batch cache g e;
    cbn [fill_batch]; destruct (len batch <? batch_size hp); cbn [f_exit];
      try discriminate.
  destruct ck; [| apply IH].
  destruct (_cache_keeping l1_diff hp g (data, labels)) as [[[|] g'] | e'] eqn:E;
    cbn [f_exit]; try apply IH.
  intros H. injection H as <-. eapply cache_keeping_raises. exact E.
Qed.

Lemma update_step_outcome (w : Worker tensor) (batch : list (Sample tensor)) :
  snd (update_step w batch) <> Raised RuntimeError.
Proof. destruct batch; cbn; discriminate. Qed.

End ExhaustedFacts.

(** C7 (as the code has it).  The arm that stops both state servers and
    raises RuntimeError is guarded by [len(batch) > batch_size]; when
    the queue is exhausted the batch is shorter than [batch_size], so no
    pass of the loop ever ends in that RuntimeError.  A short batch with
    an empty cache takes the top-up arm, which borrows nothing, and the
    batch goes on to the update step as it is, without a retry. *)
Theorem C7_fatal_arm_is_never_taken
        (tensor : Type) (l1_diff : tensor -> tensor -> Q) :
  (forall ck g sh w,
      r_outcome (train_iteration l1_diff ck g sh w) <> Raised RuntimeError) /\
  (forall hp ck queue cache g,
      let f := fill_batch l1_diff hp ck queue [] cache g in
      f_exit f = QueueExhausted ->
      len (f_batch f) < batch_size hp /\
      on_exhausted (batch_size hp) (f_batch f) (f_cache f) <> Fatal) /\
  (forall (w : Worker tensor) (B : Z) (batch : list (Sample tensor))
          (cache : deque (Sample tensor)),
      batch <> [] -> len batch < B -> items cache = [] ->
      on_exhausted B batch cache = TopUp /\
      top_up B cache batch = (cache, batch) /\
      snd (update_step w batch) = Continue /\
      forwarded (snd (fst (update_step w batch))) (batch_size (hparams w)) batch /\
      ~ In (KillStateServer TrainableUnit) (snd (fst (update_step w batch))) /\
      ~ In (KillStateServer OptimizerState) (snd (fst (update_step w batch)))).
Proof.
  split; [| split].
  - intros ck g sh w. unfold train_iteration.
    destruct (reload_hparams sh w) as [[sh1 w1] ev1].
    destruct (serve_state_request sh1 w1) as [sh2 ev2].
    destruct (abort sh2); [cbn; discriminate |].
    destruct (pause sh2); [cbn; discriminate |].
    pose proof (@fill_batch_length tensor l1_diff (hparams w1) ck
                  (q_items (data_queue sh2)) [] (data_cache w1) g) as Hl.
    pose proof (@fill_batch_raises tensor l1_diff (hparams w1) ck
                  (q_items (data_queue sh2)) [] (data_cache w1) g) as Hr.
    cbv zeta in Hl.
    set (f := fill_batch l1_diff (hparams w1) ck (q_items (data_queue sh2)) []
                         (data_cache w1) g) in *.
    assert (Hl' := Hl ltac:(rewrite len_nil; lia)). clear Hl.
    destruct (f_exit f) eqn:Hexit.
    + pose proof (update_step_outcome (with_cache w1 (f_cache f)) (f_batch f)).
      destruct (update_step _ _) as [[w3 evs] out]. exact H.
    + rewrite (on_exhausted_short _ _ Hl').
      destruct (_ && _); [cbn; discriminate |].
      destruct (top_up _ _ _) as [cache' batch'].
      pose proof (update_step_outcome
                    (with_cache (with_cache w1 (f_cache f)) cache') batch').
      destruct (update_step _ _) as [[w3 evs] out]. exact H.
    + cbn. intros E. injection E as ->.
      destruct (Hr RuntimeError eq_refl); discriminate.
  - intros hp ck queue cache g f Hexit.
    pose proof (@fill_batch_length tensor l1_diff hp ck queue [] cache g) as Hl.
    cbv zeta in Hl. fold f in Hl. rewrite Hexit in Hl.
    assert (Hl' := Hl ltac:(rewrite len_nil; lia)).
    split; [exact Hl' |].
    rewrite (on_exhausted_short _ _ Hl'). destruct (_ && _); discriminate.
  - intros w B batch cache Hne Hlt Hc.
    split; [| split].
    + rewrite (on_exhausted_short _ _ Hlt).
      destruct (len batch =? 0) eqn:E; [| reflexivity].
      apply Z.eqb_eq, len_zero_nil in E. contradiction.
    + unfold top_up. destruct (Z.to_nat (B - len batch)); cbn [top_up_loop];
        [reflexivity | rewrite Hc; reflexivity].
    + destruct batch as [| x rest]; [contradiction |].
      cbn. repeat split; auto; intros H;
        repeat (destruct H as [H | H]; [discriminate |]); destruct H.
Qed.

Lemma C7_fatal_arm_witness :
  on_exhausted 2 [sample_n 7] (mkDeque [] 0) = TopUp /\
  top_up 2 (mkDeque [] 0) [sample_n 7] = (mkDeque [] 0, [sample_n 7]) /\
  snd (update_step (fresh_worker Z (hparams_with 2 0)) [sample_n 7]) = Continue.
Proof.
  destruct (proj2 (proj2 (@C7_fatal_arm_is_never_taken Z dist1))
                  (fresh_worker Z (hparams_with 2 0)) 2 [sample_n 7]
                  (mkDeque [] 0)
                  ltac:(discriminate) ltac:(vm_compute; reflexivity) eq_refl)
    as (H1 & H2 & H3 & _).
  split; [exact H1 | split; [exact H2 | exact H3]].
Defined.

(** The statement of C7 in the specification fails: with [cache_size =
    0] and one sample queued under [batch_size = 2], the queue is
    exhausted with a batch of one and an empty cache; the pass neither
    stops a state server nor raises, and the batch of one is handed to
    the update step. *)
Lemma C7_short_batch_with_empty_cache_is_not_fatal :
  let w := fresh_worker Z (hparams_with 2 0) in
  let sh := push (ignited_shared Z) [sample_n 7] in
  let f := fill_batch dist1 (hparams w) false (q_items (data_queue sh)) []
                      (data_cache w) (module_globals Z) in
  let r := train_iteration dist1 false (module_globals Z) sh w in
  f_exit f = QueueExhausted /\
  f_batch f = [sample_n 7] /\
  items (f_cache f) = [] /\
  r_outcome r = Continue /\
  r_events r
  = [UpdatingWith 2 [sample_n 7];
     AcquireStateLock; ZeroGrad; Backward; OptimStep; ReleaseStateLock].
Proof. vm_compute. repeat split; reflexivity. Qed.

(** ** Cache keeping *)

(** C4 (the code falls short of it).  [_cache_keeping] declares
    [global data_cache], and trainy.py binds no such name at module
    level: whatever the sample, the call raises NameError at its first
    read of [data_cache].  With cache keeping switched on, the first
    sample taken from the queue therefore ends the worker: nothing is
    put into the batch or into the cache. *)
Theorem C4_cache_keeping_raises_NameError :
  (forall (tensor : Type) (l1_diff : tensor -> tensor -> Q)
          (hp : HParams) (sample : Sample tensor),
      _cache_keeping l1_diff hp (module_globals tensor) sample
      = Raise (NameError "data_cache")) /\
  (let r := train_iteration dist1 true (module_globals Z)
                            (push (ignited_shared Z) [sample_n 0])
                            (fresh_worker Z (hparams_with 1 10)) in
   r_outcome r = Raised (NameError "data_cache") /\
   r_events r = [] /\
   items (data_cache (r_worker r)) = []).
Proof.
  split.
  - intros. reflexivity.
  - vm_compute. repeat split; reflexivity.
Qed.

(** What the body of [_cache_keeping] does once [data_cache] is bound
    (here to a cache holding the sample (1, 1)): a sample whose data and
    labels match is not to be added to the batch and is appended; one
    whose data match and whose labels differ replaces the entry; one
    whose data differ is added and appended. *)
Lemma cache_keeping_when_bound :
  let g := mkGlobals (Some (mkDeque [((1, 1) : Sample Z)] 10)) in
  _cache_keeping dist1 (hparams_with 2 10) g (1, 1)
  = Ok (false, mkGlobals (Some (mkDeque [(1, 1); (1, 1)] 10))) /\
  _cache_keeping dist1 (hparams_with 2 10) g (1, 2)
  = Ok (true, mkGlobals (Some (mkDeque [(1, 2)] 10))) /\
  _cache_keeping dist1 (hparams_with 2 10) g (5, 5)
  = Ok (true, mkGlobals (Some (mkDeque [(1, 1); (5, 5)] 10))).
Proof. vm_compute. repeat split; reflexivity. Qed.

(** ** Hot reload *)

Section ReloadFacts.

Variable tensor : Type.
Variable l1_diff : tensor -> tensor -> Q.

Lemma serve_state_request_flags (sh : Shared tensor) (w : Worker tensor) (B : Z) :
  change_hparams (fst (serve_state_request sh w)) = change_hparams sh /\
  hparams_queue (fst (serve_state_request sh w)) = hparams_queue sh /\
  Forall (after_reload B) (snd (serve_state_request sh w)).
Proof.
  unfold serve_state_request. destruct (state_request sh); [| cbn; auto].
  destruct (put_nowait _ _); cbn; repeat split; auto;
    repeat constructor; intros; discriminate.
Qed.

Lemma update_step_after_reload (w : Worker tensor) (batch : list (Sample tensor)) :
  let '(w3, evs, out) := update_step w batch in
  hparams w3 = hparams w /\ criterion w3 = criterion w /\
  optim_servers w3 = optim_servers w /\
  opt_name (optim w3) = opt_name (optim w) /\
  opt_kwargs (optim w3) = opt_kwargs (optim w) /\
  (opt_steps (optim w) <= opt_steps (optim w3) <= S (opt_steps (optim w)))%nat /\
  Forall (after_reload (batch_size (hparams w))) evs.
Proof.
  unfold update_step. destruct batch as [| x rest]; cbn;
    repeat split; auto; repeat constructor; intros; try discriminate;
      match goal with H : UpdatingWith _ _ = UpdatingWith _ _ |- _ =>
        injection H; auto end.
Qed.

(** A pass is its reload followed by a pass that reloads nothing and
    works under the hyperparameters the reload left. *)
Lemma train_iteration_after_reload (ck : bool) (g : Globals tensor)
      (sh : Shared tensor) (w : Worker tensor) :
  let '(sh1, w1, ev1) := reload_hparams sh w in
  let r := train_iteration l1_diff ck g sh w in
  (exists evs, r_events r = ev1 ++ evs /\
               Forall (after_reload (batch_size (hparams w1))) evs) /\
  hparams (r_worker r) = hparams w1 /\
  criterion (r_worker r) = criterion w1 /\
  optim_servers (r_worker r) = optim_servers w1 /\
  opt_name (optim (r_worker r)) = opt_name (optim w1) /\
  opt_kwargs (optim (r_worker r)) = opt_kwargs (optim w1) /\
  (opt_steps (optim w1) <= opt_steps (optim (r_worker r))
   <= S (opt_steps (optim w1)))%nat /\
  change_hparams (r_shared r) = change_hparams sh1 /\
  hparams_queue (r_shared r) = hparams_queue sh1.
Proof.
  unfold train_iteration.
  destruct (reload_hparams sh w) as [[sh1 w1] ev1].
  pose proof (serve_state_request_flags sh1 w1 (batch_size (hparams w1)))
    as (Hc & Hq & Hev2).
  destruct (serve_state_request sh1 w1) as [sh2 ev2]. cbn [fst snd] in *.
  assert (Hkill : Forall (after_reload (batch_size (hparams w1)))
                         (snd (kill_both w1))).
  { cbn. repeat constructor; intros; discriminate. }
  assert (Hproceed : forall c batch,
             let '(w3, evs, out) := update_step (with_cache w1 c) batch in
             hparams w3 = hparams w1 /\ criterion w3 = criterion w1 /\
             optim_servers w3 = optim_servers w1 /\
             opt_name (optim w3) = opt_name (optim w1) /\
             opt_kwargs (optim w3) = opt_kwargs (optim w1) /\
             (opt_steps (optim w1) <= opt_steps (optim w3)
              <= S (opt_steps (optim w1)))%nat /\
             Forall (after_reload (batch_size (hparams w1))) evs).
  { intros c batch. apply (update_step_after_reload (with_cache w1 c) batch). }
  destruct (abort sh2).
  { cbn. repeat split; auto.
    exists (ev2 ++ snd (kill_both w1)). rewrite app_assoc. split; [reflexivity |].
    apply Forall_app; auto. }
  destruct (pause sh2).
  { cbn. repeat split; auto.
    exists (ev2 ++ [Sleep 1]). rewrite app_assoc. split; [reflexivity |].
    apply Forall_app; split; auto. repeat constructor; intros; discriminate. }
  set (f := fill_batch l1_diff (hparams w1) ck (q_items (data_queue sh2)) []
                       (data_cache w1) g).
  destruct (f_exit f).
  - specialize (Hproceed (f_cache f) (f_batch f)).
    destruct (update_step _ _) as [[w3 evs] out].
    destruct Hproceed as (H1 & H2 & H3 & H4 & H5 & H6 & H7).
    cbn. repeat split; auto; try lia.
    exists (ev2 ++ evs). rewrite app_assoc. split; [reflexivity |].
    apply Forall_app; auto.
  - destruct (on_exhausted _ _ _).
    + cbn. repeat split; auto.
      exists (ev2 ++ [Sleep (1 # 10)]). rewrite app_assoc. split; [reflexivity |].
      apply Forall_app; split; auto. repeat constructor; intros; discriminate.
    + specialize (Hproceed (f_cache f) (f_batch f)).
      destruct (update_step _ _) as [[w3 evs] out].
      destruct Hproceed as (H1 & H2 & H3 & H4 & H5 & H6 & H7).
      cbn. repeat split; auto; try lia.
      exists (ev2 ++ evs). rewrite app_assoc. split; [reflexivity |].
      apply Forall_app; auto.
    + destruct (top_up _ _ _) as [cache' batch'].
      specialize (Hproceed cache' batch').
      unfold with_cache in *. cbn in *.
      destruct (update_step _ _) as [[w3 evs] out].
      destruct Hproceed as (H1 & H2 & H3 & H4 & H5 & H6 & H7).
      cbn. repeat split; auto; try lia.
      exists (ev2 ++ evs). rewrite app_assoc. split; [reflexivity |].
      apply Forall_app; auto.
    + cbn. repeat split; auto.
      exists (ev2 ++ snd (kill_both w1)). rewrite app_assoc. split; [reflexivity |].
      apply Forall_app; auto.
  - cbn. repeat split; auto.
    exists ev2. split; [reflexivity | exact Hev2].
Qed.


End ReloadFacts.



(** ** The controller's pull of the model state *)

Lemma drain_loop_app (A : Type) (older : list A) (x : A) (state : option A) :
  drain_loop (older ++ [x]) state = Some x.
Proof.
  revert state. induction older as [| y older IH]; intros state; simpl; auto.
Qed.

(** C3 (as the code has it).  [update_handler_model_state] drains the
    response mailbox, then sets the request flag, then waits on the
    mailbox with the timeout of 5 seconds.  When a state dict arrives
    it is loaded.  On timeout the held state is kept only if the drain
    found nothing: otherwise the last state dict that the drain took
    out of the mailbox is loaded. *)
Theorem C3_pull_model_state
        (tensor : Type) (t : Trainer) (sh : Shared tensor)
        (arrivals : list Snapshot) :
  ignited t = true ->
  STATE_QUEUE_GET_TIMEOUT = 5 /\
  exists t' sh' tail,
    update_handler_model_state t sh arrivals
    = Ok (t', sh',
          [Log Info RequestingNewState]
            ++ drain_events TrainableUnit (q_items (state_queue sh))
            ++ [SetRequest TrainableUnit; Log Info WaitingForNewState;
                GetTimeout TrainableUnit 5 (hd_error arrivals)]
            ++ tail) /\
    state_request sh' = true /\
    q_items (state_queue sh') = tl arrivals /\
    (forall s more, arrivals = s :: more ->
        handler_model t' = snap_value s /\
        tail = [Log Info AcquiredNewState; LoadStateDict s; Log Info LoadedState]) /\
    (arrivals = [] -> q_items (state_queue sh) = [] ->
        t' = t /\ tail = [Log Info FailedToAcquireNewState]) /\
    (forall older s0, arrivals = [] -> q_items (state_queue sh) = older ++ [s0] ->
        handler_model t' = snap_value s0 /\
        tail = [Log Info FailedToAcquireNewState;
                LoadStateDict s0; Log Info LoadedState]).
Proof.
  intros Hig. split; [reflexivity |].
  unfold update_handler_model_state, request_state, _drain_state_queue.
  rewrite Hig.
  cbn [response_queue with_response_queue set_request state_queue].
  unfold get_timeout, get_nowait. cbn [q_items q_maxsize app].
  destruct arrivals as [| s more].
  - destruct (drain_loop (q_items (state_queue sh)) None) as [s0 |] eqn:Hd.
    + eexists _, _, [Log Info FailedToAcquireNewState;
                     LoadStateDict s0; Log Info LoadedState].
      split; [simpl; rewrite <- ?app_assoc; reflexivity |].
      split; [reflexivity | split; [reflexivity |]].
      split; [intros s' more' E; discriminate | split].
      * intros _ E. rewrite E in Hd. discriminate.
      * intros older s1 _ E. rewrite E, drain_loop_app in Hd.
        injection Hd as ->. split; reflexivity.
    + eexists _, _, [Log Info FailedToAcquireNewState].
      split; [simpl; rewrite <- ?app_assoc; reflexivity |].
      split; [reflexivity | split; [reflexivity |]].
      split; [intros s' more' E; discriminate | split].
      * intros _ _. split; reflexivity.
      * intros older s1 _ E. rewrite E, drain_loop_app in Hd. discriminate.
  - eexists _, _, [Log Info AcquiredNewState; LoadStateDict s; Log Info LoadedState].
    split; [simpl; rewrite <- ?app_assoc; reflexivity |].
    split; [reflexivity | split; [reflexivity |]].
    split; [| split].
    + intros s' more' E. injection E as <- <-. split; reflexivity.
    + intros E. discriminate.
    + intros older s1 E. discriminate.
Qed.

Lemma C3_pull_model_state_witness :
  let t := mkTrainer 3 true true default_hparams in
  let sh := ignited_shared Z in
  let fresh := mkSnapshot TrainableUnit 8 FastPath in
  ignited t = true /\
  exists sh' ev,
    update_handler_model_state t sh [fresh]
    = Ok (mkTrainer 8 true true default_hparams, sh', ev).
Proof.
  intros t sh fresh.
  assert (Hig : ignited t = true) by reflexivity.
  split; [exact Hig |].
  destruct (@C3_pull_model_state Z t sh [fresh] Hig)
    as (_ & t' & sh' & tail & Heq & _ & _ & Hs & _).
  destruct (Hs fresh [] eq_refl) as [Hm _].
  exists sh'. eexists. rewrite Heq.
  assert (Ht : t' = mkTrainer 8 true true default_hparams).
  { vm_compute in Heq. injection Heq as <- _ _. reflexivity. }
  rewrite Ht. reflexivity.
Defined.

(** The statement of C3 in the specification fails: the controller holds
    state 3, a stale state dict with value 7 sits in the mailbox, and
    nothing arrives within the timeout: the stale state dict is loaded,
    so the held state is not kept. *)
Lemma C3_timeout_loads_the_stale_state :
  let t := mkTrainer 3 true true default_hparams in
  let stale := mkSnapshot TrainableUnit 7 FastPath in
  let sh := with_response_queue TrainableUnit (ignited_shared Z)
                                (mkQueue [stale] 0) in
  exists sh',
    update_handler_model_state t sh []
    = Ok (mkTrainer 7 true true default_hparams, sh',
          [Log Info RequestingNewState;
           GetNowait TrainableUnit (Some stale); Log Info FoundResidualState;
           GetNowait TrainableUnit None;
           SetRequest TrainableUnit; Log Info WaitingForNewState;
           GetTimeout TrainableUnit 5 None;
           Log Info FailedToAcquireNewState;
           LoadStateDict stale; Log Info LoadedState]) /\
    handler_model t = 3%nat /\
    handler_model (mkTrainer 7 true true default_hparams) <> handler_model t.
Proof.
  eexists. split; [vm_compute; reflexivity |].
  split; [reflexivity | vm_compute; discriminate].
Qed.

(** ** Shutdown *)

Lemma shutdown_trials_quiet (tensor : Type) (alive : nat -> bool) (trials : list nat) :
  Forall (fun e => e <> Terminate /\ forall m, e <> Log Warning m)
         (shutdown_trials trials alive).
Proof.
  induction trials as [| trial rest IH]; cbn [shutdown_trials]; [constructor |].
  constructor; [split; [discriminate | intros m; discriminate] |].
  constructor; [split; [discriminate | intros m; discriminate] |].
  destruct (alive trial); [| constructor].
  constructor; [split; [discriminate | intros m; discriminate] |].
  constructor; [split; [discriminate | intros m; discriminate] |].
  exact IH.
Qed.

(** C9 (the code falls short of it).  [shut_down_training_process] sets
    the abort event, checks liveness at most six times with sleeps of
    10 seconds, never terminates the process and never logs a warning:
    its last act is to log "Process Dead." at level Info whatever the
    liveness checks said.  For a worker that stays alive through all
    six checks the log is as for one that died. *)
Theorem C9_shutdown_logs_process_dead_unconditionally
        (tensor : Type) (t : Trainer) (sh : Shared tensor) (alive : nat -> bool) :
  (has_process t = true ->
   abort (fst (shut_down_training_process t sh alive)) = true /\
   (exists trials,
       snd (shut_down_training_process t sh alive)
       = [Log Info SettingAbortEvent; SetAbort] ++ trials
           ++ [Log Info ProcessDead]) /\
   Forall (fun e => e <> Terminate /\ forall m, e <> Log Warning m)
          (snd (shut_down_training_process t sh alive))) /\
  snd (shut_down_training_process (mkTrainer 0 true true default_hparams)
                                  sh always_alive)
  = [Log Info SettingAbortEvent; SetAbort;
     Log Info (TryOf5 0); IsAlive true; Log Info ProcessAlive; TimeSleep 10;
     Log Info (TryOf5 1); IsAlive true; Log Info ProcessAlive; TimeSleep 10;
     Log Info (TryOf5 2); IsAlive true; Log Info ProcessAlive; TimeSleep 10;
     Log Info (TryOf5 3); IsAlive true; Log Info ProcessAlive; TimeSleep 10;
     Log Info (TryOf5 4); IsAlive true; Log Info ProcessAlive; TimeSleep 10;
     Log Info (TryOf5 5); IsAlive true; Log Info ProcessAlive; TimeSleep 10;
     Log Info ProcessDead] /\
  snd (shut_down_training_process (mkTrainer 0 true true default_hparams)
                                  sh dead_after_first)
  = [Log Info SettingAbortEvent; SetAbort;
     Log Info (TryOf5 0); IsAlive true; Log Info ProcessAlive; TimeSleep 10;
     Log Info (TryOf5 1); IsAlive false;
     Log Info ProcessDead].
Proof.
  split; [| split; reflexivity].
  intros Hp. unfold shut_down_training_process. rewrite Hp. cbn [fst snd abort].
  split; [reflexivity | split].
  - eexists. reflexivity.
  - apply Forall_app. split.
    + repeat constructor; try discriminate; intros m; discriminate.
    + apply Forall_app. split.
      * apply (shutdown_trials_quiet tensor).
      * repeat constructor; try discriminate; intros m; discriminate.
Qed.

Lemma C9_shutdown_witness :
  has_process (mkTrainer 0 true true default_hparams) = true /\
  abort (fst (shut_down_training_process
                (mkTrainer 0 true true default_hparams)
                (ignited_shared Z) always_alive)) = true.
Proof.
  split; [reflexivity |].
  apply (proj1 (@C9_shutdown_logs_process_dead_unconditionally
                  Z (mkTrainer 0 true true default_hparams)
                  (ignited_shared Z) always_alive) eq_refl).
Defined.

(** The sibling [_kill_state_server] does tell the two endings apart:
    a thread that is still alive after the wait is reported by a
    warning. *)
Lemma kill_state_server_warns_when_alive :
  In (Log Warning (FailedToKillStateServer 5)) (_kill_state_server always_alive 5) /\
  ~ In (Log Warning (FailedToKillStateServer 5))
       (_kill_state_server (fun _ => false) 5).
Proof.
  split.
  - vm_compute. do 21 right. left. reflexivity.
  - vm_compute. intros H.
    repeat (destruct H as [H | H]; [discriminate |]). destruct H.
Qed.

(** ** Threads and the mutex *)

Module InterleavingFacts.

Import Interleaving.

Ltac simpl_state :=
  unfold fail_in_lock, kill_servers, reload, apply_effect, step_env_request,
    set_wk, set_state_lock, set_req, put_state, set_params, set_optims,
    set_servers, stop, at_pc, with_lock in *;
  cbn [tu1 tu2 optims state_lock req_tu req_opt q_tu q_opt delivered wk
       tu_server opt_servers got reading loaded sv_pc sv_stop sv_lock sv_obj
       s_comp s_obj s_by] in *.

Ltac split_step H :=
  repeat match type of H with
         | context [if req_tu ?s then _ else _] => destruct (req_tu s) eqn:?
         | context [match state_lock ?s with _ => _ end] =>
             destruct (state_lock s) eqn:?
         end.



Lemma in_snoc (A : Type) (x y : A) (l : list A) :
  In x (l ++ [y]) -> In x l \/ x = y.
Proof.
  intros H. apply in_app_or in H. destruct H as [H | [H | []]]; auto.
Qed.





Lemma run_keeps (P : state -> Prop) (debug : bool) :
  (forall a s s', P s -> step debug a s = Some s' -> P s') ->
  forall schedule s s', P s -> run debug schedule s = Some s' -> P s'.
Proof.
  intros Hstep schedule.
  induction schedule as [| a rest IH]; intros s s' Hp Hrun; cbn [run] in Hrun.
  - injection Hrun as <-. exact Hp.
  - destruct (step debug a s) as [s1 |] eqn:E; [| discriminate].
    eapply IH; [eapply Hstep; eassumption | exact Hrun].
Qed.


Lemma assert_raises (state_obj : pyobj) :
  state_server_assert true state_obj = Raise TypeError.
Proof. reflexivity. Qed.

Lemma dead_step (c : component) (request : bool)
      (lock : option owner) (sv sv' : server) (eff : effect) :
  dead sv ->
  step_server true c request lock sv = Some (sv', eff) ->
  dead sv' /\ eff = Quiet.
Proof.
  unfold dead, step_server. intros [H | H]; rewrite H.
  - rewrite assert_raises. intros E. injection E as <- <-. cbn. auto.
  - discriminate.
Qed.

Lemma update_nth_Forall (A : Type) (P : A -> Prop) (f : A -> A) (l : list A) :
  (forall x, P x -> P (f x)) ->
  forall k, Forall P l -> Forall P (update_nth k f l).
Proof.
  intros Hf. induction l as [| x rest IH]; intros k Hl; [destruct k; constructor |].
  inversion Hl; subst. destruct k; cbn; constructor; auto.
Qed.

Lemma nth_error_Forall (A : Type) (P : A -> Prop) (l : list A) (k : nat) (x : A) :
  Forall P l -> nth_error l k = Some x -> P x.
Proof.
  intros Hl Hk. rewrite Forall_forall in Hl. apply Hl.
  eapply nth_error_In. exact Hk.
Qed.

Lemma step_keeps_dead_invariant (a : action) (s s' : state) :
  dead_invariant s -> step true a s = Some s' -> dead_invariant s'.
Proof.
  intros (Htu & Hopt & Hdel & Hq) Hstep.
  assert (Hstop : forall sv, dead sv -> dead (stop sv)) by (intros sv H; exact H).
  destruct a; cbn [step] in Hstep.
  - injection Hstep as <-. destruct c; repeat split; auto; apply Hdel; assumption.
  - injection Hstep as <-. unfold step_env_take.
    destruct (mailbox c s) as [| sn rest] eqn:Em;
      [repeat split; auto; apply Hdel; assumption |].
    destruct c; repeat split; auto; try (apply Hdel; assumption).
    cbn. unfold mailbox in Em. rewrite Hq in Em. discriminate.
  - unfold step_env_read1 in Hstep.
    destruct (reading s); [discriminate |].
    destruct (got s); [discriminate |]. injection Hstep as <-.
    repeat split; auto; apply Hdel; assumption.
  - unfold step_env_read2 in Hstep.
    destruct (reading s) as [[sn a] |]; [| discriminate].
    injection Hstep as <-. repeat split; auto; apply Hdel; assumption.
  - unfold step_worker in Hstep.
    destruct (wk s); destruct ch; try discriminate; split_step Hstep;
      try discriminate; injection Hstep as <-;
      unfold dead_invariant, update_last; simpl_state;
      (split; [auto |]); (split; [|split; [| exact Hq]]);
      try assumption; try (apply update_nth_Forall; assumption).
    + apply Forall_app. split; [apply update_nth_Forall; assumption |].
      constructor; [left; reflexivity | constructor].
    + intros sn Hin. apply in_snoc in Hin. destruct Hin as [Hin | ->]; auto.
  - unfold step_tu_server in Hstep.
    destruct (step_server _ _ _ _ _) as [[sv eff] |] eqn:E; [| discriminate].
    destruct (@dead_step _ _ _ _ _ _ Htu E) as [Hsv ->].
    injection Hstep as <-. unfold dead_invariant. simpl_state.
    repeat split; auto; apply Hdel; assumption.
  - unfold step_opt_server in Hstep.
    destruct (nth_error (opt_servers s) k) as [sv0 |] eqn:Hk; [| discriminate].
    destruct (step_server _ _ _ _ _) as [[sv eff] |] eqn:E; [| discriminate].
    destruct (@dead_step _ _ _ _ _ _ (@nth_error_Forall _ _ _ _ _ Hopt Hk) E)
      as [Hsv ->].
    injection Hstep as <-. unfold dead_invariant. simpl_state.
    repeat split; auto; try (apply Hdel; assumption).
    apply update_nth_Forall; auto.
Qed.

Lemma reachable_dead_invariant (schedule : list action) (s : state) :
  run true schedule init = Some s -> dead_invariant s.
Proof.
  intros Hrun.
  eapply (@run_keeps dead_invariant true); [| | exact Hrun].
  - intros a s1 s2. apply step_keeps_dead_invariant.
  - unfold dead_invariant, dead, init. cbn.
    repeat split; auto; try contradiction.
Qed.

(** C10 (as the code has it).  The first statement of [_state_server]
    calls [isinstance] with the packages [torch.optim] and [torch.nn]
    as second argument, which raises TypeError whatever the state
    object is, when the assert is executed (as it is unless the
    interpreter runs with [-O]).  Then, in every schedule of the
    worker's threads, each state server is either not yet run or dead
    with TypeError; a step of a state server changes neither a request
    flag nor a mailbox; every state dict ever delivered is a model
    state dict put by the loop's own fast path; the optimizer mailbox
    stays empty, and a controller that asks for the optimizer state
    gets nothing. *)
Theorem C10_state_servers_die_at_the_assert :
  (forall state_obj : pyobj,
      state_server_assert true state_obj = Raise TypeError) /\
  (forall (schedule : list action) (s : state),
      run true schedule init = Some s ->
      dead (tu_server s) /\
      Forall dead (opt_servers s) /\
      (forall sn, In sn (delivered s) ->
                  s_by sn = FastPath /\ s_comp sn = TrainableUnit) /\
      q_opt s = [] /\
      (forall s',
          step true Serve_tu s = Some s' \/
          (exists k, step true (Serve_opt k) s = Some s') ->
          req_tu s' = req_tu s /\ req_opt s' = req_opt s /\
          q_tu s' = q_tu s /\ q_opt s' = q_opt s /\
          delivered s' = delivered s)) /\
  (forall (tensor : Type) (t : Trainer) (sh : Shared tensor),
      ignited t = true ->
      q_items (optimizer_queue sh) = [] ->
      exists sh' ev,
        update_handler_optimizer_state t sh [] = Ok (None, sh', ev)).
Proof.
  split; [exact assert_raises | split].
  - intros schedule s Hrun.
    destruct (reachable_dead_invariant schedule Hrun) as (Htu & Hopt & Hdel & Hq).
    repeat (split; [assumption |]).
    intros s' [Hstep | [k Hstep]]; cbn [step] in Hstep.
    + unfold step_tu_server in Hstep.
      destruct (step_server _ _ _ _ _) as [[sv eff] |] eqn:E; [| discriminate].
      destruct (@dead_step _ _ _ _ _ _ Htu E) as [_ ->].
      injection Hstep as <-. cbn. auto.
    + unfold step_opt_server in Hstep.
      destruct (nth_error (opt_servers s) k) as [sv0 |] eqn:Hk; [| discriminate].
      destruct (step_server _ _ _ _ _) as [[sv eff] |] eqn:E; [| discriminate].
      destruct (@dead_step _ _ _ _ _ _ (@nth_error_Forall _ _ _ _ _ Hopt Hk) E)
        as [_ ->].
      injection Hstep as <-. cbn. auto.
  - intros tensor t sh Hig Hq.
    unfold update_handler_optimizer_state, request_state, _drain_state_queue.
    rewrite Hig. cbn [response_queue with_response_queue set_request optimizer_queue].
    rewrite Hq. cbn. eexists _, _. reflexivity.
Qed.

Lemma C10_state_servers_witness :
  exists s,
    run true fast_path_schedule init = Some s /\
    delivered s = [mkSnap TrainableUnit 0 FastPath] /\
    req_opt s = true /\
    sv_pc (tu_server s) = SCrashed TypeError /\
    q_opt s = [].
Proof.
  eexists. split; [vm_compute; reflexivity |].
  split; [reflexivity | split; [reflexivity | split; [reflexivity |]]].
  refine (proj1 (proj2 (proj2 (proj2
            (proj1 (proj2 C10_state_servers_die_at_the_assert)
                   fast_path_schedule _ _))))).
  vm_compute. reflexivity.
Defined.

(** The statement of C10 in the specification carries no condition on
    the assert, and fails where the assert is skipped (the interpreter
    run with [-O]): the assert of line 99 passes, the optimizer's state
    server gets past it, answers a request for the optimizer state and
    clears the request flag; and the model's state server puts a model
    state dict that does not come from the fast path. *)
Lemma C10_state_servers_serve_when_asserts_are_skipped :
  state_server_assert false (state_obj_of OptimizerState) = Ok tt /\
  (exists s,
      run false served_optimizer_schedule init = Some s /\
      req_opt init = false /\
      map sv_pc (opt_servers s) = [SSleep] /\
      req_opt s = false /\
      q_opt s = [mkSnap OptimizerState 0 StateServer] /\
      delivered s = [mkSnap OptimizerState 0 StateServer]) /\
  (exists s,
      run false ([Env_request TrainableUnit] ++ repeat Serve_tu 8) init = Some s /\
      req_tu s = false /\
      q_tu s = [mkSnap TrainableUnit 0 StateServer] /\
      wk s = WReload).
Proof.
  split; [reflexivity |].
  split; eexists; (split; [vm_compute; reflexivity |]); repeat split; reflexivity.
Qed.




End InterleavingFacts.

(* ================================================================== *)
(** * Further properties                                               *)
(* ================================================================== *)

(** ** The fill loop takes the oldest samples, in order *)

Section FillOrder.

Variable tensor : Type.
Variable l1_diff : tensor -> tensor -> Q.

Lemma fill_batch_plain_split (hp : HParams) (queue : list (Sample tensor)) :
  forall batch cache g,
    let f := fill_batch l1_diff hp false queue batch cache g in
    exists taken,
      f_batch f = batch ++ taken /\
      queue = taken ++ f_queue f /\
      f_cache f = fold_left append taken cache /\
      f_globals f = g /\
      (f_exit f = BatchFull \/ f_exit f = QueueExhausted /\ f_queue f = []).
Proof.
  induction queue as [| [data labels] queue IH]; intros batch cache g;
    cbv zeta; cbn [fill_batch].
  - exists []. destruct (len batch <? batch_size hp); cbn;
      rewrite app_nil_r; auto 10.
  - destruct (len batch <? batch_size hp).
    + destruct (IH (batch ++ [(data, labels)]) (append cache (data, labels)) g)
        as (taken & H1 & H2 & H3 & H4 & H5).
      exists ((data, labels) :: taken).
      rewrite H1, <- app_assoc. cbn [app fold_left].
      repeat split; auto. congruence.
    + exists []. cbn. rewrite app_nil_r. auto 10.
Qed.

(** X1.  Without cache keeping the fill loop of lines 276-295 takes the
    oldest [min(len(queue), max(0, batch_size))] samples of the queue
    in their order, leaves the others queued in their order, and
    appends each sample it took to the cache. *)
Theorem fill_batch_takes_oldest_in_order
        (hp : HParams) (queue : list (Sample tensor))
        (cache : deque (Sample tensor)) (g : Globals tensor) :
  let f := fill_batch l1_diff hp false queue [] cache g in
  queue = f_batch f ++ f_queue f /\
  len (f_batch f) = Z.min (len queue) (Z.max 0 (batch_size hp)) /\
  f_cache f = fold_left append (f_batch f) cache /\
  f_globals f = g.
Proof.
  cbv zeta.
  destruct (fill_batch_plain_split hp queue [] cache g)
    as (taken & H1 & H2 & H3 & H4 & H5).
  pose proof (@fill_batch_length tensor l1_diff hp false queue [] cache g) as Hl.
  cbv zeta in Hl.
  assert (Hl' := Hl ltac:(rewrite len_nil; lia)). clear Hl.
  set (f := fill_batch l1_diff hp false queue [] cache g) in *.
  cbn [app] in H1. rewrite H1 in *.
  split; [exact H2 | split; [| split; [exact H3 | exact H4]]].
  assert (Hq : len queue = len taken + len (f_queue f))
    by (rewrite H2 at 1; apply len_app).
  pose proof (len_nonneg taken). pose proof (len_nonneg (f_queue f)).
  destruct H5 as [E | [E Hnil]]; rewrite E in Hl'.
  - lia.
  - rewrite Hnil, len_nil in Hq. lia.
Qed.

End FillOrder.

(** ** Pause, abort and failures in one pass *)

Section PassFacts.

Variable tensor : Type.
Variable l1_diff : tensor -> tensor -> Q.

(** Lines 228-256 leave the data side alone: whatever the reload and
    the fast path do, the flags [abort] and [pause], the sample queue,
    the cache, the model and the counters are as before, and both the
    change flag and the state request are clear afterwards. *)
Lemma prologue_keeps (sh : Shared tensor) (w : Worker tensor) :
  let '(sh1, w1, ev1) := reload_hparams sh w in
  let '(sh2, ev2) := serve_state_request sh1 w1 in
  abort sh2 = abort sh /\ pause sh2 = pause sh /\
  data_queue sh2 = data_queue sh /\
  change_hparams sh2 = false /\ state_request sh2 = false /\
  data_cache w1 = data_cache w /\ model w1 = model w /\
  iter_count w1 = iter_count w /\ stop_server w1 = stop_server w /\
  (change_hparams sh = false -> w1 = w /\ ev1 = []) /\
  Forall (fun e => match e with
                   | UpdatingWith _ _ | OptimStep
                   | KillStateServer TrainableUnit | Sleep _ => False
                   | _ => True
                   end) (ev1 ++ ev2) /\
  Forall (fun e => match e with KillStateServer _ => False | _ => True end) ev2.
Proof.
  unfold reload_hparams, serve_state_request, get_nowait, put_nowait.
  destruct (change_hparams sh) eqn:Hc; cbn;
    [destruct (q_items (hparams_queue sh)) as [| h rest]; cbn |];
    destruct (state_request sh) eqn:Hs; cbn;
    try (destruct (q_full (state_queue sh)); cbn);
    repeat split; auto; try discriminate; repeat constructor.
Qed.

(** X2.  A pass that finds [pause] set (and [abort] clear) takes no sample,
    touches neither cache nor model nor counters, hands nothing to the
    update step and ends by sleeping one second; the reload and the
    fast path of lines 228-256 have run before. *)
Theorem paused_pass_consumes_nothing
        (ck : bool) (g : Globals tensor) (sh : Shared tensor) (w : Worker tensor) :
  pause sh = true -> abort sh = false ->
  let r := train_iteration l1_diff ck g sh w in
  r_outcome r = Continue /\
  data_queue (r_shared r) = data_queue sh /\
  data_cache (r_worker r) = data_cache w /\
  model (r_worker r) = model w /\
  iter_count (r_worker r) = iter_count w /\
  r_globals r = g /\
  change_hparams (r_shared r) = false /\
  state_request (r_shared r) = false /\
  (forall B batch, ~ forwarded (r_events r) B batch) /\
  exists ev, r_events r = ev ++ [Sleep 1].
Proof.
  intros Hp Ha. cbv zeta. unfold train_iteration.
  pose proof (prologue_keeps sh w) as H.
  destruct (reload_hparams sh w) as [[sh1 w1] ev1].
  destruct (serve_state_request sh1 w1) as [sh2 ev2].
  destruct H as (H1 & H2 & H3 & H4 & H5 & H6 & H7 & H8 & H9 & _ & Hev & _).
  rewrite H1, Ha, H2, Hp. cbn.
  repeat split; auto.
  - intros B batch Hin. unfold forwarded in Hin.
    apply in_app_or in Hin. destruct Hin as [Hin | [Hin | []]]; [| discriminate].
    rewrite Forall_forall in Hev. apply (Hev _ Hin).
  - eexists. reflexivity.
Qed.

(** X3.  A pass that finds [abort] set ends the loop, whether [pause] is set
    or not: both stop events are set, the two servers are told to stop
    as the last acts of the pass, and no sample is taken, no batch
    handed on, no counter moved. *)
Theorem aborted_pass_breaks
        (ck : bool) (g : Globals tensor) (sh : Shared tensor) (w : Worker tensor) :
  abort sh = true ->
  let r := train_iteration l1_diff ck g sh w in
  r_outcome r = Break /\
  stop_server (r_worker r) = true /\
  optim_stop_server (r_worker r) = true /\
  data_queue (r_shared r) = data_queue sh /\
  data_cache (r_worker r) = data_cache w /\
  model (r_worker r) = model w /\
  iter_count (r_worker r) = iter_count w /\
  (forall B batch, ~ forwarded (r_events r) B batch) /\
  exists ev, r_events r
             = ev ++ [KillStateServer TrainableUnit; KillStateServer OptimizerState].
Proof.
  intros Ha. cbv zeta. unfold train_iteration.
  pose proof (prologue_keeps sh w) as H.
  destruct (reload_hparams sh w) as [[sh1 w1] ev1].
  destruct (serve_state_request sh1 w1) as [sh2 ev2].
  destruct H as (H1 & H2 & H3 & H4 & H5 & H6 & H7 & H8 & H9 & _ & Hev & _).
  rewrite H1, Ha. cbn.
  repeat split; auto.
  - intros B batch Hin. unfold forwarded in Hin.
    apply in_app_or in Hin.
    destruct Hin as [Hin | [Hin | [Hin | []]]]; try discriminate.
    rewrite Forall_forall in Hev. apply (Hev _ Hin).
  - eexists. reflexivity.
Qed.

(** X4.  An exception that leaves the batch assembly (lines 269-319, where
    only [queue.Empty] is caught) leaves the worker without the
    teardown: the stop events stay as they were and no state server is
    told to stop. *)
Theorem assembly_failure_skips_teardown
        (ck : bool) (g : Globals tensor) (sh : Shared tensor) (w : Worker tensor)
        (e : exn) :
  change_hparams sh = false -> abort sh = false -> pause sh = false ->
  f_exit (fill_batch l1_diff (hparams w) ck (q_items (data_queue sh)) []
                     (data_cache w) g) = FillRaised e ->
  let r := train_iteration l1_diff ck g sh w in
  r_outcome r = Raised e /\
  stop_server (r_worker r) = stop_server w /\
  optim_stop_server (r_worker r) = optim_stop_server w /\
  model (r_worker r) = model w /\
  (forall c, ~ In (KillStateServer c) (r_events r)) /\
  (forall B batch, ~ forwarded (r_events r) B batch).
Proof.
  intros Hc Ha Hp Hf. cbv zeta. unfold train_iteration.
  pose proof (prologue_keeps sh w) as H.
  destruct (reload_hparams sh w) as [[sh1 w1] ev1].
  destruct (serve_state_request sh1 w1) as [sh2 ev2].
  destruct H as (H1 & H2 & H3 & H4 & H5 & H6 & H7 & H8 & H9 & Hw & Hev & Hev2).
  destruct (Hw Hc) as [-> ->]. cbn [app] in *.
  rewrite H1, Ha, H2, Hp, H3, Hf. cbn.
  repeat split; auto.
  - intros c Hin. rewrite Forall_forall in Hev2. apply (Hev2 _ Hin).
  - intros B batch Hin. rewrite Forall_forall in Hev. apply (Hev _ Hin).
Qed.

End PassFacts.

Lemma paused_pass_consumes_nothing_witness :
  let sh := set_pause (push (ignited_shared Z) [sample_n 0; sample_n 1]) true in
  let w := fresh_worker Z (hparams_with 2 10) in
  pause sh = true /\ abort sh = false /\
  data_queue (r_shared (train_iteration dist1 false (module_globals Z) sh w))
  = data_queue sh.
Proof.
  cbv zeta.
  split; [reflexivity | split; [reflexivity |]].
  exact (proj1 (proj2
           (@paused_pass_consumes_nothing
              Z dist1 false (module_globals Z)
              (set_pause (push (ignited_shared Z) [sample_n 0; sample_n 1]) true)
              (fresh_worker Z (hparams_with 2 10)) eq_refl eq_refl))).
Defined.

Lemma aborted_pass_breaks_witness :
  let sh := set_abort (push (ignited_shared Z) [sample_n 0; sample_n 1]) in
  let w := fresh_worker Z (hparams_with 2 10) in
  abort sh = true /\
  r_outcome (train_iteration dist1 false (module_globals Z) sh w) = Break.
Proof.
  cbv zeta. split; [reflexivity |].
  exact (proj1
           (@aborted_pass_breaks
              Z dist1 false (module_globals Z)
              (set_abort (push (ignited_shared Z) [sample_n 0; sample_n 1]))
              (fresh_worker Z (hparams_with 2 10)) eq_refl)).
Defined.

Lemma assembly_failure_skips_teardown_witness :
  let sh := push (ignited_shared Z) [sample_n 0; sample_n 1] in
  let w := fresh_worker Z (hparams_with 2 10) in
  change_hparams sh = false /\ abort sh = false /\ pause sh = false /\
  f_exit (fill_batch dist1 (hparams w) true (q_items (data_queue sh)) []
                     (data_cache w) (module_globals Z))
  = FillRaised (NameError "data_cache") /\
  r_outcome (train_iteration dist1 true (module_globals Z) sh w)
  = Raised (NameError "data_cache").
Proof.
  cbv zeta.
  split; [reflexivity | split; [reflexivity | split; [reflexivity |]]].
  split; [reflexivity |].
  exact (proj1
           (@assembly_failure_skips_teardown
              Z dist1 true (module_globals Z)
              (push (ignited_shared Z) [sample_n 0; sample_n 1])
              (fresh_worker Z (hparams_with 2 10))
              (NameError "data_cache") eq_refl eq_refl eq_refl eq_refl)).
Defined.

Section IdleFacts.

Variable tensor : Type.
Variable l1_diff : tensor -> tensor -> Q.

(** X22.  With nothing to train on, the loop only waits: a pass that finds
    the data queue and the cache both empty (no flag set, a
    [batch_size] of one or more) sleeps a tenth of a second and goes
    round again; it hands no batch to the update step and leaves
    model, counters, cache and the module namespace as they were. *)
Theorem idle_pass_only_waits
        (ck : bool) (g : Globals tensor) (sh : Shared tensor) (w : Worker tensor) :
  change_hparams sh = false -> abort sh = false -> pause sh = false ->
  q_items (data_queue sh) = [] -> items (data_cache w) = [] ->
  1 <= batch_size (hparams w) ->
  let r := train_iteration l1_diff ck g sh w in
  r_outcome r = Continue /\
  r_worker r = w /\
  r_globals r = g /\
  q_items (data_queue (r_shared r)) = [] /\
  (forall B batch, ~ forwarded (r_events r) B batch) /\
  (forall c, ~ In (KillStateServer c) (r_events r)) /\
  exists ev, r_events r = ev ++ [Sleep (1 # 10)].
Proof.
  intros Hc Ha Hp Hq Hcache HB. cbv zeta. unfold train_iteration.
  pose proof (prologue_keeps sh w) as H.
  destruct (reload_hparams sh w) as [[sh1 w1] ev1].
  destruct (serve_state_request sh1 w1) as [sh2 ev2].
  destruct H as (H1 & H2 & H3 & H4 & H5 & H6 & H7 & H8 & H9 & Hw & Hev & Hev2).
  destruct (Hw Hc) as [-> ->]. cbn [app] in *.
  rewrite H1, Ha, H2, Hp, H3, Hq.
  assert (Hfill : fill_batch l1_diff (hparams w) ck [] [] (data_cache w) g
                  = mkFill QueueExhausted [] [] (data_cache w) g).
  { cbn [fill_batch]. rewrite len_nil.
    destruct (Z.ltb_spec 0 (batch_size (hparams w))); [reflexivity | lia]. }
  rewrite Hfill. cbv zeta. cbn [f_exit f_batch f_cache f_queue f_globals].
  unfold on_exhausted. rewrite Hcache, len_nil. cbn [Z.eqb andb].
  cbn [r_outcome r_worker r_globals r_shared r_events].
  split; [reflexivity |].
  split; [destruct w; reflexivity |].
  split; [reflexivity |].
  split; [reflexivity |].
  split; [| split].
  - intros B batch Hin. unfold forwarded in Hin.
    apply in_app_or in Hin. destruct Hin as [Hin | [Hin | []]]; [| discriminate].
    rewrite Forall_forall in Hev. apply (Hev _ Hin).
  - intros c Hin. apply in_app_or in Hin.
    destruct Hin as [Hin | [Hin | []]]; [| discriminate].
    rewrite Forall_forall in Hev2. apply (Hev2 _ Hin).
  - eexists. reflexivity.
Qed.

End IdleFacts.

Lemma idle_pass_only_waits_witness :
  let sh := ignited_shared Z in
  let w := fresh_worker Z (hparams_with 2 10) in
  change_hparams sh = false /\ abort sh = false /\ pause sh = false /\
  q_items (data_queue sh) = [] /\ items (data_cache w) = [] /\
  1 <= batch_size (hparams w) /\
  r_outcome (train_iteration dist1 false (module_globals Z) sh w) = Continue.
Proof.
  cbv zeta.
  assert (HB : 1 <= batch_size (hparams (fresh_worker Z (hparams_with 2 10))))
    by (simpl; lia).
  split; [reflexivity | split; [reflexivity | split; [reflexivity |]]].
  split; [reflexivity | split; [reflexivity | split; [exact HB |]]].
  exact (proj1
           (@idle_pass_only_waits
              Z dist1 false (module_globals Z) (ignited_shared Z)
              (fresh_worker Z (hparams_with 2 10))
              eq_refl eq_refl eq_refl eq_refl eq_refl HB)).
Defined.

(** ** Counters and the origin of samples *)

Section CountFacts.

Variable tensor : Type.
Variable l1_diff : tensor -> tensor -> Q.

(** X5.  A [batch_size] of zero or less: the fill loop does not run, the
    empty batch is handed on, unpacking the empty augmented batch
    raises ValueError, and the handler of line 352 stops both servers.
    No sample is taken. *)
Theorem nonpositive_batch_size_ends_the_worker
        (ck : bool) (g : Globals tensor) (sh : Shared tensor) (w : Worker tensor) :
  batch_size (hparams w) <= 0 ->
  change_hparams sh = false -> abort sh = false -> pause sh = false ->
  let r := train_iteration l1_diff ck g sh w in
  r_outcome r = Raised ValueError /\
  forwarded (r_events r) (batch_size (hparams w)) [] /\
  stop_server (r_worker r) = true /\
  optim_stop_server (r_worker r) = true /\
  data_queue (r_shared r) = data_queue sh /\
  data_cache (r_worker r) = data_cache w /\
  model (r_worker r) = model w.
Proof.
  intros HB Hc Ha Hp. cbv zeta. unfold train_iteration.
  pose proof (prologue_keeps sh w) as H.
  destruct (reload_hparams sh w) as [[sh1 w1] ev1].
  destruct (serve_state_request sh1 w1) as [sh2 ev2].
  destruct H as (H1 & H2 & H3 & H4 & H5 & H6 & H7 & H8 & H9 & Hw & Hev & Hev2).
  destruct (Hw Hc) as [-> ->]. cbn [app] in *.
  rewrite H1, Ha, H2, Hp, H3.
  assert (Hfill : fill_batch l1_diff (hparams w) ck (q_items (data_queue sh)) []
                             (data_cache w) g
                  = mkFill BatchFull (q_items (data_queue sh)) [] (data_cache w) g).
  { destruct (q_items (data_queue sh)) as [| [d l] q]; cbn [fill_batch];
      rewrite len_nil; destruct (Z.ltb_spec 0 (batch_size (hparams w)));
        try lia; reflexivity. }
  rewrite Hfill. cbn.
  repeat split; auto.
  - unfold forwarded. apply in_or_app. right. left. reflexivity.
  - rewrite ?H3. destruct (data_queue sh). reflexivity.
Qed.

Lemma optim_steps_in_app (a b : list (event (Sample tensor))) :
  optim_steps_in (a ++ b) = (optim_steps_in a + optim_steps_in b)%nat.
Proof. unfold optim_steps_in. rewrite filter_app, length_app. reflexivity. Qed.

Lemma optim_steps_in_none (l : list (event (Sample tensor))) :
  Forall (fun e => match e with
                   | UpdatingWith _ _ | OptimStep
                   | KillStateServer TrainableUnit | Sleep _ => False
                   | _ => True
                   end) l ->
  optim_steps_in l = 0%nat.
Proof.
  induction 1 as [| e l He _ IH]; [reflexivity |].
  unfold optim_steps_in in *. cbn [filter].
  destruct e; try contradiction; exact IH.
Qed.

Lemma prologue_optimizer (sh : Shared tensor) (w : Worker tensor) :
  (opt_steps (optim (snd (fst (reload_hparams sh w)))) <= opt_steps (optim w))%nat.
Proof.
  unfold reload_hparams, get_nowait.
  destruct (change_hparams sh); cbn; [| lia].
  destruct (q_items (hparams_queue sh)); cbn; lia.
Qed.

Lemma update_step_counts (w : Worker tensor) (batch : list (Sample tensor)) :
  let '(w3, evs, out) := update_step w batch in
  iter_count w3 = iter_count w + Z.of_nat (optim_steps_in evs) /\
  model w3 = (model w + optim_steps_in evs)%nat /\
  opt_steps (optim w3) = (opt_steps (optim w) + optim_steps_in evs)%nat.
Proof.
  unfold update_step. destruct batch; cbn; repeat split; lia.
Qed.

(** In one pass the iteration counter, the model and the optimizer
    move by the number of [optim.step()] calls of the pass. *)
Lemma pass_counts (ck : bool) (g : Globals tensor) (sh : Shared tensor)
      (w : Worker tensor) :
  let r := train_iteration l1_diff ck g sh w in
  iter_count (r_worker r) = iter_count w + Z.of_nat (optim_steps_in (r_events r)) /\
  model (r_worker r) = (model w + optim_steps_in (r_events r))%nat /\
  (opt_steps (optim (r_worker r))
   <= opt_steps (optim w) + optim_steps_in (r_events r))%nat.
Proof.
  cbv zeta. unfold train_iteration.
  pose proof (prologue_keeps sh w) as H.
  pose proof (prologue_optimizer sh w) as Ho.
  destruct (reload_hparams sh w) as [[sh1 w1] ev1]. cbn [fst snd] in Ho.
  destruct (serve_state_request sh1 w1) as [sh2 ev2].
  destruct H as (H1 & H2 & H3 & H4 & H5 & H6 & H7 & H8 & H9 & Hw & Hev & Hev2).
  pose proof (optim_steps_in_none Hev) as Hz.
  assert (Hproceed : forall c batch,
             let '(w3, evs, out) := update_step (with_cache w1 c) batch in
             iter_count w3 = iter_count w + Z.of_nat (optim_steps_in evs) /\
             model w3 = (model w + optim_steps_in evs)%nat /\
             (opt_steps (optim w3) <= opt_steps (optim w) + optim_steps_in evs)%nat).
  { intros c batch.
    pose proof (update_step_counts (with_cache w1 c) batch) as Hu.
    destruct (update_step (with_cache w1 c) batch) as [[w3 evs] out].
    cbn [with_cache iter_count model optim] in Hu.
    destruct Hu as (Hu1 & Hu2 & Hu3). rewrite Hu1, Hu2, Hu3, H7, H8.
    repeat split; lia. }
  cbv zeta.
  destruct (abort sh2);
    [cbn [r_worker r_events kill_both iter_count model optim];
     rewrite optim_steps_in_app, Hz; cbn; rewrite ?H7, ?H8; repeat split; lia |].
  destruct (pause sh2);
    [cbn [r_worker r_events kill_both iter_count model optim];
     rewrite optim_steps_in_app, Hz; cbn; rewrite ?H7, ?H8; repeat split; lia |].
  destruct (f_exit _).
  - specialize (Hproceed (f_cache (fill_batch l1_diff (hparams w1) ck
                            (q_items (data_queue sh2)) [] (data_cache w1) g))
                         (f_batch (fill_batch l1_diff (hparams w1) ck
                            (q_items (data_queue sh2)) [] (data_cache w1) g))).
    destruct (update_step _ _) as [[w3 evs] out].
    cbn [r_worker r_events]. rewrite optim_steps_in_app, Hz. exact Hproceed.
  - destruct (on_exhausted _ _ _).
    + cbn [r_worker r_events kill_both with_cache iter_count model optim];
        rewrite optim_steps_in_app, Hz; cbn; rewrite ?H7, ?H8; repeat split; lia.
    + specialize (Hproceed (f_cache (fill_batch l1_diff (hparams w1) ck
                              (q_items (data_queue sh2)) [] (data_cache w1) g))
                           (f_batch (fill_batch l1_diff (hparams w1) ck
                              (q_items (data_queue sh2)) [] (data_cache w1) g))).
      destruct (update_step _ _) as [[w3 evs] out].
      cbn [r_worker r_events]. rewrite optim_steps_in_app, Hz. exact Hproceed.
    + destruct (top_up _ _ _) as [cache' batch'].
      specialize (Hproceed cache' batch').
      unfold with_cache in *. cbn in *.
      destruct (update_step _ _) as [[w3 evs] out].
      cbn [r_worker r_events]. rewrite optim_steps_in_app, Hz. exact Hproceed.
    + cbn [r_worker r_events kill_both with_cache iter_count model optim];
        rewrite optim_steps_in_app, Hz; cbn; rewrite ?H7, ?H8; repeat split; lia.
  - cbn [r_worker r_events with_cache iter_count model optim].
    rewrite Hz, ?H7, ?H8. repeat split; lia.
Qed.

Lemma pass_steps_once (ck : bool) (g : Globals tensor) (sh : Shared tensor)
      (w : Worker tensor) :
  (optim_steps_in (r_events (train_iteration l1_diff ck g sh w)) <= 1)%nat.
Proof.
  unfold train_iteration.
  pose proof (prologue_keeps sh w) as H.
  destruct (reload_hparams sh w) as [[sh1 w1] ev1].
  destruct (serve_state_request sh1 w1) as [sh2 ev2].
  destruct H as (_ & _ & _ & _ & _ & _ & _ & _ & _ & _ & Hev & _).
  pose proof (optim_steps_in_none Hev) as Hz. cbv zeta.
  rewrite optim_steps_in_app in Hz.
  assert (Hu : forall (w' : Worker tensor) b,
             (optim_steps_in (snd (fst (update_step w' b))) <= 1)%nat).
  { intros w' b. destruct b; cbn; lia. }
  destruct (abort sh2);
    [cbn [r_events kill_both]; rewrite !optim_steps_in_app; cbn; lia |].
  destruct (pause sh2);
    [cbn [r_events]; rewrite !optim_steps_in_app; cbn; lia |].
  match goal with |- context [f_exit ?f] => destruct (f_exit f) end;
    try (match goal with
         | |- context [on_exhausted ?B ?b ?c] => destruct (on_exhausted B b c)
         end);
    try (match goal with
         | |- context [top_up ?B ?c ?b] => destruct (top_up B c b) as [? ?]
         end);
    try (match goal with
         | |- context [update_step ?w' ?b] =>
             pose proof (Hu w' b); destruct (update_step w' b) as [[? ?] ?]
         end);
    cbn [r_events kill_both fst snd] in *;
    rewrite ?optim_steps_in_app; cbn; lia.
Qed.

Lemma run_counts (ck : bool) (cmds : list (command tensor)) :
  forall s : System tensor,
    iter_count (sys_worker s) = Z.of_nat (optim_steps_in (sys_trace s)) /\
    model (sys_worker s) = optim_steps_in (sys_trace s) /\
    (opt_steps (optim (sys_worker s)) <= optim_steps_in (sys_trace s))%nat ->
    let s' := sys_run l1_diff ck cmds s in
    iter_count (sys_worker s') = Z.of_nat (optim_steps_in (sys_trace s')) /\
    model (sys_worker s') = optim_steps_in (sys_trace s') /\
    (opt_steps (optim (sys_worker s')) <= optim_steps_in (sys_trace s'))%nat.
Proof.
  induction cmds as [| c cmds IH]; intros s H; [exact H |].
  cbn [sys_run fold_left]. apply IH.
  destruct c; try exact H.
  cbn [sys_step]. destruct (sys_status s); try exact H.
  cbn [sys_worker sys_trace].
  pose proof (pass_counts ck (sys_globals s) (sys_shared s) (sys_worker s)) as Hp.
  cbv zeta in Hp. destruct Hp as (P1 & P2 & P3). destruct H as (I1 & I2 & I3).
  rewrite optim_steps_in_app. repeat split; lia.
Qed.

(** X6.  From the start of the worker on, through any run: [iter_count]
    is the number of [optim.step()] calls made so far, the model has
    absorbed exactly that many update steps, and the current optimizer
    at most that many (fewer after a hot reload). *)
Theorem iter_count_counts_optimizer_steps
        (ck : bool) (h : HParams) (s0 : System tensor)
        (cmds : list (command tensor)) :
  boot tensor h = Ok s0 ->
  let s := sys_run l1_diff ck cmds s0 in
  iter_count (sys_worker s) = Z.of_nat (optim_steps_in (sys_trace s)) /\
  model (sys_worker s) = optim_steps_in (sys_trace s) /\
  (opt_steps (optim (sys_worker s)) <= optim_steps_in (sys_trace s))%nat.
Proof.
  intros Hboot. apply run_counts.
  unfold boot, start_worker, bind in Hboot.
  destruct (new_deque [] (cache_size h)); [| discriminate].
  injection Hboot as <-. cbn. repeat split; lia.
Qed.

End CountFacts.

Lemma nonpositive_batch_size_ends_the_worker_witness :
  let sh := push (ignited_shared Z) [sample_n 0; sample_n 1] in
  let w := fresh_worker Z (hparams_with 0 10) in
  batch_size (hparams w) <= 0 /\
  change_hparams sh = false /\ abort sh = false /\ pause sh = false /\
  r_outcome (train_iteration dist1 false (module_globals Z) sh w)
  = Raised ValueError.
Proof.
  cbv zeta.
  assert (Hb : batch_size (hparams (fresh_worker Z (hparams_with 0 10))) <= 0)
    by (simpl; lia).
  split; [exact Hb |].
  split; [reflexivity | split; [reflexivity | split; [reflexivity |]]].
  exact (proj1
           (@nonpositive_batch_size_ends_the_worker
              Z dist1 false (module_globals Z)
              (push (ignited_shared Z) [sample_n 0; sample_n 1])
              (fresh_worker Z (hparams_with 0 10)) Hb eq_refl eq_refl eq_refl)).
Defined.

Lemma iter_count_counts_optimizer_steps_witness :
  let cmds := [DoPush [sample_n 0; sample_n 1; sample_n 2]; Iterate; Iterate] in
  let s := sys_run dist1 false cmds (fresh_system Z (hparams_with 2 10)) in
  boot Z (hparams_with 2 10) = Ok (fresh_system Z (hparams_with 2 10)) /\
  iter_count (sys_worker s) = Z.of_nat (optim_steps_in (sys_trace s)).
Proof.
  cbv zeta. split; [reflexivity |].
  exact (proj1
           (@iter_count_counts_optimizer_steps
              Z dist1 false (hparams_with 2 10) (fresh_system Z (hparams_with 2 10))
              [DoPush [sample_n 0; sample_n 1; sample_n 2]; Iterate; Iterate]
              eq_refl)).
Defined.

(** ** Where the samples of a batch come from *)

Section OriginFacts.

Variable tensor : Type.
Variable l1_diff : tensor -> tensor -> Q.

Lemma append_incl (A : Type) (d : deque A) (x : A) :
  incl (items (append d x)) (items d ++ [x]).
Proof.
  unfold append. cbn [items].
  destruct (maxlen d <? len (items d ++ [x])); [| apply incl_refl].
  destruct (items d ++ [x]) as [| y l]; [apply incl_refl |].
  cbn [tl]. apply incl_tl, incl_refl.
Qed.

Lemma fill_batch_incl (hp : HParams) (ck : bool) (queue : list (Sample tensor)) :
  forall batch cache g,
    let f := fill_batch l1_diff hp ck queue batch cache g in
    incl (f_batch f) (batch ++ queue) /\
    incl (items (f_cache f)) (items cache ++ queue) /\
    incl (f_queue f) queue.
Proof.
  induction queue as [| [data labels] queue IH]; intros batch cache g;
    cbv zeta; cbn [fill_batch].
  - destruct (len batch <? batch_size hp); cbn [f_batch f_cache f_queue];
      rewrite !app_nil_r; repeat split; apply incl_refl.
  - destruct (len batch <? batch_size hp); cbn [f_batch f_cache f_queue];
      [| repeat split;
         [apply incl_appl | apply incl_appl |]; apply incl_refl].
    assert (Hstep : forall b c g',
               incl b (batch ++ (data, labels) :: queue) ->
               incl (items c) (items cache ++ (data, labels) :: queue) ->
               let f := fill_batch l1_diff hp ck queue b c g' in
               incl (f_batch f) (batch ++ (data, labels) :: queue) /\
               incl (items (f_cache f)) (items cache ++ (data, labels) :: queue) /\
               incl (f_queue f) ((data, labels) :: queue)).
    { intros b c g' Hb Hc. destruct (IH b c g') as (H1 & H2 & H3).
      repeat split.
      - eapply incl_tran; [exact H1 |]. apply incl_app; [exact Hb |].
        apply incl_appr, incl_tl, incl_refl.
      - eapply incl_tran; [exact H2 |]. apply incl_app; [exact Hc |].
        apply incl_appr, incl_tl, incl_refl.
      - apply incl_tl. exact H3. }
    assert (Hb1 : incl (batch ++ [(data, labels)])
                       (batch ++ (data, labels) :: queue)).
    { apply incl_app; [apply incl_appl, incl_refl |].
      apply incl_appr. intros x [<- | []]. left. reflexivity. }
    assert (Hb0 : incl batch (batch ++ (data, labels) :: queue))
      by (apply incl_appl, incl_refl).
    assert (Hc0 : incl (items cache) (items cache ++ (data, labels) :: queue))
      by (apply incl_appl, incl_refl).
    destruct ck.
    + destruct (_cache_keeping l1_diff hp g (data, labels)) as [[[|] g'] | e];
        cbn [f_batch f_cache f_queue].
      * apply Hstep; assumption.
      * apply Hstep; assumption.
      * repeat split; [exact Hb0 | exact Hc0 | apply incl_tl, incl_refl].
    + apply Hstep; [exact Hb1 |].
      eapply incl_tran; [apply append_incl |].
      apply incl_app; [exact Hc0 |].
      apply incl_appr. intros x [<- | []]. left. reflexivity.
Qed.

Lemma top_up_loop_incl (n : nat) (B : Z) :
  forall (cache : deque (Sample tensor)) (batch : list (Sample tensor)),
    incl (snd (top_up_loop n B cache batch)) (batch ++ items cache) /\
    incl (items (fst (top_up_loop n B cache batch))) (items cache).
Proof.
  induction n as [| n IH]; intros cache batch; cbn [top_up_loop].
  - cbn. split; [apply incl_appl |]; apply incl_refl.
  - destruct (items cache) as [| x rest] eqn:Hi.
    + cbn. rewrite Hi. split; [apply incl_appl |]; apply incl_refl.
    + destruct (len batch <? B).
      * destruct (IH (append (mkDeque rest (maxlen cache)) x) (batch ++ [x]))
          as [H1 H2].
        assert (Ha : incl (items (append (mkDeque rest (maxlen cache)) x))
                          (x :: rest)).
        { eapply incl_tran; [apply append_incl |]. cbn [items].
          intros y Hy. apply in_app_or in Hy.
          destruct Hy as [Hy | [<- | []]]; [right; exact Hy | left; reflexivity]. }
        split.
        -- eapply incl_tran; [exact H1 |].
           apply incl_app.
           ++ apply incl_app; [apply incl_appl, incl_refl |].
              apply incl_appr. intros y [<- | []]. left. reflexivity.
           ++ apply incl_appr. exact Ha.
        -- eapply incl_tran; [exact H2 | exact Ha].
      * cbn. rewrite Hi. split; [apply incl_appl |]; apply incl_refl.
Qed.

(** In one pass, whatever is handed to the update step, left in the
    cache or left in the queue was in the cache or in the queue
    before. *)
Lemma pass_incl (ck : bool) (g : Globals tensor) (sh : Shared tensor)
      (w : Worker tensor) :
  let r := train_iteration l1_diff ck g sh w in
  let before := items (data_cache w) ++ q_items (data_queue sh) in
  (forall B batch, forwarded (r_events r) B batch -> incl batch before) /\
  incl (items (data_cache (r_worker r))) before /\
  incl (q_items (data_queue (r_shared r))) before.
Proof.
  cbv zeta. unfold train_iteration.
  pose proof (prologue_keeps sh w) as H.
  destruct (reload_hparams sh w) as [[sh1 w1] ev1].
  destruct (serve_state_request sh1 w1) as [sh2 ev2].
  destruct H as (H1 & H2 & H3 & H4 & H5 & H6 & H7 & H8 & H9 & Hw & Hev & Hev2).
  set (before := items (data_cache w) ++ q_items (data_queue sh)).
  assert (Hq : incl (q_items (data_queue sh)) before)
    by (apply incl_appr, incl_refl).
  assert (Hc : incl (items (data_cache w)) before)
    by (apply incl_appl, incl_refl).
  assert (Hplus : forall evs B batch,
             In (UpdatingWith B batch) ((ev1 ++ ev2) ++ evs) ->
             In (UpdatingWith B batch) evs).
  { intros evs B batch Hin. apply in_app_or in Hin.
    destruct Hin as [Hin | Hin]; [| exact Hin].
    rewrite Forall_forall in Hev. destruct (Hev _ Hin). }
  cbv zeta. unfold forwarded.
  destruct (abort sh2).
  { cbn. rewrite H6, H3. repeat split; auto.
    intros B batch Hin. apply Hplus in Hin.
    destruct Hin as [E | [E | []]]; discriminate. }
  destruct (pause sh2).
  { cbn. rewrite H6, H3. repeat split; auto.
    intros B batch Hin. apply Hplus in Hin.
    destruct Hin as [E | []]; discriminate. }
  pose proof (fill_batch_incl (hparams w1) ck (q_items (data_queue sh2)) []
                              (data_cache w1) g) as Hf.
  cbv zeta in Hf. rewrite H3, H6 in *. cbn [app] in Hf.
  set (f := fill_batch l1_diff (hparams w1) ck (q_items (data_queue sh)) []
                       (data_cache w) g) in *.
  destruct Hf as (F1 & F2 & F3).
  assert (Fb : incl (f_batch f) before)
    by (eapply incl_tran; [exact F1 | exact Hq]).
  assert (Fq : incl (f_queue f) before)
    by (eapply incl_tran; [exact F3 | exact Hq]).
  assert (Hproceed : forall c batch,
             incl batch before -> incl (items c) before ->
             let '(w3, evs, out) := update_step (with_cache w1 c) batch in
             (forall B b, In (UpdatingWith B b) ((ev1 ++ ev2) ++ evs) ->
                          incl b before) /\
             incl (items (data_cache w3)) before).
  { intros c batch Hb Hc'.
    pose proof (update_step_keeps (with_cache w1 c) batch) as [Hk1 Hk2].
    destruct (update_step (with_cache w1 c) batch) as [[w3 evs] out].
    cbn [fst snd] in *. split.
    - intros B b Hin. apply Hplus in Hin. destruct (Hk2 B b Hin) as [_ ->].
      exact Hb.
    - rewrite Hk1. exact Hc'. }
  destruct (f_exit f).
  - specialize (Hproceed (f_cache f) (f_batch f) Fb F2).
    destruct (update_step _ _) as [[w3 evs] out]. cbn.
    destruct Hproceed as [P1 P2]. repeat split; auto.
  - destruct (on_exhausted _ _ _).
    + cbn. repeat split; auto.
      intros B b Hin. apply Hplus in Hin. destruct Hin as [E | []]; discriminate.
    + specialize (Hproceed (f_cache f) (f_batch f) Fb F2).
      destruct (update_step _ _) as [[w3 evs] out]. cbn.
      destruct Hproceed as [P1 P2]. repeat split; auto.
    + pose proof (top_up_loop_incl
                    (Z.to_nat (batch_size (hparams w1) - len (f_batch f)))
                    (batch_size (hparams w1)) (f_cache f) (f_batch f))
        as [T1 T2].
      fold (top_up (batch_size (hparams w1)) (f_cache f) (f_batch f)) in T1, T2.
      destruct (top_up _ _ _) as [cache' batch']. cbn [fst snd] in T1, T2.
      assert (Tb : incl batch' before).
      { eapply incl_tran; [exact T1 |]. apply incl_app; [exact Fb | exact F2]. }
      assert (Tc : incl (items cache') before)
        by (eapply incl_tran; [exact T2 | exact F2]).
      specialize (Hproceed cache' batch' Tb Tc).
      unfold with_cache in *. cbn in *.
      destruct (update_step _ _) as [[w3 evs] out]. cbn.
      destruct Hproceed as [P1 P2]. repeat split; auto.
    + cbn. repeat split; auto.
      intros B b Hin. apply Hplus in Hin.
      destruct Hin as [E | [E | []]]; discriminate.
  - cbn. repeat split; auto.
    intros B b Hin. rewrite Forall_forall in Hev. destruct (Hev _ Hin).
Qed.

Lemma run_incl (ck : bool) (cmds : list (command tensor)) :
  forall (s : System tensor) (pushed : list (Sample tensor)),
    (forall B batch, forwarded (sys_trace s) B batch -> incl batch pushed) ->
    incl (items (data_cache (sys_worker s))) pushed ->
    incl (q_items (data_queue (sys_shared s))) pushed ->
    forall B batch,
      forwarded (sys_trace (sys_run l1_diff ck cmds s)) B batch ->
      incl batch (pushed ++ pushed_by cmds).
Proof.
  induction cmds as [| c cmds IH]; intros s pushed Hf Hc Hq B batch Hin.
  - cbn in *. rewrite app_nil_r. eapply Hf; exact Hin.
  - cbn [sys_run fold_left] in Hin. cbn [pushed_by flat_map].
    fold (pushed_by cmds).
    assert (Hnext : forall s1 extra,
               (forall B batch, forwarded (sys_trace s1) B batch ->
                                incl batch (pushed ++ extra)) ->
               incl (items (data_cache (sys_worker s1))) (pushed ++ extra) ->
               incl (q_items (data_queue (sys_shared s1))) (pushed ++ extra) ->
               forwarded (sys_trace (sys_run l1_diff ck cmds s1)) B batch ->
               incl batch (pushed ++ extra ++ pushed_by cmds)).
    { intros s1 extra F1 F2 F3 F4. rewrite app_assoc.
      eapply IH; eassumption. }
    assert (Hsame : forall f : Shared tensor -> Shared tensor,
               (forall sh, data_queue (f sh) = data_queue sh) ->
               forwarded (sys_trace (sys_run l1_diff ck cmds (on_shared f s))) B batch ->
               incl batch (pushed ++ [] ++ pushed_by cmds)).
    { intros f Hdq Hin'. apply (Hnext (on_shared f s)); rewrite ?app_nil_r; auto.
      cbn. rewrite Hdq. exact Hq. }
    destruct c; cbn [sys_step] in Hin.
    + apply (Hnext (on_shared (fun sh => push sh samples) s)); auto.
      * intros B' b' F. apply incl_appl. eapply Hf; exact F.
      * apply incl_appl. exact Hc.
      * cbn. apply incl_app; [apply incl_appl; exact Hq | apply incl_appr, incl_refl].
    + apply (Hsame (fun sh => push_hparams sh h)); auto.
    + apply (Hsame (fun sh => set_pause sh true)); auto.
    + apply (Hsame (fun sh => set_pause sh false)); auto.
    + apply (Hsame (set_request TrainableUnit)); auto.
    + apply (Hsame (fun sh => snd (fst (_drain_state_queue TrainableUnit sh))));
        auto.
    + apply (Hsame (@set_abort tensor)); auto.
    + destruct (sys_status s).
      * pose proof (pass_incl ck (sys_globals s) (sys_shared s) (sys_worker s))
          as (P1 & P2 & P3).
        cbv zeta in P1, P2, P3.
        assert (Hbefore : incl (items (data_cache (sys_worker s))
                                ++ q_items (data_queue (sys_shared s))) pushed)
          by (apply incl_app; assumption).
        eapply Hnext with (extra := []); [| | | exact Hin];
          rewrite ?app_nil_r; cbn [sys_trace sys_worker sys_shared].
        -- intros B' b' F. unfold forwarded in F. apply in_app_or in F.
           destruct F as [F | F]; [eapply Hf; exact F |].
           eapply incl_tran; [eapply P1; exact F | exact Hbefore].
        -- eapply incl_tran; [exact P2 | exact Hbefore].
        -- eapply incl_tran; [exact P3 | exact Hbefore].
      * apply (Hnext s []); rewrite ?app_nil_r; auto.
      * apply (Hnext s []); rewrite ?app_nil_r; auto.
Qed.

(** X7.  The worker trains on nothing but what was pushed: through any run
    from the start, every sample of every batch handed to the update
    step is one of the samples pushed by the run. *)
Theorem batches_hold_pushed_samples_only
        (ck : bool) (h : HParams) (s0 : System tensor)
        (cmds : list (command tensor)) (B : Z) (batch : list (Sample tensor)) :
  boot tensor h = Ok s0 ->
  forwarded (sys_trace (sys_run l1_diff ck cmds s0)) B batch ->
  incl batch (pushed_by cmds).
Proof.
  intros Hboot Hin.
  change (pushed_by cmds) with ([] ++ pushed_by cmds).
  eapply run_incl; [| | | exact Hin];
    unfold boot, start_worker, bind, new_deque in Hboot;
    destruct (cache_size h <? 0); try discriminate;
    injection Hboot as <-; cbn.
  - intros B' b' [].
  - apply incl_refl.
  - apply incl_refl.
Qed.

End OriginFacts.

Lemma batches_hold_pushed_samples_only_witness :
  let cmds := [DoPush [sample_n 0; sample_n 1; sample_n 2]; Iterate; Iterate] in
  boot Z (hparams_with 2 10) = Ok (fresh_system Z (hparams_with 2 10)) /\
  forwarded (sys_trace (sys_run dist1 false cmds
                                (fresh_system Z (hparams_with 2 10))))
            2 [sample_n 2; sample_n 0] /\
  incl [sample_n 2; sample_n 0] (pushed_by cmds).
Proof.
  cbv zeta.
  assert (Hin : forwarded
    (sys_trace
       (sys_run dist1 false
                [DoPush [sample_n 0; sample_n 1; sample_n 2]; Iterate; Iterate]
                (fresh_system Z (hparams_with 2 10))))
    2 [sample_n 2; sample_n 0]).
  { unfold forwarded. vm_compute. do 6 right. left. reflexivity. }
  split; [reflexivity | split; [exact Hin |]].
  exact (@batches_hold_pushed_samples_only
           Z dist1 false (hparams_with 2 10) (fresh_system Z (hparams_with 2 10))
           [DoPush [sample_n 0; sample_n 1; sample_n 2]; Iterate; Iterate]
           2 [sample_n 2; sample_n 0] eq_refl Hin).
Defined.

(** ** The controller and the worker together *)

Section TogetherFacts.

Variable tensor : Type.
Variable l1_diff : tensor -> tensor -> Q.




Lemma pushes_collapse (ck : bool) (hs : list HParams) :
  forall (s : System tensor) (h : HParams),
    sys_run l1_diff ck (map DoPushHparams (hs ++ [h])) s
    = on_shared (fun sh => push_hparams sh h) s.
Proof.
  induction hs as [| h0 hs IH]; intros s h; [reflexivity |].
  cbn [app map sys_run fold_left]. cbn [sys_step].
  change (fold_left (fun (s0 : System tensor) (c : command tensor) =>
                       sys_step l1_diff ck c s0)
                    (map DoPushHparams (hs ++ [h]))
                    (on_shared (fun sh => push_hparams sh h0) s))
    with (sys_run l1_diff ck (map DoPushHparams (hs ++ [h]))
                  (on_shared (fun sh => push_hparams sh h0) s)).
  rewrite IH. reflexivity.
Qed.

(** X9.  A burst of hot reloads costs one rebuild: however many records are
    pushed before the worker's next pass, the pass fetches only the
    last one, works under it, and starts one new optimizer server. *)
Theorem last_pushed_hyperparameters_win
        (ck : bool) (s : System tensor) (hs : list HParams) (h : HParams) :
  sys_status s = Continue ->
  let s' := sys_run l1_diff ck (map DoPushHparams (hs ++ [h]) ++ [Iterate]) s in
  hparams (sys_worker s') = h /\
  optim_servers (sys_worker s') = S (optim_servers (sys_worker s)) /\
  q_items (hparams_queue (sys_shared s')) = [] /\
  change_hparams (sys_shared s') = false /\
  exists evs,
    sys_trace s' = sys_trace s ++ evs /\
    forall h', In (FetchedHparams h') evs -> h' = h.
Proof.
  intros Hst. cbv zeta. unfold sys_run. rewrite fold_left_app.
  fold (sys_run l1_diff ck (map DoPushHparams (hs ++ [h])) s).
  rewrite pushes_collapse. cbn [fold_left sys_step on_shared sys_status
                                 sys_globals sys_shared sys_worker sys_trace].
  rewrite Hst. cbn [sys_worker sys_shared sys_trace].
  pose proof (train_iteration_after_reload l1_diff ck (sys_globals s)
                (push_hparams (sys_shared s) h) (sys_worker s)) as H.
  assert (Hreload :
            reload_hparams (push_hparams (sys_shared s) h) (sys_worker s)
            = (mkShared (data_queue (sys_shared s)) (state_queue (sys_shared s))
                        (optimizer_queue (sys_shared s))
                        (mkQueue [] (q_maxsize (hparams_queue (sys_shared s))))
                        (abort (sys_shared s)) (pause (sys_shared s)) false
                        (state_request (sys_shared s))
                        (optimizer_state_request (sys_shared s)),
               mkWorker h (build_criterion h) (build_optimizer h)
                        (model (sys_worker s)) (data_cache (sys_worker s))
                        (iter_count (sys_worker s)) (stop_server (sys_worker s))
                        false (S (optim_servers (sys_worker s))),
               [ClearChangeHparams; FetchedHparams h;
                KillStateServer OptimizerState;
                BuiltCriterion (build_criterion h);
                BuiltOptimizer (build_optimizer h);
                StartStateServer OptimizerState])) by reflexivity.
  rewrite Hreload in H. cbv zeta in H.
  cbn [hparams criterion optim_servers change_hparams hparams_queue] in H.
  destruct H as ((evs & He & Hall) & H1 & _ & H3 & _ & _ & _ & H7 & H8).
  split; [exact H1 | split; [exact H3 | split; [rewrite H8; reflexivity |]]].
  split; [exact H7 |].
  eexists. split; [reflexivity |].
  intros h' Hin. rewrite He in Hin.
  destruct Hin as [E | [E | Hin]]; [discriminate | congruence |].
  do 4 (destruct Hin as [E | Hin]; [discriminate |]).
  rewrite Forall_forall in Hall. destruct (Hall _ Hin) as [Hre _].
  discriminate.
Qed.

End TogetherFacts.


Lemma last_pushed_hyperparameters_win_witness :
  let s := fresh_system Z (hparams_with 2 10) in
  sys_status s = Continue /\
  hparams (sys_worker
             (sys_run dist1 false
                (map DoPushHparams ([hparams_with 3 10; hparams_with 4 10]
                                      ++ [hparams_with 5 10]) ++ [Iterate]) s))
  = hparams_with 5 10.
Proof.
  cbv zeta. split; [reflexivity |].
  exact (proj1
           (@last_pushed_hyperparameters_win
              Z dist1 false (fresh_system Z (hparams_with 2 10))
              [hparams_with 3 10; hparams_with 4 10] (hparams_with 5 10)
              eq_refl)).
Defined.

(** ** Pausing loses nothing *)

Section PauseFacts.

Variable tensor : Type.
Variable l1_diff : tensor -> tensor -> Q.

Lemma set_pause_same (sh : Shared tensor) :
  set_pause sh (pause sh) = sh.
Proof. destruct sh. reflexivity. Qed.

Lemma set_pause_twice (sh : Shared tensor) (a b : bool) :
  set_pause (set_pause sh a) b = set_pause sh b.
Proof. reflexivity. Qed.

Lemma prologue_set_pause (sh : Shared tensor) (w : Worker tensor) (b : bool) :
  reload_hparams (set_pause sh b) w
  = (set_pause (fst (fst (reload_hparams sh w))) b,
     snd (fst (reload_hparams sh w)), snd (reload_hparams sh w)) /\
  forall (sh1 : Shared tensor) (w1 : Worker tensor),
    serve_state_request (set_pause sh1 b) w1
    = (set_pause (fst (serve_state_request sh1 w1)) b,
       snd (serve_state_request sh1 w1)).
Proof.
  split.
  - unfold reload_hparams, get_nowait. cbn [set_pause change_hparams hparams_queue].
    destruct (change_hparams sh); [| reflexivity].
    destruct (q_items (hparams_queue sh)); reflexivity.
  - intros sh1 w1. unfold serve_state_request, put_nowait, q_full.
    cbn [set_pause state_request state_queue].
    destruct (state_request sh1); [| reflexivity].
    destruct (_ && _); reflexivity.
Qed.

Lemma prologue_pause (sh : Shared tensor) (w : Worker tensor) :
  pause (fst (serve_state_request (fst (fst (reload_hparams sh w)))
                                  (snd (fst (reload_hparams sh w)))))
  = pause sh.
Proof.
  pose proof (prologue_keeps sh w) as H.
  destruct (reload_hparams sh w) as [[sh1 w1] ev1]. cbn [fst snd].
  destruct (serve_state_request sh1 w1) as [sh2 ev2]. cbn [fst snd].
  apply H.
Qed.

(** Running lines 228-256 a second time changes nothing. *)
Lemma pass_from_prologue (ck : bool) (g : Globals tensor) (sh : Shared tensor)
      (w : Worker tensor) :
  let sh2 := fst (serve_state_request (fst (fst (reload_hparams sh w)))
                                      (snd (fst (reload_hparams sh w)))) in
  let w1 := snd (fst (reload_hparams sh w)) in
  let r := train_iteration l1_diff ck g sh w in
  let r' := train_iteration l1_diff ck g sh2 w1 in
  r_worker r = r_worker r' /\ r_shared r = r_shared r' /\
  r_globals r = r_globals r' /\ r_outcome r = r_outcome r'.
Proof.
  cbv zeta.
  pose proof (prologue_keeps sh w) as H.
  destruct (reload_hparams sh w) as [[sh1 w1] ev1] eqn:E1. cbn [fst snd].
  destruct (serve_state_request sh1 w1) as [sh2 ev2] eqn:E2. cbn [fst snd].
  destruct H as (_ & _ & _ & H4 & H5 & _).
  assert (E : train_iteration l1_diff ck g sh2 w1
              = let ev := @nil (event (Sample tensor)) ++ [] in
                if abort sh2 then
                  let '(w', kills) := kill_both w1 in
                  mkIter g sh2 w' (ev ++ kills) Break
                else if pause sh2 then
                  mkIter g sh2 w1 (ev ++ [Sleep 1]) Continue
                else
                  let B := batch_size (hparams w1) in
                  let f := fill_batch l1_diff (hparams w1) ck
                             (q_items (data_queue sh2)) [] (data_cache w1) g in
                  let sh' := with_data_queue sh2 (f_queue f) in
                  let w1' := with_cache w1 (f_cache f) in
                  let g' := f_globals f in
                  let proceed (w2 : Worker tensor) (batch : list (Sample tensor)) :=
                    let '(w3, evs, out) := update_step w2 batch in
                    mkIter g' sh' w3 (ev ++ evs) out in
                  match f_exit f with
                  | FillRaised e => mkIter g' sh' w1' ev (Raised e)
                  | BatchFull => proceed w1' (f_batch f)
                  | QueueExhausted =>
                      match on_exhausted B (f_batch f) (f_cache f) with
                      | TryAgain => mkIter g' sh' w1' (ev ++ [Sleep (1 # 10)]) Continue
                      | NothingToDo => proceed w1' (f_batch f)
                      | TopUp =>
                          let '(cache', batch') := top_up B (f_cache f) (f_batch f) in
                          proceed (with_cache w1' cache') batch'
                      | Fatal =>
                          let '(w', kills) := kill_both w1' in
                          mkIter g' sh' w' (ev ++ kills) (Raised RuntimeError)
                      end
                  end).
  { unfold train_iteration, reload_hparams, serve_state_request.
    rewrite H4, H5. reflexivity. }
  rewrite E. clear E. unfold train_iteration. rewrite E1, E2. cbv zeta.
  destruct (abort sh2); [cbn; auto |].
  destruct (pause sh2); [cbn; auto |].
  match goal with |- context [f_exit ?f] => destruct (f_exit f) end;
    try (match goal with
         | |- context [on_exhausted ?B ?b ?c] => destruct (on_exhausted B b c)
         end);
    try (match goal with
         | |- context [top_up ?B ?c ?b] => destruct (top_up B c b) as [? ?]
         end);
    try (match goal with
         | |- context [update_step ?w' ?b] =>
             destruct (update_step w' b) as [[? ?] ?]
         end);
    cbn; auto.
Qed.

(** A paused pass leaves the system as lines 228-256 left it. *)
Lemma paused_pass_state (ck : bool) (g : Globals tensor) (sh : Shared tensor)
      (w : Worker tensor) :
  pause sh = true -> abort sh = false ->
  let r := train_iteration l1_diff ck g sh w in
  r_worker r = snd (fst (reload_hparams sh w)) /\
  r_shared r = fst (serve_state_request (fst (fst (reload_hparams sh w)))
                                        (snd (fst (reload_hparams sh w)))) /\
  r_globals r = g /\ r_outcome r = Continue.
Proof.
  intros Hp Ha. cbv zeta. unfold train_iteration.
  pose proof (prologue_keeps sh w) as H.
  destruct (reload_hparams sh w) as [[sh1 w1] ev1]. cbn [fst snd].
  destruct (serve_state_request sh1 w1) as [sh2 ev2]. cbn [fst snd].
  destruct H as (H1 & H2 & _).
  rewrite H1, Ha, H2, Hp. cbn. auto.
Qed.

Lemma paused_system_rests (ck : bool) (n : nat) :
  forall s : System tensor,
    change_hparams (sys_shared s) = false ->
    state_request (sys_shared s) = false ->
    pause (sys_shared s) = true -> abort (sys_shared s) = false ->
    same_state (sys_run l1_diff ck (repeat Iterate n) s) s.
Proof.
  induction n as [| n IH]; intros s Hc Hs Hp Ha; [repeat split |].
  cbn [repeat sys_run fold_left].
  fold (sys_run l1_diff ck (repeat Iterate n) (sys_step l1_diff ck Iterate s)).
  assert (Hstep : same_state (sys_step l1_diff ck Iterate s) s).
  { cbn [sys_step]. destruct (sys_status s) eqn:Est;
      [| repeat split; auto | repeat split; auto].
    destruct (paused_pass_state ck (sys_globals s) (sys_shared s) (sys_worker s)
                                Hp Ha) as (P1 & P2 & P3 & P4).
    unfold same_state. cbn [sys_worker sys_shared sys_globals sys_status].
    rewrite P1, P2, P3, P4, Est.
    unfold reload_hparams, serve_state_request. rewrite Hc. cbn [fst snd].
    rewrite Hs. cbn. auto. }
  destruct Hstep as (S1 & S2 & S3 & S4).
  destruct (IH (sys_step l1_diff ck Iterate s)) as (I1 & I2 & I3 & I4);
    try (rewrite S2; assumption).
  repeat split; congruence.
Qed.

Lemma sys_step_same_state (ck : bool) (c : command tensor) (a b : System tensor) :
  same_state a b ->
  same_state (sys_step l1_diff ck c a) (sys_step l1_diff ck c b).
Proof.
  intros (H1 & H2 & H3 & H4).
  destruct a as [ga sa wa ta tra], b as [gb sb wb tb trb].
  cbn [sys_worker sys_shared sys_globals sys_status] in *. subst.
  destruct c; cbn [sys_step]; unfold on_shared, same_state;
    cbn [sys_worker sys_shared sys_globals sys_status]; auto.
  destruct tb; cbn [sys_worker sys_shared sys_globals sys_status]; auto.
Qed.

(** X10.  Pausing is transparent for the data: from a state with neither
    [pause] nor [abort] set, pausing, letting the worker make any
    number of passes, resuming and making one more pass leaves worker,
    cache, queues, flags and status exactly as the one pass alone
    would: no sample is taken or lost while paused, and after the
    resume the assembly goes on from the same queue and cache. *)
Theorem pause_and_resume_lose_nothing
        (ck : bool) (s : System tensor) (n : nat) :
  pause (sys_shared s) = false -> abort (sys_shared s) = false ->
  same_state
    (sys_run l1_diff ck ([DoPause] ++ repeat Iterate n ++ [DoResume; Iterate]) s)
    (sys_run l1_diff ck [Iterate] s).
Proof.
  intros Hp Ha.
  assert (Hres : forall x : System tensor,
             sys_run l1_diff ck ([DoPause] ++ repeat Iterate n ++ [DoResume; Iterate]) x
             = sys_step l1_diff ck Iterate
                 (sys_step l1_diff ck DoResume
                    (sys_run l1_diff ck (repeat Iterate n)
                             (sys_step l1_diff ck DoPause x)))).
  { intros x. unfold sys_run. cbn [app fold_left].
    rewrite fold_left_app. reflexivity. }
  rewrite Hres. clear Hres. cbn [sys_run fold_left].
  destruct n as [| n].
  - (* no pass while paused *)
    cbn [repeat sys_run fold_left].
    apply sys_step_same_state.
    cbn [sys_step]. unfold on_shared, same_state.
    cbn [sys_worker sys_shared sys_globals sys_status].
    rewrite set_pause_twice, <- Hp, set_pause_same. auto.
  - destruct (sys_status s) eqn:Est.
    + (* the first paused pass runs lines 228-256; the others rest *)
      set (sp := sys_step l1_diff ck DoPause s).
      set (s1 := sys_step l1_diff ck Iterate sp).
      assert (Hsp : pause (sys_shared sp) = true /\ abort (sys_shared sp) = false)
        by (cbn; auto).
      destruct Hsp as [Hpp Hap].
      pose proof (paused_pass_state ck (sys_globals sp) (sys_shared sp)
                                    (sys_worker sp) Hpp Hap) as (P1 & P2 & P3 & P4).
      pose proof (prologue_keeps (sys_shared sp) (sys_worker sp)) as K.
      destruct (prologue_set_pause (sys_shared s) (sys_worker s) true) as [Q1 Q2].
      change (sys_shared sp) with (set_pause (sys_shared s) true) in *.
      change (sys_worker sp) with (sys_worker s) in *.
      change (sys_globals sp) with (sys_globals s) in *.
      rewrite Q1 in *. cbn [fst snd] in *. rewrite Q2 in *. cbn [fst snd] in *.
      destruct K as (K1 & K2 & _ & K4 & K5 & _).
      set (w1 := snd (fst (reload_hparams (sys_shared s) (sys_worker s)))) in *.
      set (sh2 := fst (serve_state_request
                         (fst (fst (reload_hparams (sys_shared s) (sys_worker s))))
                         w1)) in *.
      assert (Hs1 : sys_worker s1 = w1 /\ sys_shared s1 = set_pause sh2 true /\
                    sys_globals s1 = sys_globals s /\ sys_status s1 = Continue).
      { unfold s1. cbn [sys_step]. change (sys_status sp) with (sys_status s).
        rewrite Est. cbn [sys_worker sys_shared sys_globals sys_status]. auto. }
      destruct Hs1 as (A1 & A2 & A3 & A4).
      assert (Hrest : same_state (sys_run l1_diff ck (repeat Iterate n) s1) s1).
      { apply paused_system_rests; rewrite A2;
          [exact K4 | exact K5 | reflexivity | rewrite K1; exact Hap]. }
      cbn [repeat sys_run fold_left].
      fold (sys_run l1_diff ck (repeat Iterate n) (sys_step l1_diff ck Iterate sp)).
      fold s1.
      set (s2 := sys_run l1_diff ck (repeat Iterate n) s1) in *.
      destruct Hrest as (R1 & R2 & R3 & R4).
      pose proof (pass_from_prologue ck (sys_globals s) (sys_shared s)
                                     (sys_worker s)) as F.
      cbv zeta in F. fold w1 in F. fold sh2 in F.
      destruct F as (F1 & F2 & F3 & F4).
      assert (Hsh2 : set_pause (set_pause sh2 true) false = sh2).
      { rewrite set_pause_twice.
        assert (H : pause sh2 = false)
          by (unfold sh2, w1; rewrite prologue_pause; exact Hp).
        rewrite <- H. apply set_pause_same. }
      unfold same_state. cbn [sys_step on_shared sys_status sys_worker
                                       sys_shared sys_globals].
      rewrite R4, A4, Est.
      cbn [sys_worker sys_shared sys_globals sys_status].
      rewrite R1, R2, R3, A1, A2, A3, Hsh2.
      auto.
    + (* the loop has ended: no pass does anything *)
      assert (Hn : forall k x, sys_status x = Break ->
                       sys_run l1_diff ck (repeat Iterate k) x = x).
      { induction k as [| k IHk]; intros x Hx; [reflexivity |].
        cbn [repeat sys_run fold_left]. cbn [sys_step]. rewrite Hx.
        apply IHk. exact Hx. }
      rewrite Hn by exact Est.
      destruct s as [g0 sh0 w0 st0 tr0].
      cbn [sys_shared sys_status] in Hp, Est. subst st0.
      destruct sh0. cbn in Hp. subst.
      unfold same_state. cbn. auto.
    + assert (Hn : forall k x, sys_status x = Raised e ->
                       sys_run l1_diff ck (repeat Iterate k) x = x).
      { induction k as [| k IHk]; intros x Hx; [reflexivity |].
        cbn [repeat sys_run fold_left]. cbn [sys_step]. rewrite Hx.
        apply IHk. exact Hx. }
      rewrite Hn by exact Est.
      destruct s as [g0 sh0 w0 st0 tr0].
      cbn [sys_shared sys_status] in Hp, Est. subst st0.
      destruct sh0. cbn in Hp. subst.
      unfold same_state. cbn. auto.
Qed.

End PauseFacts.

Lemma pause_and_resume_lose_nothing_witness :
  let s := sys_run dist1 false [DoPush [sample_n 0; sample_n 1; sample_n 2]]
                   (fresh_system Z (hparams_with 2 10)) in
  pause (sys_shared s) = false /\ abort (sys_shared s) = false /\
  same_state
    (sys_run dist1 false ([DoPause] ++ repeat Iterate 3 ++ [DoResume; Iterate]) s)
    (sys_run dist1 false [Iterate] s).
Proof.
  cbv zeta. split; [reflexivity | split; [reflexivity |]].
  exact (@pause_and_resume_lose_nothing
           Z dist1 false
           (sys_run dist1 false [DoPush [sample_n 0; sample_n 1; sample_n 2]]
                    (fresh_system Z (hparams_with 2 10)))
           3 eq_refl eq_refl).
Defined.

(** ** The controller's waits *)

Lemma slept_app (a b : list cevent) : slept (a ++ b) = slept a + slept b.
Proof.
  induction a as [| e a IH]; [reflexivity |].
  destruct e; cbn [app slept]; rewrite ?IH; lia.
Qed.

Lemma kill_wait_bound (turns : nat) :
  forall (alive : nat -> bool) (call : nat) (kill_attempts num : Z),
    0 <= slept (fst (kill_wait turns alive call kill_attempts num))
      <= Z.of_nat turns /\
    Forall polling (fst (kill_wait turns alive call kill_attempts num)).
Proof.
  induction turns as [| turns IH]; intros alive call ka num.
  - cbn. split; [lia | constructor].
  - cbn [kill_wait]. destruct (alive call).
    + cbv zeta. destruct (num <? ka + 1).
      * cbn [fst]. split; [cbn; lia |].
        repeat constructor.
      * specialize (IH alive (S call) (ka + 1) num).
        destruct (kill_wait turns alive (S call) (ka + 1) num) as [ev' call'].
        cbn [fst] in *. destruct IH as [IH1 IH2].
        split; [rewrite slept_app; cbn [slept]; lia |].
        apply Forall_app. split; [| exact IH2].
        repeat constructor.
    + cbn [fst]. split; [cbn; lia |].
      repeat constructor.
Qed.

(** X11.  [_kill_state_server] sets the stop event before anything else,
    then only polls and sleeps: it sleeps at most
    [max 1 (num_kill_attempts + 1)] seconds whatever the thread does,
    never terminates anything, and ends with one more liveness check
    whose answer alone decides between the warning and "State server
    killed."  For a thread that is found dead at the first check it
    does not sleep at all. *)
Theorem kill_state_server_is_bounded (alive : nat -> bool) (num : Z) :
  let ev := _kill_state_server alive num in
  (exists polls verdict,
      ev = [Log Info KillingStateServerThread; SetStop] ++ polls
             ++ [IsAlive verdict;
                 if verdict then Log Warning (FailedToKillStateServer num)
                 else Log Info StateServerKilled] /\
      Forall polling polls) /\
  0 <= slept ev <= Z.max 1 (num + 1) /\
  ~ In Terminate ev /\
  (alive 0%nat = false -> slept ev = 0).
Proof.
  cbv zeta. unfold _kill_state_server.
  pose proof (kill_wait_bound (Z.to_nat (Z.max 1 (num + 1))) alive 0 0 num) as H.
  assert (Hdead : alive 0%nat = false ->
                  fst (kill_wait (Z.to_nat (Z.max 1 (num + 1))) alive 0 0 num)
                  = [IsAlive false]).
  { intros H0. destruct (Z.to_nat (Z.max 1 (num + 1))) eqn:E; [lia |].
    cbn [kill_wait]. rewrite H0. reflexivity. }
  destruct (kill_wait (Z.to_nat (Z.max 1 (num + 1))) alive 0 0 num) as [ev call].
  cbn [fst] in *. destruct H as [[H1 H2] H3].
  assert (Hs : slept ([Log Info KillingStateServerThread; SetStop] ++ ev ++
                      [IsAlive (alive call);
                       if alive call
                       then Log Warning (FailedToKillStateServer num)
                       else Log Info StateServerKilled]) = slept ev).
  { rewrite !slept_app. destruct (alive call); cbn; lia. }
  split; [exists ev, (alive call); split; [reflexivity | exact H3] |].
  split; [rewrite Hs; lia |].
  split.
  - intros Hin. apply in_app_or in Hin. destruct Hin as [Hin | Hin].
    + destruct Hin as [Hin | [Hin | []]]; discriminate.
    + apply in_app_or in Hin. destruct Hin as [Hin | Hin].
      * rewrite Forall_forall in H3. exact (H3 _ Hin).
      * destruct (alive call); destruct Hin as [Hin | [Hin | []]]; discriminate.
  - intros H0. rewrite Hs, (Hdead H0). reflexivity.
Qed.

Lemma kill_wait_all_alive (alive : nat -> bool) (num : Z) :
  (forall k, alive k = true) ->
  forall (turns call : nat) (kill_attempts : Z),
    kill_attempts + Z.of_nat turns = num + 1 -> (0 < turns)%nat ->
    slept (fst (kill_wait turns alive call kill_attempts num)) = Z.of_nat turns /\
    In (Log Info (AttemptOf (num + 1) num))
       (fst (kill_wait turns alive call kill_attempts num)).
Proof.
  intros Ha. induction turns as [| turns IH]; intros call ka Hsum Hpos; [lia |].
  cbn [kill_wait]. rewrite Ha. cbv zeta.
  destruct (num <? ka + 1) eqn:E.
  - apply Z.ltb_lt in E. assert (turns = 0%nat) by lia. subst turns.
    assert (ka + 1 = num + 1) by lia.
    cbn [fst]. split; [reflexivity |].
    right. right. left. congruence.
  - apply Z.ltb_ge in E.
    destruct (IH (S call) (ka + 1)) as [I1 I2]; [lia | lia |].
    destruct (kill_wait turns alive (S call) (ka + 1) num) as [ev' call'].
    cbn [fst] in *. split.
    + rewrite slept_app, I1. cbn [slept]. lia.
    + apply in_or_app. right. exact I2.
Qed.

(** X12.  The loop of [_kill_state_server] compares after counting, with
    [>]: for a thread that never dies it sleeps
    [num_kill_attempts + 1] seconds, one more than the attempts it was
    given, logs "Attempt n+1 of n." on the way, and reports the
    failure with a warning. *)
Theorem kill_state_server_makes_one_attempt_too_many
        (alive : nat -> bool) (num : Z) :
  (forall k, alive k = true) -> 0 <= num ->
  slept (_kill_state_server alive num) = num + 1 /\
  In (Log Info (AttemptOf (num + 1) num)) (_kill_state_server alive num) /\
  In (Log Warning (FailedToKillStateServer num)) (_kill_state_server alive num) /\
  ~ In (Log Info StateServerKilled) (_kill_state_server alive num).
Proof.
  intros Ha Hnum. unfold _kill_state_server.
  destruct (@kill_wait_all_alive alive num Ha
              (Z.to_nat (Z.max 1 (num + 1))) 0%nat 0) as [H1 H2]; [lia | lia |].
  pose proof (kill_wait_bound (Z.to_nat (Z.max 1 (num + 1))) alive 0 0 num)
    as [_ H3].
  destruct (kill_wait (Z.to_nat (Z.max 1 (num + 1))) alive 0 0 num) as [ev call].
  cbn [fst] in *. rewrite Ha.
  split; [rewrite !slept_app, H1; cbn; lia |].
  split; [apply in_or_app; right; apply in_or_app; left; exact H2 |].
  split; [apply in_or_app; right; apply in_or_app; right; right; left; reflexivity |].
  intros Hin. apply in_app_or in Hin. destruct Hin as [Hin | Hin].
  - destruct Hin as [Hin | [Hin | []]]; discriminate.
  - apply in_app_or in Hin. destruct Hin as [Hin | Hin].
    + rewrite Forall_forall in H3. exact (H3 _ Hin).
    + destruct Hin as [Hin | [Hin | []]]; discriminate.
Qed.

Lemma kill_state_server_is_bounded_witness :
  (fun _ : nat => false) 0%nat = false /\
  slept (_kill_state_server (fun _ => false) 5) = 0.
Proof.
  split; [reflexivity |].
  exact (proj2 (proj2 (proj2
           (kill_state_server_is_bounded (fun _ => false) 5))) eq_refl).
Defined.

Lemma kill_state_server_makes_one_attempt_too_many_witness :
  (forall k, always_alive k = true) /\ 0 <= 5 /\
  slept (_kill_state_server always_alive 5) = 5 + 1.
Proof.
  assert (Ha : forall k, always_alive k = true) by (intros k; reflexivity).
  assert (Hn : 0 <= 5) by lia.
  split; [exact Ha | split; [exact Hn |]].
  exact (proj1 (@kill_state_server_makes_one_attempt_too_many
                  always_alive 5 Ha Hn)).
Defined.

Lemma shutdown_trials_slept (alive : nat -> bool) (n : nat) :
  forall k,
    slept (shutdown_trials (seq k n) alive)
    = 10 * Z.of_nat (alive_streak alive k n).
Proof.
  induction n as [| n IH]; intros k; [reflexivity |].
  cbn [seq shutdown_trials alive_streak slept].
  destruct (alive k); [| reflexivity].
  cbn [slept]. rewrite IH. lia.
Qed.

Lemma alive_streak_le (alive : nat -> bool) (n : nat) :
  forall k, (alive_streak alive k n <= n)%nat.
Proof.
  induction n as [| n IH]; intros k; cbn; [lia |].
  destruct (alive k); [specialize (IH (S k)) |]; lia.
Qed.

(** X13.  [shut_down_training_process] blocks for ten seconds per trial in
    which it finds the process alive, counted up to the first trial
    that finds it dead: at most 60 seconds.  It sets the abort event
    and changes nothing else: every mailbox and each of the four other
    flags (pause, change of hyperparameters and the two state
    requests) is as it was; and without a training process it does
    nothing at all, not even set the abort event. *)
Theorem shutdown_waits_ten_seconds_per_live_trial
        (tensor : Type) (t : Trainer) (sh : Shared tensor) (alive : nat -> bool) :
  let r := shut_down_training_process t sh alive in
  slept (snd r)
  = (if has_process t then 10 * Z.of_nat (alive_streak alive 0 6) else 0) /\
  0 <= slept (snd r) <= 60 /\
  data_queue (fst r) = data_queue sh /\ hparams_queue (fst r) = hparams_queue sh /\
  state_queue (fst r) = state_queue sh /\
  optimizer_queue (fst r) = optimizer_queue sh /\
  pause (fst r) = pause sh /\ change_hparams (fst r) = change_hparams sh /\
  state_request (fst r) = state_request sh /\
  optimizer_state_request (fst r) = optimizer_state_request sh /\
  fst r = (if has_process t then set_abort sh else sh) /\
  (if has_process t then abort (fst r) = true else r = (sh, [])).
Proof.
  cbv zeta. unfold shut_down_training_process, set_abort.
  pose proof (alive_streak_le alive 6 0) as Hle.
  destruct (has_process t); cbn [fst snd]; [| cbn; repeat split; lia].
  rewrite !slept_app, shutdown_trials_slept.
  cbn [slept data_queue hparams_queue state_queue optimizer_queue pause
       change_hparams abort state_request optimizer_state_request].
  repeat split; lia.
Qed.

(** ** Draining a state mailbox *)

Lemma last_cons (A : Type) (l : list A) :
  forall x d, last (x :: l) d = last l x.
Proof.
  induction l as [| y l IH]; intros x d; [reflexivity |].
  change (last (x :: y :: l) d) with (last (y :: l) d).
  rewrite !IH. reflexivity.
Qed.

Lemma drain_loop_last (A : Type) (pending : list A) :
  forall state, drain_loop pending state = last (map Some pending) state.
Proof.
  induction pending as [| x rest IH]; intros state; [reflexivity |].
  cbn [drain_loop map]. rewrite IH, last_cons. reflexivity.
Qed.

Lemma residual_logs_drain (c : component) (pending : list Snapshot) :
  residual_logs (drain_events c pending) = List.length pending.
Proof.
  unfold residual_logs, drain_events.
  induction pending as [| s rest IH]; [reflexivity |].
  cbn [flat_map app filter List.length] in *. rewrite IH. reflexivity.
Qed.

(** X14.  [_drain_state_queue(key)] returns the newest of the state dicts
    waiting in the mailbox of [key] ([None] when there is none), logs
    one "residual state" line per state dict it takes, and leaves that
    mailbox empty, so that a second drain returns [None].  The other
    component's mailbox, the data and hyperparameter queues and all
    the events stay as they were. *)
Theorem drain_state_queue_keeps_the_newest
        (tensor : Type) (key : component) (sh : Shared tensor) :
  let r := _drain_state_queue key sh in
  let state := fst (fst r) in
  let sh' := snd (fst r) in
  let other := match key with
               | TrainableUnit => OptimizerState
               | OptimizerState => TrainableUnit
               end in
  state = last (map Some (q_items (response_queue key sh))) None /\
  q_items (response_queue key sh') = [] /\
  response_queue other sh' = response_queue other sh /\
  data_queue sh' = data_queue sh /\ hparams_queue sh' = hparams_queue sh /\
  (abort sh', pause sh', change_hparams sh', state_request sh',
   optimizer_state_request sh')
  = (abort sh, pause sh, change_hparams sh, state_request sh,
     optimizer_state_request sh) /\
  residual_logs (snd r) = List.length (q_items (response_queue key sh)) /\
  fst (fst (_drain_state_queue key sh')) = None.
Proof.
  cbv zeta. unfold _drain_state_queue. cbn [fst snd].
  rewrite residual_logs_drain, drain_loop_last.
  destruct key; cbn; repeat split.
Qed.

(** ** Pulling the optimizer state *)


(** ** From the public methods to the worker *)

Section MethodFacts.

Variable tensor : Type.

(** X16.  Hyperparameters pushed before the first sample only replace the
    defaults: nothing is queued and no change event is set.  The first
    [push] then ignites: exactly one worker process is started, it
    finds those hyperparameters in its mailbox and starts from them
    (or dies at once with ValueError when their [cache_size] is
    negative), with no reload pending, and the data queue holds the
    pushed pairs. *)
Theorem defaults_pushed_before_ignition_reach_the_worker
        (h0 h : HParams) (model_state : nat) (data labels : list tensor) :
  let c1 := fst (TrainerMethods.push_hparams
                   (TrainerMethods.new_handle tensor h0 model_state) h) in
  let c2 := fst (TrainerMethods.push c1 data labels) in
  TrainerMethods.h_shared c1 = None /\
  TrainerMethods.h_started c1 = 0%nat /\
  TrainerMethods.h_started c2 = 1%nat /\
  ignited (TrainerMethods.h_trainer c2) = true /\
  exists sh,
    TrainerMethods.h_shared c2 = Some sh /\
    change_hparams sh = false /\
    worker_startup model_state sh
    = Some (start_worker tensor model_state h,
            push (ignited_shared tensor) (combine data labels)) /\
    (start_worker tensor model_state h = Raise ValueError <-> cache_size h < 0) /\
    (0 <= cache_size h ->
     exists w, start_worker tensor model_state h = Ok w /\ hparams w = h /\
               items (data_cache w) = [] /\ maxlen (data_cache w) = cache_size h /\
               model w = model_state /\ iter_count w = 0).
Proof.
  cbv zeta. cbn. repeat split.
  eexists. split; [reflexivity |]. split; [reflexivity |].
  split; [reflexivity |].
  unfold start_worker, new_deque.
  destruct (cache_size h <? 0) eqn:E.
  - apply Z.ltb_lt in E. cbn. split; [split; auto | intros; lia].
  - apply Z.ltb_ge in E. cbn. split; [split; [discriminate | lia] |].
    intros _. eexists. split; [reflexivity |]. repeat split.
Qed.

(** X17.  [push] pairs data and labels with [zip]: when the two lists differ
    in length the surplus is dropped without a word, while both log
    lines report [len(data)].  The pairs are put behind what the queue
    already holds, in order; nothing else changes, and a worker is
    started only when the trainer was not ignited yet. *)
Theorem push_zips_data_and_labels
        (c : TrainerMethods.Handle tensor) (data labels : list tensor) :
  TrainerMethods.well_formed c ->
  let r := TrainerMethods.push c data labels in
  let before := if ignited (TrainerMethods.h_trainer c)
                then match TrainerMethods.h_shared c with
                     | Some sh => q_items (data_queue sh)
                     | None => []
                     end
                else [] in
  exists sh',
    TrainerMethods.h_shared (fst r) = Some sh' /\
    q_items (data_queue sh') = before ++ combine data labels /\
    len (q_items (data_queue sh'))
    = len before + Z.min (len data) (len labels) /\
    In (Info, TrainerMethods.FedSamples (len data)) (snd r) /\
    ignited (TrainerMethods.h_trainer (fst r)) = true /\
    TrainerMethods.h_started (fst r)
    = (if ignited (TrainerMethods.h_trainer c) then TrainerMethods.h_started c
       else S (TrainerMethods.h_started c)) /\
    TrainerMethods.well_formed (fst r).
Proof.
  intros Hwf. cbv zeta.
  unfold TrainerMethods.push, TrainerMethods.ensure_ignited,
    TrainerMethods.well_formed in *.
  assert (Hlen : forall before : list (Sample tensor),
             len (before ++ combine data labels)
             = len before + Z.min (len data) (len labels)).
  { intros before. unfold len, Sample in *. rewrite length_app, length_combine.
    rewrite Nat2Z.inj_add, Nat2Z.inj_min. reflexivity. }
  destruct (ignited (TrainerMethods.h_trainer c)) eqn:Hig.
  - destruct (TrainerMethods.h_shared c) as [sh |] eqn:Hsh;
      [| exfalso; apply Hwf; reflexivity].
    cbn [fst snd TrainerMethods.h_shared TrainerMethods.h_trainer
         TrainerMethods.h_started option_map].
    eexists. split; [reflexivity |].
    unfold push. cbn [data_queue with_data_queue q_items].
    split; [reflexivity |]. split; [apply Hlen |].
    split; [right; left; reflexivity |].
    split; [exact Hig |]. split; [reflexivity |]. intros _. discriminate.
  - cbn [fst snd TrainerMethods.h_shared TrainerMethods.h_trainer
         TrainerMethods.h_started option_map TrainerMethods.ignition].
    eexists. split; [reflexivity |].
    unfold push. cbn [data_queue with_data_queue q_items new_queue].
    split; [reflexivity |]. split; [apply (Hlen []) |].
    split; [right; right; left; reflexivity |].
    split; [reflexivity |]. split; [reflexivity |]. intros _. discriminate.
Qed.

End MethodFacts.


Lemma defaults_pushed_before_ignition_reach_the_worker_witness :
  0 <= cache_size (hparams_with 2 10) /\
  exists w, start_worker Z 0 (hparams_with 2 10) = Ok w /\
            hparams w = hparams_with 2 10.
Proof.
  assert (Hc : 0 <= cache_size (hparams_with 2 10)) by (simpl; lia).
  split; [exact Hc |].
  destruct (@defaults_pushed_before_ignition_reach_the_worker
              Z default_hparams (hparams_with 2 10) 0%nat [1; 2] [3; 4])
    as (_ & _ & _ & _ & sh & _ & _ & _ & _ & Hw).
  destruct (Hw Hc) as (w & E & Hh & _).
  exists w. split; [exact E | exact Hh].
Defined.

Lemma push_zips_data_and_labels_witness :
  let c := TrainerMethods.new_handle Z default_hparams 0 in
  TrainerMethods.well_formed c /\
  exists sh',
    TrainerMethods.h_shared (fst (TrainerMethods.push c [1; 2; 3] [4; 5]))
    = Some sh' /\
    q_items (data_queue sh') = [] ++ combine [1; 2; 3] [4; 5].
Proof.
  cbv zeta.
  assert (Hwf : TrainerMethods.well_formed
                  (TrainerMethods.new_handle Z default_hparams 0))
    by (intros H; discriminate H).
  split; [exact Hwf |].
  destruct (@push_zips_data_and_labels
              Z (TrainerMethods.new_handle Z default_hparams 0)
              [1; 2; 3] [4; 5] Hwf)
    as (sh' & H1 & H2 & _).
  exists sh'. split; [exact H1 | exact H2].
Defined.

(** ** Cache keeping, when its name is bound *)

Section KeepingFacts.

Variable tensor : Type.
Variable l1_diff : tensor -> tensor -> Q.

Lemma scan_cache_spec (sample : Sample tensor) (cache : list (Sample tensor)) :
  forall idx update_batch dirty_indices,
    scan_cache l1_diff sample cache idx update_batch dirty_indices
    = (update_batch && negb (existsb (represents l1_diff sample) cache),
       dirty_indices ++ dirty_from l1_diff sample cache idx).
Proof.
  destruct sample as [d l].
  induction cache as [| [cd cl] rest IH]; intros idx ub di.
  - cbn. rewrite andb_true_r, app_nil_r. reflexivity.
  - cbn [scan_cache existsb dirty_from]. cbv zeta.
    assert (Hr : represents l1_diff (d, l) (cd, cl)
                 = negb (Qgt_bool (l1_diff d cd) tolerance)
                   && Qlt_bool (l1_diff l cl) tolerance) by reflexivity.
    assert (Hd : dirty l1_diff (d, l) (cd, cl)
                 = negb (Qgt_bool (l1_diff d cd) tolerance)
                   && negb (Qlt_bool (l1_diff l cl) tolerance)) by reflexivity.
    rewrite Hr, Hd.
    destruct (Qgt_bool (l1_diff d cd) tolerance); cbn [negb andb orb].
    + apply IH.
    + destruct (Qlt_bool (l1_diff l cl) tolerance); cbn [negb andb orb].
      * rewrite IH, andb_false_r. reflexivity.
      * rewrite IH, <- app_assoc. reflexivity.
Qed.

Lemma dirty_from_ge (sample : Sample tensor) (cache : list (Sample tensor)) :
  forall idx j, In j (dirty_from l1_diff sample cache idx) -> (idx <= j)%nat.
Proof.
  induction cache as [| e rest IH]; intros idx j Hin; [destruct Hin |].
  cbn [dirty_from] in Hin. destruct (dirty l1_diff sample e).
  - destruct Hin as [<- | Hin]; [lia |]. apply IH in Hin. lia.
  - apply IH in Hin. lia.
Qed.

Lemma existsb_eqb_false (idx : nat) (l : list nat) :
  (forall j, In j l -> j <> idx) -> existsb (Nat.eqb idx) l = false.
Proof.
  intros H. induction l as [| x l IH]; [reflexivity |].
  cbn [existsb]. rewrite IH by (intros j Hj; apply H; right; exact Hj).
  destruct (Nat.eqb_spec idx x) as [-> |]; [| reflexivity].
  exfalso. apply (H x); [left |]; reflexivity.
Qed.

Lemma drop_indices_spec (sample : Sample tensor) (cache : list (Sample tensor)) :
  forall idx seen,
    (forall j, In j seen -> (j < idx)%nat) ->
    drop_indices cache idx (seen ++ dirty_from l1_diff sample cache idx)
    = filter (fun e => negb (dirty l1_diff sample e)) cache.
Proof.
  induction cache as [| e rest IH]; intros idx seen Hseen; [reflexivity |].
  cbn [drop_indices dirty_from filter].
  destruct (dirty l1_diff sample e) eqn:Ed; cbn [negb].
  - assert (Hex : existsb (Nat.eqb idx)
                          (seen ++ idx :: dirty_from l1_diff sample rest (S idx)) = true).
    { apply existsb_exists. exists idx. split; [| apply Nat.eqb_refl].
      apply in_or_app. right. left. reflexivity. }
    rewrite Hex.
    change (idx :: dirty_from l1_diff sample rest (S idx))
      with ([idx] ++ dirty_from l1_diff sample rest (S idx)).
    rewrite app_assoc. apply IH.
    intros j Hj. apply in_app_or in Hj. destruct Hj as [Hj | [<- | []]];
      [apply Hseen in Hj |]; lia.
  - rewrite existsb_eqb_false.
    + f_equal. rewrite <- (IH (S idx) seen); [reflexivity |].
      intros j Hj. apply Hseen in Hj. lia.
    + intros j Hj. apply in_app_or in Hj. destruct Hj as [Hj | Hj].
      * apply Hseen in Hj. lia.
      * apply dirty_from_ge in Hj. lia.
Qed.

Lemma dirty_from_nil (sample : Sample tensor) (cache : list (Sample tensor)) :
  forall idx,
    existsb (dirty l1_diff sample) cache
    = match dirty_from l1_diff sample cache idx with [] => false | _ :: _ => true end.
Proof.
  induction cache as [| e rest IH]; intros idx; [reflexivity |].
  cbn [existsb dirty_from]. destruct (dirty l1_diff sample e); [reflexivity |].
  apply IH.
Qed.

(** [_cache_keeping] on a bound cache, with the two index loops
    replaced by what they compute. *)
Lemma cache_keeping_by_filter
      (hp : HParams) (cache : deque (Sample tensor)) (sample : Sample tensor) :
  _cache_keeping l1_diff hp (mkGlobals (Some cache)) sample
  = (cleaned <-
       (if existsb (dirty l1_diff sample) (items cache)
        then new_deque (filter (fun e => negb (dirty l1_diff sample e))
                               (items cache))
                       (cache_size hp)
        else Ok cache) ;;
     Ok (negb (existsb (represents l1_diff sample) (items cache)),
         mkGlobals (Some (append cleaned sample)))).
Proof.
  unfold _cache_keeping. cbn [g_data_cache].
  rewrite scan_cache_spec. cbn [andb app].
  rewrite (dirty_from_nil sample (items cache) 0).
  pose proof (@drop_indices_spec sample (items cache) 0%nat []) as Hdrop.
  cbn [app] in Hdrop.
  destruct (dirty_from l1_diff sample (items cache) 0) as [| i more] eqn:Ed.
  - reflexivity.
  - rewrite Hdrop by (intros j []). reflexivity.
Qed.

(** X18.  With [data_cache] bound at module level, the index bookkeeping of
    [_cache_keeping] does what the policy says: every cache entry with
    the sample's data but other labels is dropped (and only those, in
    one rebuild that takes the current [cache_size] as the new bound
    and fails with ValueError when that is negative), the sample is
    appended in any case, and the answer is false exactly when some
    entry has the sample's data and labels. *)
Theorem cache_keeping_drops_the_dirty_entries
        (hp : HParams) (cache : deque (Sample tensor)) (sample : Sample tensor) :
  _cache_keeping l1_diff hp (mkGlobals (Some cache)) sample
  = (r <- keep_cache l1_diff hp cache sample ;;
     Ok (fst r, mkGlobals (Some (snd r)))).
Proof.
  rewrite cache_keeping_by_filter. unfold keep_cache.
  destruct (existsb (dirty l1_diff sample) (items cache)).
  - destruct (new_deque
                (filter (fun e => negb (dirty l1_diff sample e)) (items cache))
                (cache_size hp)) as [cleaned | e]; reflexivity.
  - reflexivity.
Qed.

Lemma append_ends_with (A : Type) (d : deque A) (x : A) :
  0 < maxlen d -> exists older, items (append d x) = older ++ [x].
Proof.
  intros Hm. unfold append. cbn [items].
  destruct (Z.ltb_spec (maxlen d) (len (items d ++ [x]))) as [Hlt | Hge];
    [| exists (items d); reflexivity].
  destruct (items d) as [| y l].
  - cbn in Hlt. lia.
  - exists l. reflexivity.
Qed.

Lemma fold_append_incl (A : Type) (xs : list A) :
  forall d : deque A,
    incl (items (fold_left append xs d)) (items d ++ xs) /\
    maxlen (fold_left append xs d) = maxlen d.
Proof.
  induction xs as [| x xs IH]; intros d; cbn [fold_left].
  - rewrite app_nil_r. split; [apply incl_refl | reflexivity].
  - destruct (IH (append d x)) as [I1 I2]. split; [| exact I2].
    intros e He. apply I1 in He. apply in_app_or in He.
    destruct He as [He | He].
    + apply (@append_incl A d x) in He. apply in_app_or in He.
      destruct He as [He | [<- | []]]; apply in_or_app; [left | right; left]; auto.
    + apply in_or_app. right. right. exact He.
Qed.

(** X19.  With [data_cache] bound at module level, a call of
    [_cache_keeping] that returns leaves a cache in which no entry
    taken over from before is dirty for the sample; every entry is the
    sample or was in the cache before; and unless the cache has room
    for nothing the sample is its newest entry. *)
Theorem cache_keeping_leaves_no_dirty_entry
        (hp : HParams) (cache : deque (Sample tensor)) (sample : Sample tensor)
        (update_batch : bool) (g' : Globals tensor) :
  _cache_keeping l1_diff hp (mkGlobals (Some cache)) sample
  = Ok (update_batch, g') ->
  exists cache',
    g_data_cache g' = Some cache' /\
    (forall entry, In entry (items cache') ->
                   entry = sample \/
                   (In entry (items cache) /\ dirty l1_diff sample entry = false)) /\
    (0 < maxlen cache' -> exists older, items cache' = older ++ [sample]) /\
    maxlen cache'
    = (if existsb (dirty l1_diff sample) (items cache) then cache_size hp
       else maxlen cache).
Proof.
  rewrite cache_keeping_by_filter.
  destruct (existsb (dirty l1_diff sample) (items cache)) eqn:Ed.
  - unfold new_deque. destruct (cache_size hp <? 0); [discriminate |].
    cbn [bind fst snd]. intros E. injection E as _ <-.
    eexists. split; [reflexivity |].
    destruct (@fold_append_incl _
                (filter (fun e => negb (dirty l1_diff sample e)) (items cache))
                (mkDeque [] (cache_size hp))) as [I1 I2].
    cbn [items maxlen app] in I1, I2.
    split; [| split; [| rewrite append_maxlen; exact I2]].
    + intros entry Hin. apply (@append_incl _ _ sample) in Hin.
      apply in_app_or in Hin. destruct Hin as [Hin | [<- | []]]; [| left; reflexivity].
      apply I1 in Hin. apply filter_In in Hin. destruct Hin as [Hin Hd].
      right. split; [exact Hin |]. destruct (dirty l1_diff sample entry);
        [discriminate | reflexivity].
    + intros Hm. apply append_ends_with. rewrite append_maxlen in Hm. exact Hm.
  - cbn [bind fst snd]. intros E. injection E as _ <-.
    eexists. split; [reflexivity |].
    split; [| split; [| reflexivity]].
    + intros entry Hin. apply (@append_incl _ _ sample) in Hin.
      apply in_app_or in Hin. destruct Hin as [Hin | [<- | []]]; [| left; reflexivity].
      right. split; [exact Hin |].
      destruct (dirty l1_diff sample entry) eqn:Hd; [| reflexivity].
      assert (existsb (dirty l1_diff sample) (items cache) = true)
        by (apply existsb_exists; exists entry; auto).
      congruence.
    + intros Hm. apply append_ends_with. exact Hm.
Qed.

End KeepingFacts.

Lemma cache_keeping_leaves_no_dirty_entry_witness :
  let cache := mkDeque [(0, 1); (5, 5)] 10 in
  let g' := mkGlobals (Some (mkDeque [(5, 5); (0, 0)] 10)) in
  _cache_keeping dist1 (hparams_with 2 10) (mkGlobals (Some cache)) (sample_n 0)
  = Ok (true, g') /\
  exists cache',
    g_data_cache g' = Some cache' /\
    (forall entry, In entry (items cache') ->
                   entry = sample_n 0 \/
                   (In entry (items cache) /\
                    dirty dist1 (sample_n 0) entry = false)).
Proof.
  cbv zeta.
  assert (E : _cache_keeping dist1 (hparams_with 2 10)
                (mkGlobals (Some (mkDeque [(0, 1); (5, 5)] 10))) (sample_n 0)
              = Ok (true, mkGlobals (Some (mkDeque [(5, 5); (0, 0)] 10))))
    by (vm_compute; reflexivity).
  split; [exact E |].
  destruct (@cache_keeping_leaves_no_dirty_entry
              Z dist1 (hparams_with 2 10) (mkDeque [(0, 1); (5, 5)] 10)
              (sample_n 0) true
              (mkGlobals (Some (mkDeque [(5, 5); (0, 0)] 10))) E)
    as (cache' & H1 & H2 & _).
  exists cache'. split; [exact H1 | exact H2].
Defined.

(** ** The optimizer servers *)

Module ServerFacts.

Import Interleaving Pairing.

Lemma length_update_nth (A : Type) (f : A -> A) (l : list A) :
  forall k, List.length (update_nth k f l) = List.length l.
Proof.
  induction l as [| x l IH]; intros k; destruct k; cbn; auto.
Qed.

Lemma nth_error_update_nth (A : Type) (f : A -> A) (l : list A) :
  forall k j,
    nth_error (update_nth k f l) j
    = if Nat.eqb j k then option_map f (nth_error l j) else nth_error l j.
Proof.
  induction l as [| x l IH]; intros k j.
  - destruct k, j; cbn; try reflexivity; destruct (Nat.eqb j k); reflexivity.
  - destruct k, j; cbn; try reflexivity. apply IH.
Qed.

Lemma paired_update (svs : list server) (k : nat) (f : server -> server) :
  (forall x, sv_obj (f x) = sv_obj x /\ (sv_stop x = true -> sv_stop (f x) = true)) ->
  paired_servers svs -> paired_servers (update_nth k f svs).
Proof.
  intros Hf Hp j sv Hj. rewrite nth_error_update_nth in Hj.
  rewrite length_update_nth.
  destruct (Nat.eqb j k); [| exact (Hp j sv Hj)].
  destruct (nth_error svs j) as [sv0 |] eqn:E; [| discriminate].
  injection Hj as <-. destruct (Hp j sv0 E) as [H1 H2].
  destruct (Hf sv0) as [F1 F2]. split; [congruence | auto].
Qed.

Lemma paired_reload (svs : list server) :
  paired_servers svs ->
  paired_servers (update_last stop svs ++ [new_server (List.length svs)]).
Proof.
  intros Hp j sv Hj. unfold update_last in *.
  rewrite length_app, length_update_nth. cbn [List.length].
  destruct (Nat.lt_ge_cases j (List.length svs)) as [Hlt | Hge].
  - rewrite nth_error_app1 in Hj by (rewrite length_update_nth; exact Hlt).
    rewrite nth_error_update_nth in Hj.
    destruct (Nat.eqb_spec j (Nat.pred (List.length svs))) as [E | E].
    + destruct (nth_error svs j) as [sv0 |] eqn:E0; [| discriminate].
      injection Hj as <-. destruct (Hp j sv0 E0) as [H1 _].
      split; [exact H1 | reflexivity].
    + destruct (Hp j sv Hj) as [H1 H2]. split; [exact H1 |].
      intros _. apply H2. lia.
  - rewrite nth_error_app2 in Hj by (rewrite length_update_nth; exact Hge).
    rewrite length_update_nth in Hj.
    destruct (j - List.length svs)%nat as [| d] eqn:Ed.
    + injection Hj as <-. cbn. split; lia.
    + destruct d; discriminate.
Qed.

Lemma stop_keeps (x : server) :
  sv_obj (stop x) = sv_obj x /\ (sv_stop x = true -> sv_stop (stop x) = true).
Proof. split; reflexivity. Qed.

Lemma step_server_keeps (debug : bool) (c : component)
      (request : bool) (lock : option owner) (sv sv' : server) (eff : effect) :
  step_server debug c request lock sv = Some (sv', eff) ->
  sv_obj sv' = sv_obj sv /\ sv_stop sv' = sv_stop sv.
Proof.
  unfold step_server.
  destruct (sv_pc sv);
    repeat match goal with
           | |- context [match state_server_assert ?d ?o with _ => _ end] =>
               destruct (state_server_assert d o)
           | |- context [if sv_stop sv then _ else _] => destruct (sv_stop sv) eqn:?
           | |- context [if request then _ else _] => destruct request
           | |- context [match lock with _ => _ end] => destruct lock
           end;
    intros E; try discriminate; injection E as <- _; split; cbn; congruence.
Qed.

Ltac simpl_state :=
  unfold fail_in_lock, kill_servers, reload, apply_effect, step_env_request,
    set_wk, set_state_lock, set_req, put_state, set_params, set_optims,
    set_servers in *;
  cbn [tu1 tu2 optims state_lock req_tu req_opt q_tu q_opt delivered wk
       tu_server opt_servers got reading loaded] in *.

(** The controller and the model's state server leave the optimizers
    and their servers alone. *)
Lemma others_keep_servers (debug : bool) (a : action) (s s' : state) :
  step debug a s = Some s' ->
  match a with Work _ | Serve_opt _ => False | _ => True end ->
  opt_servers s' = opt_servers s /\ optims s' = optims s.
Proof.
  intros Hstep Ha. destruct a; try contradiction; cbn [step] in Hstep.
  - injection Hstep as <-. destruct c; split; reflexivity.
  - injection Hstep as <-. unfold step_env_take.
    destruct (mailbox c s); [split; reflexivity |]. destruct c; split; reflexivity.
  - unfold step_env_read1 in Hstep.
    destruct (reading s); [discriminate |].
    destruct (got s); [discriminate |]. injection Hstep as <-. split; reflexivity.
  - unfold step_env_read2 in Hstep.
    destruct (reading s) as [[sn a] |]; [| discriminate].
    injection Hstep as <-. split; reflexivity.
  - unfold step_tu_server in Hstep.
    destruct (step_server _ _ _ _ _) as [[sv eff] |]; [| discriminate].
    injection Hstep as <-. destruct eff; simpl_state; split; reflexivity.
Qed.

Lemma step_optims_grow (debug : bool) (a : action) (s s' : state) :
  step debug a s = Some s' ->
  (List.length (optims s) <= List.length (optims s'))%nat.
Proof.
  intros Hstep.
  destruct a;
    try (destruct (@others_keep_servers _ _ _ _ Hstep I) as [_ ->]; lia);
    cbn [step] in Hstep.
  - unfold step_worker in Hstep.
    destruct (wk s); destruct ch; try discriminate;
      repeat match type of Hstep with
             | context [if req_tu ?s then _ else _] => destruct (req_tu s) eqn:?
             | context [match state_lock ?s with _ => _ end] =>
                 destruct (state_lock s) eqn:?
             end;
      try discriminate; injection Hstep as <-;
      simpl_state; unfold update_last;
      rewrite ?length_update_nth, ?length_app; lia.
  - unfold step_opt_server in Hstep.
    destruct (nth_error (opt_servers s) k) as [sv0 |]; [| discriminate].
    destruct (step_server _ _ _ _ _) as [[sv eff] |]; [| discriminate].
    injection Hstep as <-. destruct eff; simpl_state; lia.
Qed.

Lemma step_keeps_paired (debug : bool) (a : action) (s s' : state) :
  paired s -> step debug a s = Some s' -> paired s'.
Proof.
  intros [Hlen Hp] Hstep. fold (paired_servers (opt_servers s)) in Hp.
  assert (Hgoal : forall x, List.length (opt_servers x) = List.length (optims x) ->
                            paired_servers (opt_servers x) -> paired x)
    by (intros x H1 H2; split; assumption).
  destruct a;
    try (destruct (@others_keep_servers _ _ _ _ Hstep I) as [E1 E2];
         apply Hgoal; rewrite E1, ?E2; assumption);
    cbn [step] in Hstep.
  - unfold step_worker in Hstep.
    destruct (wk s); destruct ch; try discriminate;
      repeat match type of Hstep with
             | context [if req_tu ?s then _ else _] => destruct (req_tu s) eqn:?
             | context [match state_lock ?s with _ => _ end] =>
                 destruct (state_lock s) eqn:?
             end;
      try discriminate; injection Hstep as <-; apply Hgoal;
      simpl_state; unfold update_last;
      rewrite ?length_update_nth, ?length_app, ?length_update_nth;
      try assumption;
      try (apply paired_update; [apply stop_keeps | assumption]).
    + cbn [List.length]. lia.
    + rewrite <- Hlen. apply paired_reload. exact Hp.
  - unfold step_opt_server in Hstep.
    destruct (nth_error (opt_servers s) k) as [sv0 |] eqn:Hk; [| discriminate].
    destruct (step_server _ _ _ _ _) as [[sv eff] |] eqn:E; [| discriminate].
    destruct (@step_server_keeps _ _ _ _ _ _ _ E) as [K1 K2].
    assert (Hsv : forall sv' : server,
               sv_obj sv' = sv_obj sv -> sv_stop sv' = sv_stop sv ->
               paired_servers (update_nth k (fun _ => sv') (opt_servers s))).
    { intros sv' O1 O2 j x Hj. rewrite nth_error_update_nth in Hj.
      rewrite length_update_nth.
      destruct (Nat.eqb_spec j k) as [-> | Hne]; [| exact (Hp j x Hj)].
      rewrite Hk in Hj. cbn [option_map] in Hj. injection Hj as <-.
      destruct (Hp k sv0 Hk) as [H1 H2].
      split; [congruence |]. intros Hlt. rewrite O2, K2. auto. }
    injection Hstep as <-. apply Hgoal;
      destruct eff; simpl_state; rewrite ?length_update_nth; try assumption;
      apply Hsv; reflexivity.
Qed.

(** X21.  Every optimizer the worker has built has its own state server,
    started for that optimizer and serving no other; and every
    optimizer server but the newest has been told to stop, so at most
    one of them goes on serving.  This holds in every state the
    threads can reach, with asserts executed or skipped. *)
Theorem optimizer_servers_stay_paired (debug : bool) (s : state) :
  reachable debug s ->
  List.length (opt_servers s) = List.length (optims s) /\
  (0 < List.length (opt_servers s))%nat /\
  forall k sv, nth_error (opt_servers s) k = Some sv ->
               sv_obj sv = k /\
               (S k < List.length (opt_servers s) -> sv_stop sv = true)%nat.
Proof.
  intros [schedule Hrun].
  assert (H : paired s /\ (0 < List.length (optims s))%nat).
  { eapply (@InterleavingFacts.run_keeps
              (fun x => paired x /\ (0 < List.length (optims x))%nat) debug);
      [| | exact Hrun].
    - intros a s1 s2 [Hp Hpos] Hstep.
      split; [eapply step_keeps_paired; eassumption |].
      pose proof (step_optims_grow _ _ _ Hstep). lia.
    - split; [| cbn; lia]. split; [reflexivity |].
      intros k sv Hk. destruct k as [| k]; [| destruct k; discriminate].
      injection Hk as <-. cbn. split; [reflexivity | lia]. }
  destruct H as [[H1 H2] H3].
  split; [exact H1 |]. split; [lia | exact H2].
Qed.

End ServerFacts.

Lemma optimizer_servers_stay_paired_witness :
  exists s,
    Interleaving.run true [Interleaving.Work Interleaving.Alt] Interleaving.init
    = Some s /\
    List.length (Interleaving.opt_servers s) = 2%nat /\
    List.length (Interleaving.opt_servers s)
    = List.length (Interleaving.optims s).
Proof.
  eexists. split; [vm_compute; reflexivity |].
  split; [reflexivity |].
  refine (proj1 (@ServerFacts.optimizer_servers_stay_paired true _ _)).
  exists [Interleaving.Work Interleaving.Alt]. vm_compute. reflexivity.
Defined.
